(** * React-Todolist backend: entity model, repository and service

    A shallow embedding of [backend/src/models/Todo.ts],
    [backend/src/repositories/TodoRepository.ts],
    [backend/src/services/TodoService.ts] and of the table declared by
    [backend/src/database/migrations/001_create_todos_table.ts], followed by
    the properties of the specification that were checked against them.

    Conventions of the embedding.
    - A JavaScript string is the list of its UTF-16 code units.  The texts
      handled here are assumed to stay in the Basic Multilingual Plane, where
      SQLite's characters and JavaScript's code units coincide.
    - A JavaScript number that holds a count, a page or a limit is an integer
      [Z].  Counts stay below 2^53, where a double holds every integer; a
      page and a limit come from the caller, so the arithmetic on them rounds
      to the integers a double holds ([Number_of_Z]) and SQLite takes the
      result only as a 64-bit integer.  The one place where the code computes
      with a fraction ([completionRate]) uses binary64 floats.
    - SQLite leaves open in which order a SELECT yields the rows that its
      ORDER BY ties (it follows the index or the scan the query planner
      picks); the world carries that choice, statement by statement.
    - [new Date()] and [uuidv4()] are effects: they consume the next reading
      of a clock and the next value of an identifier source carried by the
      world, so that two calls are two readings.
    - A thrown exception is the [Throw] branch of [Result]. *)

From Stdlib Require Import ZArith NArith List Bool String Ascii Lia Sorted.
From Stdlib Require Import Floats Uint63.
Import ListNotations.

Open Scope Z_scope.

(* ================================================================= *)
(** ** JavaScript strings *)

Module JsString.

Definition t : Type := list N.

(** An ASCII literal, unit by unit. *)
Definition of_string (s : string) : t :=
  map N_of_ascii (list_ascii_of_string s).

Definition eqb (a b : t) : bool :=
  if list_eq_dec N.eq_dec a b then true else false.

Definition length (s : t) : Z := Z.of_nat (List.length s).

(** WhiteSpace and LineTerminator of ECMAScript, the units [trim] strips. *)
Definition is_whitespace (c : N) : bool :=
  ((9 <=? c) && (c <=? 13) || (c =? 32) || (c =? 160) || (c =? 5760)
   || (8192 <=? c) && (c <=? 8202) || (c =? 8232) || (c =? 8233)
   || (c =? 8239) || (c =? 8287) || (c =? 12288) || (c =? 65279))%N.

Fixpoint trimStart (s : t) : t :=
  match s with
  | [] => []
  | c :: s' => if is_whitespace c then trimStart s' else s
  end.

Definition trimEnd (s : t) : t := rev (trimStart (rev s)).

Definition trim (s : t) : t := trimEnd (trimStart s).

(** Truthiness of a string: the empty string is falsy. *)
Definition truthy (s : t) : bool :=
  match s with [] => false | _ => true end.

End JsString.

Definition jsstring : Type := JsString.t.
Definition js (s : string) : jsstring := JsString.of_string s.

(* ================================================================= *)
(** ** types/index.ts *)

Inductive TodoPriority := LOW | MEDIUM | HIGH.
Inductive TodoFilter := ALL | ACTIVE | COMPLETED.
Inductive TodoSortField := CREATED_AT | UPDATED_AT | TITLE | PRIORITY | DUE_DATE.
Inductive SortOrder := ASC | DESC.

Definition TodoPriority_eqb (a b : TodoPriority) : bool :=
  match a, b with
  | LOW, LOW | MEDIUM, MEDIUM | HIGH, HIGH => true
  | _, _ => false
  end.

(** A [Date] object: its time value in milliseconds, or Invalid Date. *)
Inductive Date := MkDate (time : Z) | InvalidDate.

(** A number such as [Math.ceil(totalItems / limit)] can leave the integers
    when the divisor is zero. *)
Inductive JsNumber := Num (z : Z) | PosInfinity | NegInfinity | NaN.

(** [interface Todo] (also the fields of [class Todo]). *)
Module ITodo.
Record t := mk {
  id : jsstring;
  title : jsstring;
  description : option jsstring;
  completed : bool;
  priority : TodoPriority;
  dueDate : option Date;
  tags : list jsstring;
  createdAt : Date;
  updatedAt : Date;
  completedAt : option Date
}.
End ITodo.

(** [Partial<Todo>]: every field may be absent. *)
Module Partial.
Record t := mk {
  id : option jsstring;
  title : option jsstring;
  description : option jsstring;
  completed : option bool;
  priority : option TodoPriority;
  dueDate : option Date;
  tags : option (list jsstring);
  createdAt : option Date;
  updatedAt : option Date;
  completedAt : option Date
}.

Definition empty : t := mk None None None None None None None None None None.
End Partial.

Module CreateTodoDto.
Record t := mk {
  title : jsstring;
  description : option jsstring;
  priority : option TodoPriority;
  dueDate : option Date;
  tags : option (list jsstring)
}.

(** [{ title }] alone. *)
Definition only_title (s : jsstring) : t := mk s None None None None.
End CreateTodoDto.

Module TodoQueryParams.
Record t := mk {
  filter : option TodoFilter;
  sortBy : option TodoSortField;
  sortOrder : option SortOrder;
  page : option Z;
  limit : option Z;
  search : option jsstring;
  priority : option TodoPriority;
  tags : option (list jsstring)
}.

Definition empty : t := mk None None None None None None None None.
End TodoQueryParams.

Module PaginationMeta.
Record t := mk {
  currentPage : Z;
  totalPages : JsNumber;
  totalItems : Z;
  itemsPerPage : Z;
  hasNextPage : bool;
  hasPreviousPage : bool
}.
End PaginationMeta.

Module PaginatedResponse.
Record t := mk { data : list ITodo.t; meta : PaginationMeta.t }.
End PaginatedResponse.

Module TodoStats.
Record t := mk {
  total : Z;
  completed : Z;
  active : Z;
  overdue : Z;
  byPriority_low : Z;
  byPriority_medium : Z;
  byPriority_high : Z;
  completionRate : JsNumber
}.
End TodoStats.

(* ================================================================= *)
(** ** The table [todos] *)

(** The texts found in the timestamp columns, by shape:
    [IsoText ms] is what [Date.prototype.toISOString] prints for the time
    value [ms] ([YYYY-MM-DDTHH:mm:ss.sssZ]); [DatetimeText s] is what SQLite's
    [datetime()] prints for the second [s] ([YYYY-MM-DD HH:MM:SS]). *)
Inductive SqlText := IsoText (ms : Z) | DatetimeText (sec : Z).

Definition SqlText_eqb (a b : SqlText) : bool :=
  match a, b with
  | IsoText x, IsoText y => x =? y
  | DatetimeText x, DatetimeText y => x =? y
  | _, _ => false
  end.

(** SQLite's [datetime(X)]: both shapes are time strings it reads; it always
    prints the second shape, dropping the milliseconds. *)
Definition datetime (x : SqlText) : SqlText :=
  match x with
  | IsoText ms => DatetimeText (ms / 1000)
  | DatetimeText s => DatetimeText s
  end.

(** A row of [todos].  The column [tags] holds the JSON text of an array of
    strings; the row records that array, [JSON.parse] of the column, and the
    text is recomputed with [JSON.stringify] where a query reads it. *)
Module Row.
Record t := mk {
  id : jsstring;
  title : jsstring;
  description : option jsstring;
  completed : Z;
  priority : TodoPriority;
  due_date : option SqlText;
  tags : list jsstring;
  created_at : SqlText;
  updated_at : SqlText;
  completed_at : option SqlText
}.
End Row.

(* ================================================================= *)
(** ** utils/errors and the effects *)

Inductive ValidationInfo :=
  | TitleRequired
  | TitleTooShort (provided : Z)
  | TitleTooLong (provided : Z)
  | TitleInvalidCharacters (value : jsstring)
  | DescriptionTooLong (provided : Z)
  | TooManyTags (provided : Z)
  | InvalidTag (index : nat)
  | InvalidDueDate
  | PageTooSmall (value : Z)
  | LimitTooSmall (value : Z)
  | LimitTooLarge (value : Z)
  | EmptyBulk
  | BulkTooLarge (provided : Z)
  | BulkItemInvalid (index : nat) (error : ValidationInfo).

(** What SQLite reports: the two constraints of the table, a LIMIT or OFFSET
    that is no 64-bit integer, and the limits of a statement (the number of
    its parameters, the depth of its expressions, the length of a LIKE
    pattern). *)
Inductive SqliteCode :=
  | PRIMARYKEY
  | CHECK
  | MISMATCH
  | TOO_MANY_VARIABLES
  | EXPRESSION_TOO_DEEP
  | LIKE_PATTERN_TOO_COMPLEX.

Inductive Error :=
  | ValidationError (info : ValidationInfo)
  | BadRequestError
  | TodoNotFoundError (id : jsstring)
  | SqliteError (c : SqliteCode)
  | RangeError.

Inductive Result (A : Type) :=
  | Ok (a : A)
  | Throw (e : Error).
Arguments Ok {A} a.
Arguments Throw {A} e.

(** The world a request runs in: the table, in the order of its rowids; the
    readings the system clock will give; the identifiers [uuidv4] will draw;
    the offset of local time (milliseconds east of UTC); and, for each
    statement of [findAll], the order in which the storage yields two rows
    that the ORDER BY leaves tied ([scan q a b] tells whether [a] comes
    before [b]). *)
Record World := mkWorld {
  todos : list Row.t;
  clock : nat -> Z;
  uuids : nat -> jsstring;
  timezone : Z;
  scan : TodoQueryParams.t -> Row.t -> Row.t -> bool
}.

Definition M (A : Type) : Type := World -> Result A * World.

Definition ret {A} (a : A) : M A := fun w => (Ok a, w).

Definition throw {A} (e : Error) : M A := fun w => (Throw e, w).

Definition bind {A B} (m : M A) (k : A -> M B) : M B :=
  fun w =>
    match m w with
    | (Ok a, w') => k a w'
    | (Throw e, w') => (Throw e, w')
    end.

Notation "x <- m ;; k" := (bind m (fun x => k))
  (at level 61, m at next level, right associativity).
Notation "m ;;; k" := (bind m (fun _ => k))
  (at level 61, right associativity).

Definition lift {A} (r : Result A) : M A := fun w => (r, w).

(** One reading of the system clock, in milliseconds. *)
Definition Date_now : M Z :=
  fun w =>
    (Ok (clock w 0),
     mkWorld (todos w) (fun n => clock w (S n)) (uuids w) (timezone w)
       (scan w)).

(** [new Date()]. *)
Definition new_Date : M Date := ms <- Date_now ;; ret (MkDate ms).

(** [uuidv4()]. *)
Definition uuidv4 : M jsstring :=
  fun w =>
    (Ok (uuids w 0),
     mkWorld (todos w) (clock w) (fun n => uuids w (S n)) (timezone w)
       (scan w)).

(** [new Date(text)] on a column text: the ISO shape is UTC, the other shape
    is read as local time. *)
Definition Date_parse (x : SqlText) : M Date :=
  fun w =>
    (Ok (match x with
         | IsoText ms => MkDate ms
         | DatetimeText s => MkDate (s * 1000 - timezone w)
         end), w).

(** [d.toISOString()], a RangeError on Invalid Date. *)
Definition toISOString (d : Date) : Result SqlText :=
  match d with
  | MkDate ms => Ok (IsoText ms)
  | InvalidDate => Throw RangeError
  end.

Fixpoint mapM {A B} (f : A -> M B) (l : list A) : M (list B) :=
  match l with
  | [] => ret []
  | a :: l' => b <- f a ;; bs <- mapM f l' ;; ret (b :: bs)
  end.

(* ================================================================= *)
(** ** models/Todo.ts *)

Module Todo.

Import ITodo.

Definition t := ITodo.t.

(** The private constructor: [props.x || fallback] for each field. *)
Definition new (props : Partial.t) : M t :=
  id <- match Partial.id props with
        | Some i => if JsString.truthy i then ret i else uuidv4
        | None => uuidv4
        end ;;
  createdAt <- match Partial.createdAt props with
               | Some d => ret d
               | None => new_Date
               end ;;
  updatedAt <- match Partial.updatedAt props with
               | Some d => ret d
               | None => new_Date
               end ;;
  ret {| id := id;
         title := match Partial.title props with Some s => s | None => [] end;
         description := Partial.description props;
         completed := match Partial.completed props with
                      | Some b => b
                      | None => false
                      end;
         priority := match Partial.priority props with
                     | Some p => p
                     | None => MEDIUM
                     end;
         dueDate := Partial.dueDate props;
         tags := match Partial.tags props with Some l => l | None => [] end;
         createdAt := createdAt;
         updatedAt := updatedAt;
         completedAt := Partial.completedAt props |}.

(** [static create(dto)]: the object literal is evaluated first, with its
    two [new Date()], then the constructor draws the identifier. *)
Definition create (dto : CreateTodoDto.t) : M t :=
  created <- new_Date ;;
  updated <- new_Date ;;
  new {| Partial.id := None;
         Partial.title := Some (CreateTodoDto.title dto);
         Partial.description := CreateTodoDto.description dto;
         Partial.completed := Some false;
         Partial.priority :=
           Some (match CreateTodoDto.priority dto with
                 | Some p => p
                 | None => MEDIUM
                 end);
         Partial.dueDate := CreateTodoDto.dueDate dto;
         Partial.tags :=
           Some (match CreateTodoDto.tags dto with
                 | Some l => l
                 | None => []
                 end);
         Partial.createdAt := Some created;
         Partial.updatedAt := Some updated;
         Partial.completedAt := None |}.

Definition optional_date (x : option SqlText) : M (option Date) :=
  match x with
  | Some s => d <- Date_parse s ;; ret (Some d)
  | None => ret None
  end.

(** [static fromDatabase(raw)]. *)
Definition fromDatabase (raw : Row.t) : M t :=
  due <- optional_date (Row.due_date raw) ;;
  created <- Date_parse (Row.created_at raw) ;;
  updated <- Date_parse (Row.updated_at raw) ;;
  done <- optional_date (Row.completed_at raw) ;;
  new {| Partial.id := Some (Row.id raw);
         Partial.title := Some (Row.title raw);
         Partial.description :=
           match Row.description raw with
           | Some d => if JsString.truthy d then Some d else None
           | None => None
           end;
         Partial.completed := Some (negb (Row.completed raw =? 0));
         Partial.priority := Some (Row.priority raw);
         Partial.dueDate := due;
         Partial.tags := Some (Row.tags raw);
         Partial.createdAt := Some created;
         Partial.updatedAt := Some updated;
         Partial.completedAt := done |}.

Definition optional_text (d : option Date) : Result (option SqlText) :=
  match d with
  | Some d =>
      match toISOString d with
      | Ok s => Ok (Some s)
      | Throw e => Throw e
      end
  | None => Ok None
  end.

(** [toDatabase()]. *)
Definition toDatabase (this : t) : Result Row.t :=
  match optional_text (dueDate this),
        toISOString (createdAt this),
        toISOString (updatedAt this),
        optional_text (completedAt this) with
  | Ok due, Ok created, Ok updated, Ok done =>
      Ok {| Row.id := id this;
            Row.title := title this;
            Row.description :=
              match description this with
              | Some d => if JsString.truthy d then Some d else None
              | None => None
              end;
            Row.completed := if completed this then 1 else 0;
            Row.priority := priority this;
            Row.due_date := due;
            Row.tags := tags this;
            Row.created_at := created;
            Row.updated_at := updated;
            Row.completed_at := done |}
  | _, _, _, _ => Throw RangeError
  end.

(** [toJSON()]. *)
Definition toJSON (this : t) : ITodo.t :=
  {| id := id this;
     title := title this;
     description := description this;
     completed := completed this;
     priority := priority this;
     dueDate := dueDate this;
     tags := tags this;
     createdAt := createdAt this;
     updatedAt := updatedAt this;
     completedAt := completedAt this |}.

Definition set_completion (this : t) (c : bool) (at_ : option Date)
    (upd : Date) : t :=
  {| id := id this;
     title := title this;
     description := description this;
     completed := c;
     priority := priority this;
     dueDate := dueDate this;
     tags := tags this;
     createdAt := createdAt this;
     updatedAt := upd;
     completedAt := at_ |}.

(** [toggle()]. *)
Definition toggle (this : t) : M t :=
  if negb (completed this) then
    stamp <- new_Date ;;
    upd <- new_Date ;;
    ret (set_completion this true (Some stamp) upd)
  else
    upd <- new_Date ;;
    ret (set_completion this false None upd).

(** [complete()]. *)
Definition complete (this : t) : M t :=
  if completed this then ret this
  else
    stamp <- new_Date ;;
    upd <- new_Date ;;
    ret (set_completion this true (Some stamp) upd).

(** [uncomplete()]. *)
Definition uncomplete (this : t) : M t :=
  if negb (completed this) then ret this
  else
    upd <- new_Date ;;
    ret (set_completion this false None upd).

(** [isOverdue()]: a comparison with Invalid Date is false. *)
Definition isOverdue (this : t) : M bool :=
  match dueDate this with
  | None => ret false
  | Some due =>
      if completed this then ret false
      else
        now <- new_Date ;;
        ret (match due, now with
             | MkDate a, MkDate b => a <? b
             | _, _ => false
             end)
  end.

Definition or_else {A} (x : option A) (d : A) : A :=
  match x with Some a => a | None => d end.

(** [update(updates)]. *)
Definition update (updates : Partial.t) (this : t) : M t :=
  let this1 :=
    {| id := id this;
       title := or_else (Partial.title updates) (title this);
       description :=
         match Partial.description updates with
         | Some d => Some d
         | None => description this
         end;
       completed := completed this;
       priority := or_else (Partial.priority updates) (priority this);
       dueDate :=
         match Partial.dueDate updates with
         | Some d => Some d
         | None => dueDate this
         end;
       tags := or_else (Partial.tags updates) (tags this);
       createdAt := createdAt this;
       updatedAt := updatedAt this;
       completedAt := completedAt this |} in
  this2 <- match Partial.completed updates with
           | Some c =>
               if negb (Bool.eqb c (completed this1)) then
                 if c then complete this1 else uncomplete this1
               else ret this1
           | None => ret this1
           end ;;
  upd <- new_Date ;;
  ret (set_completion this2 (completed this2) (completedAt this2) upd).

(** The tag methods compare [t.toLowerCase() === tag.toLowerCase()];
    [String.prototype.toLowerCase] belongs to the engine and is a parameter
    here. *)
Section Tags.

Variable toLowerCase : jsstring -> jsstring.

Definition same_tag (a b : jsstring) : bool :=
  JsString.eqb (toLowerCase a) (toLowerCase b).

(** [hasTag(tag)]. *)
Definition hasTag (tag : jsstring) (this : t) : bool :=
  existsb (fun t0 => same_tag t0 tag) (tags this).

Definition set_tags (this : t) (l : list jsstring) (upd : Date) : t :=
  {| id := id this;
     title := title this;
     description := description this;
     completed := completed this;
     priority := priority this;
     dueDate := dueDate this;
     tags := l;
     createdAt := createdAt this;
     updatedAt := upd;
     completedAt := completedAt this |}.

(** [addTag(tag)]: the flag returned and the todo after the call. *)
Definition addTag (tag : jsstring) (this : t) : M (bool * t) :=
  if hasTag tag this then ret (false, this)
  else if 10 <=? Z.of_nat (List.length (tags this)) then ret (false, this)
  else
    upd <- new_Date ;;
    ret (true, set_tags this (tags this ++ [tag]) upd).

(** [findIndex] then [splice(index, 1)]: the list without its first element
    that matches, if one does. *)
Fixpoint remove_first (tag : jsstring) (l : list jsstring)
    : option (list jsstring) :=
  match l with
  | [] => None
  | t0 :: l' =>
      if same_tag t0 tag then Some l'
      else
        match remove_first tag l' with
        | Some r => Some (t0 :: r)
        | None => None
        end
  end.

(** [removeTag(tag)]. *)
Definition removeTag (tag : jsstring) (this : t) : M (bool * t) :=
  match remove_first tag (tags this) with
  | None => ret (false, this)
  | Some l =>
      upd <- new_Date ;;
      ret (true, set_tags this l upd)
  end.

End Tags.

End Todo.

(* ================================================================= *)
(** ** SQLite: the operators and clauses the repository's statements use *)

Module Sql.

Definition percent : N := 37.
Definition underscore : N := 95.

(** LIKE folds the case of the 26 ASCII letters only. *)
Definition lower (c : N) : N :=
  if ((65 <=? c) && (c <=? 90))%N then (c + 32)%N else c.

(** [patternCompare] of SQLite, without ESCAPE: [%] stands for any run of
    characters, [_] for any one character. *)
Fixpoint patternCompare (pattern : jsstring) : jsstring -> bool :=
  match pattern with
  | [] => fun text => match text with [] => true | _ => false end
  | c :: rest =>
      if (c =? percent)%N then
        fix any (text : jsstring) : bool :=
          patternCompare rest text
          || match text with
             | [] => false
             | _ :: text' => any text'
             end
      else
        fun text =>
          match text with
          | [] => false
          | d :: text' =>
              ((c =? underscore)%N || (lower c =? lower d)%N)
              && patternCompare rest text'
          end
  end.

(** A text as the C functions of SQLite read it: up to its first NUL. *)
Fixpoint c_string (s : jsstring) : jsstring :=
  match s with
  | [] => []
  | c :: s' => if (c =? 0)%N then [] else c :: c_string s'
  end.

(** [text LIKE pattern]: the pattern and the text are read as C strings. *)
Definition like (pattern text : jsstring) : bool :=
  patternCompare (c_string pattern) (c_string text).

(** The bytes of a text in UTF-8, the encoding in which it is bound: one to
    three for a unit, four for a surrogate pair, three for a lone surrogate
    (bound as U+FFFD). *)
Fixpoint utf8_length (s : jsstring) : Z :=
  match s with
  | [] => 0
  | c :: s' =>
      if (c <? 128)%N then 1 + utf8_length s'
      else if (c <? 2048)%N then 2 + utf8_length s'
      else if ((55296 <=? c) && (c <=? 56319))%N then
        match s' with
        | d :: s'' =>
            if ((56320 <=? d) && (d <=? 57343))%N then 4 + utf8_length s''
            else 3 + utf8_length s'
        | [] => 3
        end
      else 3 + utf8_length s'
  end.

(** The limits of a statement that the repository can reach. *)
Definition SQLITE_MAX_LIKE_PATTERN_LENGTH : Z := 50000.
Definition SQLITE_MAX_VARIABLE_NUMBER : Z := 32766.
Definition SQLITE_MAX_EXPR_DEPTH : Z := 1000.

(** The LIKE function refuses a pattern of more than 50000 bytes each time
    it is called, before it looks at the text. *)
Definition like_or_error (pattern text : jsstring) : Result bool :=
  if SQLITE_MAX_LIKE_PATTERN_LENGTH <? utf8_length pattern then
    Throw (SqliteError LIKE_PATTERN_TOO_COMPLEX)
  else Ok (like pattern text).

(** Preparing a statement with [variables] parameters whose deepest
    expression has [depth] levels. *)
Definition prepare (variables depth : Z) : Result unit :=
  if SQLITE_MAX_EXPR_DEPTH <? depth then Throw (SqliteError EXPRESSION_TOO_DEEP)
  else if SQLITE_MAX_VARIABLE_NUMBER <? variables then
    Throw (SqliteError TOO_MANY_VARIABLES)
  else Ok tt.

(** [SELECT ... WHERE clause]: the rows on which the clause is true; an
    error raised on a row ends the statement. *)
Fixpoint select (clause : Row.t -> Result bool) (table : list Row.t)
    : Result (list Row.t) :=
  match table with
  | [] => Ok []
  | r :: rest =>
      match clause r with
      | Throw e => Throw e
      | Ok keep =>
          match select clause rest with
          | Throw e => Throw e
          | Ok rows => Ok (if keep then r :: rows else rows)
          end
      end
  end.

(** [length(X)] on a text: the characters before the first NUL. *)
Fixpoint length (s : jsstring) : Z :=
  match s with
  | [] => 0
  | c :: s' => if (c =? 0)%N then 0 else 1 + length s'
  end.

(** The rows that [LIMIT l OFFSET o] lets through, for two integers: a
    negative offset is no offset, a negative limit is no limit. *)
Definition window {A} (l o : Z) (rows : list A) : list A :=
  let rest := skipn (Z.to_nat o) rows in
  if l <? 0 then rest else firstn (Z.to_nat l) rest.

(** A number is bound as a 32-bit integer or as a REAL; LIMIT and OFFSET
    take a REAL only when it holds an integer strictly between the least and
    the greatest 64-bit integer. *)
Definition is_int64 (x : Z) : bool := (- 2 ^ 63 <? x) && (x <? 2 ^ 63).

(** [LIMIT ? OFFSET ?] with the numbers [l] and [o] bound: SQLITE_MISMATCH
    unless both are 64-bit integers. *)
Definition limit_offset {A} (l o : Z) (rows : list A) : Result (list A) :=
  if is_int64 l && is_int64 o then Ok (window l o rows)
  else Throw (SqliteError MISMATCH).

(** ORDER BY: the rows sorted by [le]; where [le] ties two rows, [ties]
    tells which one the scan yields first. *)
Fixpoint insert_by {A} (le : A -> A -> bool) (x : A) (l : list A) : list A :=
  match l with
  | [] => [x]
  | y :: l' => if le x y then x :: l else y :: insert_by le x l'
  end.

Definition then_by {A} (le ties : A -> A -> bool) (a b : A) : bool :=
  if le a b && le b a then ties a b else le a b.

Definition order_by {A} (le ties : A -> A -> bool) (rows : list A) : list A :=
  fold_right (insert_by (then_by le ties)) [] rows.

(** A value an ORDER BY expression can take here: NULL sorts before any
    integer, an integer before any text.  A column holds titles or
    timestamps, never both, so the two kinds of text are not compared with
    each other. *)
Inductive value :=
  | Null
  | Integer (z : Z)
  | Text (s : jsstring)
  | Timestamp (x : SqlText).

Fixpoint text_compare (a b : jsstring) : comparison :=
  match a, b with
  | [], [] => Eq
  | [], _ :: _ => Lt
  | _ :: _, [] => Gt
  | x :: a', y :: b' =>
      match (x ?= y)%N with
      | Eq => text_compare a' b'
      | c => c
      end
  end.

(** Timestamp texts of four-digit years compare as their days, then the
    separator (a space before a [T]), then the time of day. *)
Definition timestamp_key (x : SqlText) : Z * Z * Z :=
  match x with
  | IsoText ms => (ms / 86400000, 1, ms mod 86400000)
  | DatetimeText s => (s / 86400, 0, (s mod 86400) * 1000)
  end.

Definition timestamp_compare (a b : SqlText) : comparison :=
  let '(d1, s1, t1) := timestamp_key a in
  let '(d2, s2, t2) := timestamp_key b in
  match d1 ?= d2 with
  | Eq => match s1 ?= s2 with Eq => t1 ?= t2 | c => c end
  | c => c
  end.

Definition compare (a b : value) : comparison :=
  match a, b with
  | Null, Null => Eq
  | Null, _ => Lt
  | _, Null => Gt
  | Integer x, Integer y => x ?= y
  | Integer _, _ => Lt
  | _, Integer _ => Gt
  | Text x, Text y => text_compare x y
  | Timestamp x, Timestamp y => timestamp_compare x y
  | Text _, Timestamp _ => Eq
  | Timestamp _, Text _ => Eq
  end.

Definition leb (a b : value) : bool :=
  match compare a b with Gt => false | _ => true end.

(** The CHECK clauses of the table, column by column. *)
Definition check_title (r : Row.t) : bool :=
  (3 <=? length (Row.title r)) && (length (Row.title r) <=? 100).

Definition check_description (r : Row.t) : bool :=
  match Row.description r with
  | None => true
  | Some d => length d <=? 500
  end.

Definition check_completed (r : Row.t) : bool :=
  (Row.completed r =? 0) || (Row.completed r =? 1).

(** [x IS NULL OR x IS datetime(x)]. *)
Definition check_datetime (x : option SqlText) : bool :=
  match x with
  | None => true
  | Some s => SqlText_eqb s (datetime s)
  end.

Definition check_constraints (r : Row.t) : bool :=
  check_title r && check_description r && check_completed r
  && check_datetime (Row.due_date r)
  && check_datetime (Row.completed_at r).

(** [INSERT INTO todos (...) VALUES (...)]: every column is supplied; the
    CHECK clauses must hold, then the primary key must be new. *)
Definition insert (r : Row.t) (table : list Row.t) : Result (list Row.t) :=
  if negb (check_constraints r) then Throw (SqliteError CHECK)
  else if existsb (fun r' => JsString.eqb (Row.id r') (Row.id r)) table then
    Throw (SqliteError PRIMARYKEY)
  else Ok (table ++ [r]).

End Sql.

(** [JSON.stringify] of an array of strings (QuoteJSONString): the quote, the
    backslash and the control characters are escaped, a lone surrogate is
    written [\uXXXX]. *)
Module JSON.

Definition hex_digit (n : N) : N :=
  if (n <? 10)%N then (48 + n)%N else (87 + n)%N.

Definition unicode_escape (c : N) : jsstring :=
  [92; 117;
   hex_digit (c / 4096); hex_digit ((c / 256) mod 16);
   hex_digit ((c / 16) mod 16); hex_digit (c mod 16)]%N.

Definition is_high_surrogate (c : N) : bool := ((55296 <=? c) && (c <=? 56319))%N.
Definition is_low_surrogate (c : N) : bool := ((56320 <=? c) && (c <=? 57343))%N.

Fixpoint quote_units (s : jsstring) : jsstring :=
  match s with
  | [] => []
  | c :: s' =>
      if (c =? 8)%N then [92; 98]%N ++ quote_units s'
      else if (c =? 9)%N then [92; 116]%N ++ quote_units s'
      else if (c =? 10)%N then [92; 110]%N ++ quote_units s'
      else if (c =? 12)%N then [92; 102]%N ++ quote_units s'
      else if (c =? 13)%N then [92; 114]%N ++ quote_units s'
      else if (c =? 34)%N then [92; 34]%N ++ quote_units s'
      else if (c =? 92)%N then [92; 92]%N ++ quote_units s'
      else if (c <? 32)%N then unicode_escape c ++ quote_units s'
      else if is_high_surrogate c then
        match s' with
        | d :: s'' =>
            if is_low_surrogate d then c :: d :: quote_units s''
            else unicode_escape c ++ quote_units s'
        | [] => unicode_escape c
        end
      else if is_low_surrogate c then unicode_escape c ++ quote_units s'
      else c :: quote_units s'
  end.

Definition quote (s : jsstring) : jsstring := [34%N] ++ quote_units s ++ [34%N].

Fixpoint join_comma (l : list jsstring) : jsstring :=
  match l with
  | [] => []
  | [s] => s
  | s :: l' => s ++ [44%N] ++ join_comma l'
  end.

Definition stringify (a : list jsstring) : jsstring :=
  [91%N] ++ join_comma (map quote a) ++ [93%N].

End JSON.

(** The integer a double holds in place of the integer [x]: [x] itself up to
    2^53 in magnitude; beyond, [x] rounded to 53 significant bits, a tie
    going to the even one. *)
Definition Number_of_Z (x : Z) : Z :=
  if Z.abs x <=? 2 ^ 53 then x
  else
    let e := Z.log2 (Z.abs x) - 52 in
    let q := Z.abs x / 2 ^ e in
    let r := Z.abs x mod 2 ^ e in
    let up := (2 ^ e <? 2 * r) || ((2 ^ e =? 2 * r) && Z.odd q) in
    Z.sgn x * ((if up then q + 1 else q) * 2 ^ e).

(** [a - b] and [a * b] on numbers that hold integers. *)
Definition Number_sub (a b : Z) : Z := Number_of_Z (a - b).
Definition Number_mul (a b : Z) : Z := Number_of_Z (a * b).

(** [Math.ceil(a / b)] for a count [a]: the quotient by zero is [NaN] or
    [Infinity]; otherwise the ceiling of the exact quotient (counts stay far
    below the integers a double separates). *)
Definition Math_ceil_div (a b : Z) : JsNumber :=
  if b =? 0 then (if a =? 0 then NaN else PosInfinity)
  else Num (- ((- a) / b)).

(** [n < x] for an integer [n]. *)
Definition number_lt (n : Z) (x : JsNumber) : bool :=
  match x with
  | Num z => n <? z
  | PosInfinity => true
  | NegInfinity => false
  | NaN => false
  end.

(** The double that holds a count. *)
Definition to_double (z : Z) : float := PrimFloat.of_uint63 (Uint63.of_Z z).

(** [Math.round]: the nearest integer, a tie going up.  A finite double is
    [m * 2^e]; the integer is the floor of [m * 2^e + 1/2], computed exactly. *)
Definition Math_round (x : float) : JsNumber :=
  match Prim2SF x with
  | S754_zero _ => Num 0
  | S754_finite s m e =>
      let n := if s then Z.neg m else Z.pos m in
      if 0 <=? e then Num (n * 2 ^ e)
      else Num ((2 * n + 2 ^ (- e)) / 2 ^ (- e + 1))
  | S754_infinity false => PosInfinity
  | S754_infinity true => NegInfinity
  | S754_nan => NaN
  end.

(* ================================================================= *)
(** ** The update and bulk-delete paths: their inputs and their errors *)

(** [interface UpdateTodoDto]; a field is present when it is [Some]. *)
Module UpdateTodoDto.
Record t := mk {
  title : option jsstring;
  description : option jsstring;
  completed : option bool;
  priority : option TodoPriority;
  dueDate : option Date;
  tags : option (list jsstring)
}.

Definition present {A} (field : option A) : Z :=
  match field with
  | Some _ => 1
  | None => 0
  end.

(** [Object.keys(dto).length]. *)
Definition keys (dto : t) : Z :=
  present (title dto) + present (description dto) + present (completed dto)
  + present (priority dto) + present (dueDate dto) + present (tags dto).

(** The DTO seen as a [Partial<Todo>]. *)
Definition to_partial (dto : t) : Partial.t :=
  {| Partial.id := None;
     Partial.title := title dto;
     Partial.description := description dto;
     Partial.completed := completed dto;
     Partial.priority := priority dto;
     Partial.dueDate := dueDate dto;
     Partial.tags := tags dto;
     Partial.createdAt := None;
     Partial.updatedAt := None;
     Partial.completedAt := None |}.
End UpdateTodoDto.

(** What [validateUpdateTodoDto] throws: two errors of its own on the title,
    the others worded as those of the creation. *)
Inductive UpdateValidationInfo :=
  | TitleEmpty
  | TitleHasInvalidCharacters
  | AsForCreation (info : ValidationInfo).

(** The errors thrown on the update and bulk-delete paths: those of the
    other operations and the ones only these paths throw. *)
Inductive Exception :=
  | Raised (e : Error)
  | UpdateValidationError (info : UpdateValidationInfo)
  | NoFieldToUpdate
  | FailedToUpdate
  | EmptyIds
  | TooManyIds (provided : Z)
  | InvalidId (index : nat) (id : jsstring).

Inductive Outcome (A : Type) :=
  | Done (a : A)
  | Fails (x : Exception).
Arguments Done {A} a.
Arguments Fails {A} x.

Definition Op (A : Type) : Type := World -> Outcome A * World.

Definition done {A} (a : A) : Op A := fun w => (Done a, w).

Definition fails {A} (x : Exception) : Op A := fun w => (Fails x, w).

Definition and_then {A B} (m : Op A) (k : A -> Op B) : Op B :=
  fun w =>
    match m w with
    | (Done a, w') => k a w'
    | (Fails x, w') => (Fails x, w')
    end.

(** An operation of the other paths, run on this one. *)
Definition run_M {A} (m : M A) : Op A :=
  fun w =>
    match m w with
    | (Ok a, w') => (Done a, w')
    | (Throw e, w') => (Fails (Raised e), w')
    end.

(* ================================================================= *)
(** ** repositories/TodoRepository.ts *)

Module TodoRepository.

Definition getDatabase : M (list Row.t) := fun w => (Ok (todos w), w).

(** [db.transaction(body)(...)]: the table changes only if [body] returns. *)
Definition transaction (body : list Row.t -> Result (list Row.t)) : M unit :=
  fun w =>
    match body (todos w) with
    | Ok table' =>
        (Ok tt, mkWorld table' (clock w) (uuids w) (timezone w) (scan w))
    | Throw e => (Throw e, w)
    end.

(** [stmt.run(...)]: a statement on its own commits or fails as a whole. *)
Definition run (statement : list Row.t -> Result (list Row.t)) : M unit :=
  transaction statement.

Definition status_clause (filter : TodoFilter) (r : Row.t) : bool :=
  match filter with
  | ACTIVE => Row.completed r =? 0
  | COMPLETED => Row.completed r =? 1
  | ALL => true
  end.

Definition priority_clause (priority : option TodoPriority) (r : Row.t) : bool :=
  match priority with
  | Some p => TodoPriority_eqb (Row.priority r) p
  | None => true
  end.

(** [`%${search.trim()}%`]. *)
Definition searchPattern (search : jsstring) : jsstring :=
  [Sql.percent] ++ JsString.trim search ++ [Sql.percent].

(** [title LIKE ? OR description LIKE ?]; a NULL description matches nothing. *)
Definition search_clause (search : option jsstring) (r : Row.t) : bool :=
  match search with
  | Some s =>
      if JsString.truthy s && (0 <? JsString.length (JsString.trim s)) then
        Sql.like (searchPattern s) (Row.title r)
        || match Row.description r with
           | Some d => Sql.like (searchPattern s) d
           | None => false
           end
      else true
  | None => true
  end.

(** [`%"${tag}"%`]. *)
Definition tagPattern (tag : jsstring) : jsstring :=
  [Sql.percent; 34%N] ++ tag ++ [34%N; Sql.percent].

(** [json_array_length(tags) > 0 AND tags LIKE ?], joined with OR. *)
Definition tags_clause (tags : option (list jsstring)) (r : Row.t) : bool :=
  match tags with
  | Some ((_ :: _) as l) =>
      existsb (fun tag =>
                 (0 <? Z.of_nat (List.length (Row.tags r)))
                 && Sql.like (tagPattern tag) (JSON.stringify (Row.tags r))) l
  | _ => true
  end.

Definition filter_of (params : TodoQueryParams.t) : TodoFilter :=
  match TodoQueryParams.filter params with Some f => f | None => ALL end.

Definition sortBy_of (params : TodoQueryParams.t) : TodoSortField :=
  match TodoQueryParams.sortBy params with Some f => f | None => CREATED_AT end.

Definition sortOrder_of (params : TodoQueryParams.t) : SortOrder :=
  match TodoQueryParams.sortOrder params with Some o => o | None => DESC end.

Definition page_of (params : TodoQueryParams.t) : Z :=
  match TodoQueryParams.page params with Some p => p | None => 1 end.

Definition limit_of (params : TodoQueryParams.t) : Z :=
  match TodoQueryParams.limit params with Some l => l | None => 50 end.

(** The WHERE clause [findAll] builds, where no LIKE pattern is refused. *)
Definition where_clause (params : TodoQueryParams.t) (r : Row.t) : bool :=
  status_clause (filter_of params) r
  && priority_clause (TodoQueryParams.priority params) r
  && search_clause (TodoQueryParams.search params) r
  && tags_clause (TodoQueryParams.tags params) r.

(** The clauses as SQLite runs them on a row: the terms of the WHERE are
    tested in the order of the text, a false term ends the test of the row
    and a true one the test of an OR; each call of LIKE may refuse its
    pattern. *)
Definition search_or_error (search : option jsstring) (r : Row.t)
    : Result bool :=
  match search with
  | Some s =>
      if JsString.truthy s && (0 <? JsString.length (JsString.trim s)) then
        match Sql.like_or_error (searchPattern s) (Row.title r) with
        | Throw e => Throw e
        | Ok true => Ok true
        | Ok false =>
            match Row.description r with
            | Some d => Sql.like_or_error (searchPattern s) d
            | None => Ok false
            end
        end
      else Ok true
  | None => Ok true
  end.

Fixpoint tags_or_error (tags : list jsstring) (r : Row.t) : Result bool :=
  match tags with
  | [] => Ok false
  | tag :: rest =>
      if 0 <? Z.of_nat (List.length (Row.tags r)) then
        match Sql.like_or_error (tagPattern tag)
                (JSON.stringify (Row.tags r)) with
        | Throw e => Throw e
        | Ok true => Ok true
        | Ok false => tags_or_error rest r
        end
      else tags_or_error rest r
  end.

Definition where_or_error (params : TodoQueryParams.t) (r : Row.t)
    : Result bool :=
  if negb (status_clause (filter_of params) r) then Ok false
  else if negb (priority_clause (TodoQueryParams.priority params) r) then
    Ok false
  else
    match search_or_error (TodoQueryParams.search params) r with
    | Throw e => Throw e
    | Ok false => Ok false
    | Ok true =>
        match TodoQueryParams.tags params with
        | Some ((_ :: _) as l) => tags_or_error l r
        | _ => Ok true
        end
    end.

(** The parameters of the WHERE clause and the depth of its expression:
    [1=1], then one AND for each filter given; the [n] conditions on the
    tags, each of depth 4, are chained by [n - 1] ORs. *)
Definition where_variables (params : TodoQueryParams.t) : Z :=
  (match TodoQueryParams.priority params with Some _ => 1 | None => 0 end)
  + (match TodoQueryParams.search params with
     | Some s =>
         if JsString.truthy s && (0 <? JsString.length (JsString.trim s))
         then 2 else 0
     | None => 0
     end)
  + (match TodoQueryParams.tags params with
     | Some l => Z.of_nat (List.length l)
     | None => 0
     end).

Definition where_depth (params : TodoQueryParams.t) : Z :=
  let d0 := 2 in
  let d1 := match filter_of params with ALL => d0 | _ => Z.max d0 2 + 1 end in
  let d2 := match TodoQueryParams.priority params with
            | Some _ => Z.max d1 2 + 1
            | None => d1
            end in
  let d3 := match TodoQueryParams.search params with
            | Some s =>
                if JsString.truthy s
                   && (0 <? JsString.length (JsString.trim s))
                then Z.max d2 3 + 1 else d2
            | None => d2
            end in
  match TodoQueryParams.tags params with
  | Some ((_ :: _) as l) => Z.max d3 (Z.of_nat (List.length l) + 3) + 1
  | _ => d3
  end.

(** What decides the text of the SELECT and the values bound in its WHERE:
    every parameter but the page and the limit. *)
Definition statement (params : TodoQueryParams.t) : TodoQueryParams.t :=
  TodoQueryParams.mk (TodoQueryParams.filter params)
    (TodoQueryParams.sortBy params) (TodoQueryParams.sortOrder params)
    None None (TodoQueryParams.search params)
    (TodoQueryParams.priority params) (TodoQueryParams.tags params).

(** The order of the scan for a statement. *)
Definition getScan (q : TodoQueryParams.t) : M (Row.t -> Row.t -> bool) :=
  fun w => (Ok (scan w q), w).

(** [CASE priority WHEN 'high' THEN 1 WHEN 'medium' THEN 2 WHEN 'low' THEN 3 END]. *)
Definition priority_rank (p : TodoPriority) : Z :=
  match p with
  | HIGH => 1
  | MEDIUM => 2
  | LOW => 3
  end.

(** The ORDER BY expression. *)
Definition sort_key (sortBy : TodoSortField) (r : Row.t) : Sql.value :=
  match sortBy with
  | PRIORITY => Sql.Integer (priority_rank (Row.priority r))
  | CREATED_AT => Sql.Timestamp (Row.created_at r)
  | UPDATED_AT => Sql.Timestamp (Row.updated_at r)
  | TITLE => Sql.Text (Row.title r)
  | DUE_DATE =>
      match Row.due_date r with
      | Some x => Sql.Timestamp x
      | None => Sql.Null
      end
  end.

Definition sort_le (sortBy : TodoSortField) (sortOrder : SortOrder)
    (a b : Row.t) : bool :=
  match sortOrder with
  | ASC => Sql.leb (sort_key sortBy a) (sort_key sortBy b)
  | DESC => Sql.leb (sort_key sortBy b) (sort_key sortBy a)
  end.

(** The rows the count query counts. *)
Definition matching_rows (params : TodoQueryParams.t) (table : list Row.t)
    : list Row.t :=
  List.filter (where_clause params) table.

(** [(page - 1) * limit]. *)
Definition offset_of (params : TodoQueryParams.t) : Z :=
  Number_mul (Number_sub (page_of params) 1) (limit_of params).

(** The rows the paginated query returns when SQLite refuses nothing, the
    scan yielding tied rows as [ties] tells for each statement. *)
Definition page_rows (ties : TodoQueryParams.t -> Row.t -> Row.t -> bool)
    (params : TodoQueryParams.t) (table : list Row.t) : list Row.t :=
  Sql.window (limit_of params) (offset_of params)
    (Sql.order_by (sort_le (sortBy_of params) (sortOrder_of params))
       (ties (statement params)) (matching_rows params table)).

Definition row_to_json (row : Row.t) : M ITodo.t :=
  todo <- Todo.fromDatabase row ;; ret (Todo.toJSON todo).

(** [findAll(params)]: the count query, then the paginated one, which has
    the same WHERE clause, two parameters more and passes where the first
    does. *)
Definition findAll (params : TodoQueryParams.t) : M PaginatedResponse.t :=
  db <- getDatabase ;;
  let page := page_of params in
  let limit := limit_of params in
  lift (Sql.prepare (where_variables params) (where_depth params)) ;;;
  matching <- lift (Sql.select (where_or_error params) db) ;;
  let totalItems := Z.of_nat (List.length matching) in
  let offset := Number_mul (Number_sub page 1) limit in
  ties <- getScan (statement params) ;;
  rows <- lift (Sql.limit_offset limit offset
                  (Sql.order_by (sort_le (sortBy_of params) (sortOrder_of params))
                     ties matching)) ;;
  todos <- mapM row_to_json rows ;;
  let totalPages := Math_ceil_div totalItems limit in
  ret {| PaginatedResponse.data := todos;
         PaginatedResponse.meta :=
           {| PaginationMeta.currentPage := page;
              PaginationMeta.totalPages := totalPages;
              PaginationMeta.totalItems := totalItems;
              PaginationMeta.itemsPerPage := limit;
              PaginationMeta.hasNextPage := number_lt page totalPages;
              PaginationMeta.hasPreviousPage := 1 <? page |} |}.

(** [findById(id)]. *)
Definition findById (id : jsstring) : M (option ITodo.t) :=
  db <- getDatabase ;;
  match List.find (fun r => JsString.eqb (Row.id r) id) db with
  | None => ret None
  | Some row => todo <- row_to_json row ;; ret (Some todo)
  end.

(** [create(todo)]. *)
Definition create (todo : Todo.t) : M ITodo.t :=
  dbData <- lift (Todo.toDatabase todo) ;;
  run (Sql.insert dbData) ;;;
  ret (Todo.toJSON todo).

(** [count(filter)]. *)
Definition count (filter : TodoFilter) : M Z :=
  db <- getDatabase ;;
  ret (Z.of_nat (List.length (List.filter (status_clause filter) db))).

(** [datetime('now')]. *)
Definition datetime_now : M SqlText :=
  ms <- Date_now ;; ret (DatetimeText (ms / 1000)).

Definition overdue_clause (now : SqlText) (r : Row.t) : bool :=
  (Row.completed r =? 0)
  && match Row.due_date r with
     | Some d =>
         match Sql.timestamp_compare (datetime d) now with
         | Lt => true
         | _ => false
         end
     | None => false
     end.

Definition count_priority (p : TodoPriority) (db : list Row.t) : Z :=
  Z.of_nat (List.length
              (List.filter (fun r => TodoPriority_eqb (Row.priority r) p) db)).

(** [total > 0 ? Math.round((completed / total) * 100) : 0]. *)
Definition completionRate (completed total : Z) : JsNumber :=
  if 0 <? total then
    Math_round
      (PrimFloat.mul (PrimFloat.div (to_double completed) (to_double total))
         (to_double 100))
  else Num 0.

(** [getStats()]. *)
Definition getStats : M TodoStats.t :=
  total <- count ALL ;;
  completed <- count COMPLETED ;;
  active <- count ACTIVE ;;
  now <- datetime_now ;;
  db <- getDatabase ;;
  let overdue := Z.of_nat (List.length (List.filter (overdue_clause now) db)) in
  ret {| TodoStats.total := total;
         TodoStats.completed := completed;
         TodoStats.active := active;
         TodoStats.overdue := overdue;
         TodoStats.byPriority_low := count_priority LOW db;
         TodoStats.byPriority_medium := count_priority MEDIUM db;
         TodoStats.byPriority_high := count_priority HIGH db;
         TodoStats.completionRate := completionRate completed total |}.

(** The body of the transaction of [bulkCreate]: one INSERT per todo. *)
Fixpoint insertMany (todosToInsert : list Todo.t) (table : list Row.t)
    : Result (list Row.t) :=
  match todosToInsert with
  | [] => Ok table
  | todo :: rest =>
      match Todo.toDatabase todo with
      | Throw e => Throw e
      | Ok row =>
          match Sql.insert row table with
          | Throw e => Throw e
          | Ok table' => insertMany rest table'
          end
      end
  end.

(** [bulkCreate(todos)]. *)
Definition bulkCreate (todos : list Todo.t) : M (list ITodo.t) :=
  transaction (insertMany todos) ;;;
  ret (map Todo.toJSON todos).

(** The rows a statement changed: [result.changes]. *)
Definition changes (before after : list Row.t) : Z :=
  Z.of_nat (List.length before) - Z.of_nat (List.length after).

Definition has_id (id : jsstring) (r : Row.t) : bool :=
  JsString.eqb (Row.id r) id.

Definition id_in (ids : list jsstring) (r : Row.t) : bool :=
  existsb (fun id => JsString.eqb (Row.id r) id) ids.

(** [DELETE FROM todos WHERE ...], the number of rows deleted. *)
Definition delete_where (hit : Row.t -> bool) : M Z :=
  fun w =>
    let kept := List.filter (fun r => negb (hit r)) (todos w) in
    (Ok (changes (todos w) kept),
     mkWorld kept (clock w) (uuids w) (timezone w) (scan w)).

(** [delete(id)]. *)
Definition delete (id : jsstring) : M bool :=
  n <- delete_where (has_id id) ;; ret (0 <? n).

(** [bulkDelete(ids)]: one parameter for each identifier. *)
Definition bulkDelete (ids : list jsstring) : M Z :=
  match ids with
  | [] => ret 0
  | _ :: _ =>
      lift (Sql.prepare (Z.of_nat (List.length ids)) 2) ;;;
      delete_where (id_in ids)
  end.

(** [deleteCompleted()]. *)
Definition deleteCompleted : M Z :=
  delete_where (fun r => Row.completed r =? 1).

(** [exists(id)]. *)
Definition exists_ (id : jsstring) : M bool :=
  db <- getDatabase ;;
  ret (0 <? Z.of_nat (List.length (List.filter (has_id id) db))).

(** The trigger [update_todos_updated_at], on an updated row. *)
Definition touch (now : SqlText) (r : Row.t) : Row.t :=
  {| Row.id := Row.id r;
     Row.title := Row.title r;
     Row.description := Row.description r;
     Row.completed := Row.completed r;
     Row.priority := Row.priority r;
     Row.due_date := Row.due_date r;
     Row.tags := Row.tags r;
     Row.created_at := Row.created_at r;
     Row.updated_at := now;
     Row.completed_at := Row.completed_at r |}.

(** [UPDATE todos SET ... WHERE ...], the number of rows updated.  [set now]
    gives a row its new columns, [now] being [datetime('now')], the same for
    the whole statement; [check] holds the CHECK clauses of the columns set;
    the trigger then stamps [updated_at] on each updated row.  A CHECK that
    fails aborts the statement. *)
Definition update_where (hit : Row.t -> bool)
    (set : SqlText -> Row.t -> Row.t) (check : Row.t -> bool) : M Z :=
  fun w =>
    if existsb hit (todos w) then
      let now := DatetimeText (clock w 0 / 1000) in
      if forallb (fun r => negb (hit r) || check (set now r)) (todos w) then
        (Ok (Z.of_nat (List.length (List.filter hit (todos w)))),
         mkWorld
           (map (fun r => if hit r then touch now (set now r) else r) (todos w))
           (fun n => clock w (S n)) (uuids w) (timezone w) (scan w))
      else (Throw (SqliteError CHECK), w)
    else (Ok 0, w).

Definition set_completion (completed : Z) (completed_at : option SqlText)
    (updated_at : SqlText) (r : Row.t) : Row.t :=
  {| Row.id := Row.id r;
     Row.title := Row.title r;
     Row.description := Row.description r;
     Row.completed := completed;
     Row.priority := Row.priority r;
     Row.due_date := Row.due_date r;
     Row.tags := Row.tags r;
     Row.created_at := Row.created_at r;
     Row.updated_at := updated_at;
     Row.completed_at := completed_at |}.

Definition check_completion (r : Row.t) : bool :=
  Sql.check_completed r && Sql.check_datetime (Row.completed_at r).

(** [bulkComplete(ids)]: one parameter for each identifier. *)
Definition bulkComplete (ids : list jsstring) : M Z :=
  match ids with
  | [] => ret 0
  | _ :: _ =>
      lift (Sql.prepare (Z.of_nat (List.length ids)) 3) ;;;
      update_where (fun r => id_in ids r && (Row.completed r =? 0))
        (fun now => set_completion 1 (Some now) now) check_completion
  end.

(** [bulkUncomplete(ids)]: one parameter for each identifier. *)
Definition bulkUncomplete (ids : list jsstring) : M Z :=
  match ids with
  | [] => ret 0
  | _ :: _ =>
      lift (Sql.prepare (Z.of_nat (List.length ids)) 3) ;;;
      update_where (fun r => id_in ids r && (Row.completed r =? 1))
        (fun now => set_completion 0 None now) check_completion
  end.

(** The columns the UPDATE of [update] sets, taken from [dbData]. *)
Definition set_columns (dbData r : Row.t) : Row.t :=
  {| Row.id := Row.id r;
     Row.title := Row.title dbData;
     Row.description := Row.description dbData;
     Row.completed := Row.completed dbData;
     Row.priority := Row.priority dbData;
     Row.due_date := Row.due_date dbData;
     Row.tags := Row.tags dbData;
     Row.created_at := Row.created_at r;
     Row.updated_at := Row.updated_at dbData;
     Row.completed_at := Row.completed_at dbData |}.

(** [update(id, updates)]: the row is read twice (by [findById], then again),
    the model applies the updates, the UPDATE writes the row back. *)
Definition update (id : jsstring) (updates : Partial.t) : Op (option ITodo.t) :=
  and_then (run_M getDatabase) (fun db =>
  match List.find (has_id id) db with
  | None => done None
  | Some row =>
      and_then (run_M (row_to_json row)) (fun _ =>
      and_then (run_M (Todo.fromDatabase row)) (fun todo =>
      and_then (run_M (Todo.update updates todo)) (fun todo' =>
      and_then (run_M (lift (Todo.toDatabase todo'))) (fun dbData =>
      and_then (run_M (update_where (has_id (Row.id dbData))
                         (fun _ => set_columns dbData)
                         Sql.check_constraints)) (fun n =>
      if n =? 0 then fails FailedToUpdate
      else done (Some (Todo.toJSON todo')))))))
  end).

End TodoRepository.

(* ================================================================= *)
(** ** services/TodoService.ts *)

Module TodoService.

(** [/^[a-zA-ZÀ-ÿ0-9 \-_'.,!?]+$/], one unit at a time. *)
Definition title_unit_ok (c : N) : bool :=
  ((97 <=? c) && (c <=? 122) || (65 <=? c) && (c <=? 90)
   || (192 <=? c) && (c <=? 255) || (48 <=? c) && (c <=? 57)
   || (c =? 32) || (c =? 45) || (c =? 95) || (c =? 39) || (c =? 46)
   || (c =? 44) || (c =? 33) || (c =? 63))%N.

Definition titleRegex_test (s : jsstring) : bool :=
  JsString.truthy s && forallb title_unit_ok s.

(** The index of the first blank tag, if any. *)
Fixpoint first_blank_tag (index : nat) (tags : list jsstring) : option nat :=
  match tags with
  | [] => None
  | tag :: rest =>
      if JsString.length (JsString.trim tag) =? 0 then Some index
      else first_blank_tag (S index) rest
  end.

(** The first check that fails decides the error thrown. *)
Definition or_check (a b : option ValidationInfo) : option ValidationInfo :=
  match a with
  | Some e => Some e
  | None => b
  end.

Definition validate_title (title : jsstring) : option ValidationInfo :=
  if negb (JsString.truthy title)
     || (JsString.length (JsString.trim title) =? 0) then Some TitleRequired
  else if JsString.length title <? 3 then
    Some (TitleTooShort (JsString.length title))
  else if 100 <? JsString.length title then
    Some (TitleTooLong (JsString.length title))
  else if negb (titleRegex_test title) then Some (TitleInvalidCharacters title)
  else None.

Definition validate_description (description : option jsstring)
    : option ValidationInfo :=
  match description with
  | Some d =>
      if 500 <? JsString.length d then
        Some (DescriptionTooLong (JsString.length d))
      else None
  | None => None
  end.

Definition validate_tags (tags : option (list jsstring)) : option ValidationInfo :=
  match tags with
  | Some l =>
      if 10 <? Z.of_nat (List.length l) then
        Some (TooManyTags (Z.of_nat (List.length l)))
      else
        match first_blank_tag 0 l with
        | Some index => Some (InvalidTag index)
        | None => None
        end
  | None => None
  end.

Definition validate_dueDate (dueDate : option Date) : option ValidationInfo :=
  match dueDate with
  | Some InvalidDate => Some InvalidDueDate
  | _ => None
  end.

(** [validateCreateTodoDto(dto)]: the ValidationError it throws, if any. *)
Definition validateCreateTodoDto (dto : CreateTodoDto.t) : option ValidationInfo :=
  or_check (validate_title (CreateTodoDto.title dto))
    (or_check (validate_description (CreateTodoDto.description dto))
       (or_check (validate_tags (CreateTodoDto.tags dto))
          (validate_dueDate (CreateTodoDto.dueDate dto)))).

Definition check (v : option ValidationInfo) : M unit :=
  match v with
  | Some info => throw (ValidationError info)
  | None => ret tt
  end.

(** [getAllTodos(params)]: [params.page && params.page < 1] and the two
    guards on [params.limit], then the repository. *)
Definition getAllTodos (params : TodoQueryParams.t) : M PaginatedResponse.t :=
  check (match TodoQueryParams.page params with
         | Some page =>
             if negb (page =? 0) && (page <? 1) then Some (PageTooSmall page)
             else None
         | None => None
         end) ;;;
  check (match TodoQueryParams.limit params with
         | Some limit =>
             if negb (limit =? 0) && (limit <? 1) then Some (LimitTooSmall limit)
             else None
         | None => None
         end) ;;;
  check (match TodoQueryParams.limit params with
         | Some limit =>
             if negb (limit =? 0) && (100 <? limit) then Some (LimitTooLarge limit)
             else None
         | None => None
         end) ;;;
  TodoRepository.findAll params.

(** [getTodoById(id)]. *)
Definition getTodoById (id : jsstring) : M ITodo.t :=
  if negb (JsString.truthy id) || (JsString.length (JsString.trim id) =? 0) then
    throw BadRequestError
  else
    todo <- TodoRepository.findById id ;;
    match todo with
    | None => throw (TodoNotFoundError id)
    | Some t => ret t
    end.

(** [createTodo(dto)]. *)
Definition createTodo (dto : CreateTodoDto.t) : M ITodo.t :=
  check (validateCreateTodoDto dto) ;;;
  todo <- Todo.create dto ;;
  TodoRepository.create todo.

(** [getStats()]. *)
Definition getStats : M TodoStats.t := TodoRepository.getStats.

(** The [forEach] of [bulkCreate]: the first element that fails throws, the
    error carrying its index. *)
Fixpoint validate_each (index : nat) (todos : list CreateTodoDto.t)
    : option ValidationInfo :=
  match todos with
  | [] => None
  | todoDto :: rest =>
      match validateCreateTodoDto todoDto with
      | Some error => Some (BulkItemInvalid index error)
      | None => validate_each (S index) rest
      end
  end.

(** [bulkCreate(dto)], on [dto.todos]. *)
Definition bulkCreate (todos : list CreateTodoDto.t) : M (list ITodo.t) :=
  if Z.of_nat (List.length todos) =? 0 then throw (ValidationError EmptyBulk)
  else if 100 <? Z.of_nat (List.length todos) then
    throw (ValidationError (BulkTooLarge (Z.of_nat (List.length todos))))
  else
    check (validate_each 0 todos) ;;;
    created <- mapM Todo.create todos ;;
    TodoRepository.bulkCreate created.

(** [validateUpdateTodoDto(dto)]: the error it throws, if any. *)
Definition validate_update_title (title : option jsstring)
    : option UpdateValidationInfo :=
  match title with
  | None => None
  | Some title =>
      if negb (JsString.truthy title)
         || (JsString.length (JsString.trim title) =? 0) then Some TitleEmpty
      else if JsString.length title <? 3 then
        Some (AsForCreation (TitleTooShort (JsString.length title)))
      else if 100 <? JsString.length title then
        Some (AsForCreation (TitleTooLong (JsString.length title)))
      else if negb (titleRegex_test title) then Some TitleHasInvalidCharacters
      else None
  end.

Definition as_for_creation (v : option ValidationInfo)
    : option UpdateValidationInfo :=
  match v with
  | Some info => Some (AsForCreation info)
  | None => None
  end.

Definition validateUpdateTodoDto (dto : UpdateTodoDto.t)
    : option UpdateValidationInfo :=
  match validate_update_title (UpdateTodoDto.title dto) with
  | Some e => Some e
  | None =>
      as_for_creation
        (or_check (validate_description (UpdateTodoDto.description dto))
           (or_check (validate_tags (UpdateTodoDto.tags dto))
              (validate_dueDate (UpdateTodoDto.dueDate dto))))
  end.

Definition blank (id : jsstring) : bool :=
  negb (JsString.truthy id) || (JsString.length (JsString.trim id) =? 0).

(** [updateTodo(id, dto)]. *)
Definition updateTodo (id : jsstring) (dto : UpdateTodoDto.t) : Op ITodo.t :=
  if blank id then fails (Raised BadRequestError)
  else if UpdateTodoDto.keys dto =? 0 then fails NoFieldToUpdate
  else
    match validateUpdateTodoDto dto with
    | Some info => fails (UpdateValidationError info)
    | None =>
        and_then (TodoRepository.update id (UpdateTodoDto.to_partial dto))
          (fun updated =>
             match updated with
             | None => fails (Raised (TodoNotFoundError id))
             | Some todo => done todo
             end)
    end.

(** [deleteTodo(id)]. *)
Definition deleteTodo (id : jsstring) : M unit :=
  if blank id then throw BadRequestError
  else
    deleted <- TodoRepository.delete id ;;
    if deleted then ret tt else throw (TodoNotFoundError id).

(** The [forEach] of [bulkDelete]: the first blank identifier, if any. *)
Fixpoint first_blank_id (index : nat) (ids : list jsstring)
    : option (nat * jsstring) :=
  match ids with
  | [] => None
  | id :: rest =>
      if blank id then Some (index, id) else first_blank_id (S index) rest
  end.

(** [bulkDelete(dto)], on [dto.ids]. *)
Definition bulkDelete (ids : list jsstring) : Op Z :=
  if Z.of_nat (List.length ids) =? 0 then fails EmptyIds
  else if 100 <? Z.of_nat (List.length ids) then
    fails (TooManyIds (Z.of_nat (List.length ids)))
  else
    match first_blank_id 0 ids with
    | Some (index, id) => fails (InvalidId index id)
    | None => run_M (TodoRepository.bulkDelete ids)
    end.

(** [deleteCompleted()]. *)
Definition deleteCompleted : M Z := TodoRepository.deleteCompleted.

End TodoService.

(** middlewares/validator.ts, [queryParamsSchema]: the checks piped after the
    parse of [page] and of [limit]. *)
Definition queryParamsSchema_page (page : Z) : bool := 1 <=? page.

Definition queryParamsSchema_limit (limit : Z) : bool :=
  (1 <=? limit) && (limit <=? 100).

(* ================================================================= *)
(** ** Vocabulary of the statements *)

(** [m] run in [w] returns (does not throw) a value that satisfies [P]. *)
Definition returns {A} (m : M A) (w : World) (P : A -> Prop) : Prop :=
  match fst (m w) with
  | Ok a => P a
  | Throw _ => False
  end.

(** The table after [m] has run in [w]. *)
Definition table_after {A} (m : M A) (w : World) : list Row.t :=
  todos (snd (m w)).

(** [completed] is true if and only if [completedAt] is set. *)
Definition completion_invariant (t : ITodo.t) : Prop :=
  ITodo.completed t = true <-> ITodo.completedAt t <> None.

(** A todo whose completion fields are those of a finished task. *)
Definition finished_todo : ITodo.t :=
  {| ITodo.id := js "a1";
     ITodo.title := js "Buy milk";
     ITodo.description := None;
     ITodo.completed := true;
     ITodo.priority := MEDIUM;
     ITodo.dueDate := None;
     ITodo.tags := [];
     ITodo.createdAt := MkDate 1000;
     ITodo.updatedAt := MkDate 2000;
     ITodo.completedAt := Some (MkDate 2000) |}.

(** Tied rows in the order of their rowids, whatever the statement, and in
    the reverse order. *)
Definition rowid_order (_ : TodoQueryParams.t) (_ _ : Row.t) : bool := true.

Definition reverse_rowid_order (_ : TodoQueryParams.t) (_ _ : Row.t) : bool :=
  false.

(** An empty table, a clock that advances by one millisecond at each
    reading, identifiers [id-0], [id-1], ..., local time UTC, tied rows in
    the order of their rowids. *)
Definition ticking_world : World :=
  mkWorld [] (fun n => 1700000000000 + Z.of_nat n)
    (fun n => js "id-" ++ [N.of_nat (48 + n)]) 0 rowid_order.

(** A batch with [n] copies of the two-letter title ["ab"]. *)
Definition short_titles (n : nat) : list CreateTodoDto.t :=
  repeat (CreateTodoDto.only_title (js "ab")) n.

(** Scenario D: two valid entries followed by one titled ["ab"]. *)
Definition scenario_D : list CreateTodoDto.t :=
  [CreateTodoDto.only_title (js "Buy milk");
   CreateTodoDto.only_title (js "Walk the dog");
   CreateTodoDto.only_title (js "ab")].

(** What [fromDatabase(row).toJSON()] shows of a row: every field the row
    decides (an empty description reads as absent, an empty identifier is
    replaced by a fresh one). *)
Definition shows (row : Row.t) (todo : ITodo.t) : Prop :=
  ITodo.title todo = Row.title row
  /\ ITodo.priority todo = Row.priority row
  /\ ITodo.completed todo = negb (Row.completed row =? 0)
  /\ ITodo.tags todo = Row.tags row
  /\ ITodo.description todo
     = match Row.description row with
       | Some d => if JsString.truthy d then Some d else None
       | None => None
       end
  /\ (Row.id row <> [] -> ITodo.id todo = Row.id row).

(** High first, then medium, then low; and the reverse. *)
Definition high_medium_low (l : list TodoPriority) : Prop :=
  exists h m k : nat, l = repeat HIGH h ++ repeat MEDIUM m ++ repeat LOW k.

Definition low_medium_high (l : list TodoPriority) : Prop :=
  exists h m k : nat, l = repeat LOW k ++ repeat MEDIUM m ++ repeat HIGH h.

(** A valid creation input with a given priority. *)
Definition task_with_priority (p : TodoPriority) : CreateTodoDto.t :=
  CreateTodoDto.mk (js "Task") None (Some p) None None.

(** Scenario B: three tasks created with priorities low, high, medium, then
    the list sorted by priority, ascending. *)
Definition scenario_B : M (list TodoPriority) :=
  TodoService.createTodo (task_with_priority LOW) ;;;
  TodoService.createTodo (task_with_priority HIGH) ;;;
  TodoService.createTodo (task_with_priority MEDIUM) ;;;
  response <- TodoRepository.findAll
                (TodoQueryParams.mk None (Some PRIORITY) (Some ASC)
                   None None None None None) ;;
  ret (map ITodo.priority (PaginatedResponse.data response)).

(** The pagination metadata and the page of a response to [params] over
    [table]: [pages] is the ceiling of [totalItems / limit], that is the
    integer with [(pages - 1) * limit < totalItems <= pages * limit]. *)
Definition pagination_contract (params : TodoQueryParams.t)
    (table : list Row.t) (response : PaginatedResponse.t) : Prop :=
  let meta := PaginatedResponse.meta response in
  let page := TodoRepository.page_of params in
  let limit := TodoRepository.limit_of params in
  let totalItems :=
    Z.of_nat (List.length (TodoRepository.matching_rows params table)) in
  PaginationMeta.totalItems meta = totalItems
  /\ PaginationMeta.itemsPerPage meta = limit
  /\ PaginationMeta.currentPage meta = page
  /\ PaginationMeta.hasPreviousPage meta = (1 <? page)
  /\ exists pages : Z,
       PaginationMeta.totalPages meta = Num pages
       /\ (pages - 1) * limit < totalItems <= pages * limit
       /\ PaginationMeta.hasNextPage meta = (page <? pages)
       /\ (pages < page -> PaginatedResponse.data response = []).

(** A text of at most 50000 bytes. *)
Definition short_pattern (p : jsstring) : bool :=
  Sql.utf8_length p <=? Sql.SQLITE_MAX_LIKE_PATTERN_LENGTH.

(** The query stays within the limits of SQLite: the WHERE clause is at most
    1000 levels deep (fewer than 997 tags), the patterns of the search and of
    the tags have at most 50000 bytes, the limit and [(page - 1) * limit] lie
    strictly between the least and the greatest 64-bit integer. *)
Definition within_limits (params : TodoQueryParams.t) : bool :=
  (TodoRepository.where_depth params <=? Sql.SQLITE_MAX_EXPR_DEPTH)
  && match TodoQueryParams.search params with
     | Some s => short_pattern (TodoRepository.searchPattern s)
     | None => true
     end
  && match TodoQueryParams.tags params with
     | Some l =>
         forallb (fun tag => short_pattern (TodoRepository.tagPattern tag)) l
     | None => true
     end
  && Sql.is_int64 (TodoRepository.limit_of params)
  && Sql.is_int64 (TodoRepository.offset_of params).

(** 997 tags, and a search string of 49999 letters. *)
Definition many_tags : list jsstring := repeat (js "a") 997.

Definition long_search : jsstring := repeat 97%N (Z.to_nat 49999).

(** Five tasks in the table. *)
Definition five_tasks_world : World :=
  snd ((TodoService.createTodo (task_with_priority LOW) ;;;
        TodoService.createTodo (task_with_priority HIGH) ;;;
        TodoService.createTodo (task_with_priority MEDIUM) ;;;
        TodoService.createTodo (task_with_priority HIGH) ;;;
        TodoService.createTodo (task_with_priority LOW)) ticking_world).

(** [{ page, limit }]. *)
Definition page_limit (page limit : Z) : TodoQueryParams.t :=
  TodoQueryParams.mk None None None (Some page) (Some limit) None None None.

(** [{ page }] and [{ limit }]. *)
Definition only_page (page : Z) : TodoQueryParams.t :=
  TodoQueryParams.mk None None None (Some page) None None None None.

Definition only_limit (limit : Z) : TodoQueryParams.t :=
  TodoQueryParams.mk None None None None (Some limit) None None None.

(** The completion rate of the specification: [100 * completed / total]
    rounded to the nearest integer, a half going up. *)
Definition round_half_up_percent (completed total : Z) : Z :=
  (200 * completed + total) / (2 * total).

(** A stored task, finished or not. *)
Definition stored_task (finished : bool) (n : nat) : Row.t :=
  {| Row.id := js "task-" ++ [N.of_nat (48 + n)];
     Row.title := js "Task";
     Row.description := None;
     Row.completed := if finished then 1 else 0;
     Row.priority := MEDIUM;
     Row.due_date := None;
     Row.tags := [];
     Row.created_at := IsoText 1700000000000;
     Row.updated_at := IsoText 1700000000000;
     Row.completed_at :=
       if finished then Some (DatetimeText 1700000000) else None |}.

(** A table of [total] tasks of which the first [completed] are finished. *)
Definition tasks_world (completed total : nat) : World :=
  mkWorld
    (map (stored_task true) (seq 0 completed)
     ++ map (stored_task false) (seq completed (total - completed)))
    (fun n => 1700000000000 + Z.of_nat n)
    (fun n => js "id-" ++ [N.of_nat (48 + n)]) 0 rowid_order.

(** Every pair [completed <= total <= bound] gives the rate of the
    specification. *)
Definition rates_agree_up_to (bound : nat) : bool :=
  forallb
    (fun total =>
       forallb
         (fun completed =>
            match TodoRepository.completionRate (Z.of_nat completed)
                    (Z.of_nat total) with
            | Num r =>
                r =? round_half_up_percent (Z.of_nat completed) (Z.of_nat total)
            | _ => false
            end)
         (seq 0 (S total)))
    (seq 1 bound).

(** What a stored todo reads back as: the same todo, an empty description
    becoming an absent one. *)
Definition read_back (t : ITodo.t) : ITodo.t :=
  {| ITodo.id := ITodo.id t;
     ITodo.title := ITodo.title t;
     ITodo.description :=
       match ITodo.description t with
       | Some d => if JsString.truthy d then Some d else None
       | None => None
       end;
     ITodo.completed := ITodo.completed t;
     ITodo.priority := ITodo.priority t;
     ITodo.dueDate := ITodo.dueDate t;
     ITodo.tags := ITodo.tags t;
     ITodo.createdAt := ITodo.createdAt t;
     ITodo.updatedAt := ITodo.updatedAt t;
     ITodo.completedAt := ITodo.completedAt t |}.

(** Create a task, then fetch it by the identifier it was given. *)
Definition create_then_fetch (dto : CreateTodoDto.t) : M (ITodo.t * ITodo.t) :=
  created <- TodoService.createTodo dto ;;
  fetched <- TodoService.getTodoById (ITodo.id created) ;;
  ret (created, fetched).

(** [{ title: "Buy milk", description: "" }]. *)
Definition empty_description : CreateTodoDto.t :=
  CreateTodoDto.mk (js "Buy milk") (Some []) None None None.

(** [{ title: "Buy milk", dueDate: 2027-01-15T08:00:00.000Z }]. *)
Definition with_due_date : CreateTodoDto.t :=
  CreateTodoDto.mk (js "Buy milk") None None (Some (MkDate 1800000000000)) None.

(** [s] occurs in [t] when the units of both are first sent through [fold]. *)
Definition occurs_under (fold : N -> N) (s t : jsstring) : Prop :=
  exists pre post : jsstring, map fold t = pre ++ map fold s ++ post.

(** [s] occurs in [t], the 26 ASCII letters compared without their case. *)
Definition occurs_ci (s t : jsstring) : Prop := occurs_under Sql.lower s t.

(** Lower case over Latin-1: the ASCII letters and the accented capitals
    U+00C0 to U+00DE, the multiplication sign U+00D7 excepted. *)
Definition latin1_lower (c : N) : N :=
  if ((65 <=? c) && (c <=? 90)
      || (192 <=? c) && (c <=? 222) && negb (c =? 215))%N
  then (c + 32)%N else c.

(** A decision procedure for occurrence, on units already folded. *)
Fixpoint prefixb (s t : jsstring) : bool :=
  match s, t with
  | [], _ => true
  | _ :: _, [] => false
  | c :: s', d :: t' => (c =? d)%N && prefixb s' t'
  end.

Fixpoint occursb (s t : jsstring) : bool :=
  prefixb s t
  || match t with
     | [] => false
     | _ :: t' => occursb s t'
     end.

(** Neither [%] nor [_] occurs in [s]. *)
Definition wildcard_free (s : jsstring) : Prop :=
  Forall (fun c => c <> Sql.percent /\ c <> Sql.underscore) s.

(** No unit of [s] is U+0000: the C functions of SQLite read [s] whole. *)
Definition nul_free (s : jsstring) : Prop := Sql.c_string s = s.

(** The trimmed search string occurs in the title or in the description,
    each read up to its first U+0000. *)
Definition search_matches (s : jsstring) (row : Row.t) : Prop :=
  occurs_ci (JsString.trim s) (Sql.c_string (Row.title row))
  \/ exists d : jsstring,
       Row.description row = Some d
       /\ occurs_ci (JsString.trim s) (Sql.c_string d).

(** [{ search }]. *)
Definition only_search (s : jsstring) : TodoQueryParams.t :=
  TodoQueryParams.mk None None None None None (Some s) None None.

(** A stored task with a given title and description. *)
Definition titled_task (title : jsstring) (description : option jsstring)
    : Row.t :=
  {| Row.id := js "task-1";
     Row.title := title;
     Row.description := description;
     Row.completed := 0;
     Row.priority := MEDIUM;
     Row.due_date := None;
     Row.tags := [];
     Row.created_at := IsoText 1700000000000;
     Row.updated_at := IsoText 1700000000000;
     Row.completed_at := None |}.

(** A world whose table holds one task with the given title. *)
Definition one_task_world (title : jsstring) : World :=
  mkWorld [titled_task title None] (fun n => 1700000000000 + Z.of_nat n)
    (fun n => js "id-" ++ [N.of_nat (48 + n)]) 0 rowid_order.

(** The titles of the page [findAll] returns. *)
Definition titles_of (params : TodoQueryParams.t) (w : World)
    : Result (list jsstring) :=
  match fst (TodoRepository.findAll params w) with
  | Ok response => Ok (map ITodo.title (PaginatedResponse.data response))
  | Throw e => Throw e
  end.

Definition titles_found (search : jsstring) (w : World) : Result (list jsstring) :=
  titles_of (only_search search) w.

(** [{ search, filter: 'completed' }] and [{ search, page: 2 }]. *)
Definition search_completed (s : jsstring) : TodoQueryParams.t :=
  TodoQueryParams.mk (Some COMPLETED) None None None None (Some s) None None.

Definition search_second_page (s : jsstring) : TodoQueryParams.t :=
  TodoQueryParams.mk None None None (Some 2) None (Some s) None None.

(** The search string [milk<U+0000>zzz], and [{ search, page: 10^18,
    limit: 100 }]. *)
Definition search_milk_nul_zzz : jsstring := js "milk" ++ [0%N] ++ js "zzz".

Definition search_far_page (s : jsstring) : TodoQueryParams.t :=
  TodoQueryParams.mk None None None (Some (10 ^ 18)) (Some 100) (Some s) None
    None.

(** The title [École], unit by unit, and the search string [é]. *)
Definition title_Ecole : jsstring := [201; 99; 111; 108; 101]%N.
Definition search_e_acute : jsstring := [233]%N.

(** The fields no completion method touches. *)
Definition same_content (a b : ITodo.t) : Prop :=
  ITodo.id a = ITodo.id b
  /\ ITodo.title a = ITodo.title b
  /\ ITodo.description a = ITodo.description b
  /\ ITodo.priority a = ITodo.priority b
  /\ ITodo.dueDate a = ITodo.dueDate b
  /\ ITodo.tags a = ITodo.tags b
  /\ ITodo.createdAt a = ITodo.createdAt b.

(** A mutation of the entity model, and a sequence of them applied in
    order. *)
Inductive Mutation :=
  | Toggle
  | Complete
  | Uncomplete
  | Update (updates : Partial.t)
  | AddTag (tag : jsstring)
  | RemoveTag (tag : jsstring).

Definition mutate (toLowerCase : jsstring -> jsstring) (m : Mutation)
    (t : ITodo.t) : M ITodo.t :=
  match m with
  | Toggle => Todo.toggle t
  | Complete => Todo.complete t
  | Uncomplete => Todo.uncomplete t
  | Update u => Todo.update u t
  | AddTag tag => r <- Todo.addTag toLowerCase tag t ;; ret (snd r)
  | RemoveTag tag => r <- Todo.removeTag toLowerCase tag t ;; ret (snd r)
  end.

Fixpoint mutate_all (toLowerCase : jsstring -> jsstring) (ms : list Mutation)
    (t : ITodo.t) : M ITodo.t :=
  match ms with
  | [] => ret t
  | m :: rest =>
      t' <- mutate toLowerCase m t ;; mutate_all toLowerCase rest t'
  end.

(** A date that is not Invalid Date. *)
Definition valid_date (d : Date) : Prop := d <> InvalidDate.

Definition valid_optional_date (d : option Date) : Prop := d <> Some InvalidDate.

(** The four dates of a todo are valid. *)
Definition valid_dates (t : ITodo.t) : Prop :=
  valid_date (ITodo.createdAt t) /\ valid_date (ITodo.updatedAt t)
  /\ valid_optional_date (ITodo.dueDate t)
  /\ valid_optional_date (ITodo.completedAt t).

(** A todo with a due date, tags and a completion date. *)
Definition dated_todo : ITodo.t :=
  {| ITodo.id := js "a1";
     ITodo.title := js "Buy milk";
     ITodo.description := Some (js "two litres");
     ITodo.completed := true;
     ITodo.priority := HIGH;
     ITodo.dueDate := Some (MkDate 1800000000000);
     ITodo.tags := [js "food"; js "Home"];
     ITodo.createdAt := MkDate 1700000000000;
     ITodo.updatedAt := MkDate 1700000005000;
     ITodo.completedAt := Some (MkDate 1700000005000) |}.

(** Lower case of the ASCII letters, unit by unit: the instance of
    [toLowerCase] used on ASCII examples. *)
Definition ascii_toLowerCase (s : jsstring) : jsstring := map Sql.lower s.

(** Every field but [tags] and [updatedAt] agrees. *)
Definition same_but_tags (a b : ITodo.t) : Prop :=
  ITodo.id a = ITodo.id b
  /\ ITodo.title a = ITodo.title b
  /\ ITodo.description a = ITodo.description b
  /\ ITodo.completed a = ITodo.completed b
  /\ ITodo.priority a = ITodo.priority b
  /\ ITodo.dueDate a = ITodo.dueDate b
  /\ ITodo.createdAt a = ITodo.createdAt b
  /\ ITodo.completedAt a = ITodo.completedAt b.

(** The inputs the creation rules accept, said field by field. *)
Definition acceptable (dto : CreateTodoDto.t) : Prop :=
  JsString.trim (CreateTodoDto.title dto) <> []
  /\ 3 <= JsString.length (CreateTodoDto.title dto) <= 100
  /\ Forall (fun c => TodoService.title_unit_ok c = true) (CreateTodoDto.title dto)
  /\ (forall d, CreateTodoDto.description dto = Some d ->
                JsString.length d <= 500)
  /\ (forall l, CreateTodoDto.tags dto = Some l ->
                (List.length l <= 10)%nat
                /\ Forall (fun tag => JsString.trim tag <> []) l)
  /\ CreateTodoDto.dueDate dto <> Some InvalidDate.

(** The creation input that carries the fields of an update, under a given
    title. *)
Definition as_creation (title : jsstring) (u : UpdateTodoDto.t) : CreateTodoDto.t :=
  CreateTodoDto.mk title (UpdateTodoDto.description u) (UpdateTodoDto.priority u)
    (UpdateTodoDto.dueDate u) (UpdateTodoDto.tags u).

(** [{ title: "Buy milk", description: "two litres", tags: ["food"] }]. *)
Definition milk_dto : CreateTodoDto.t :=
  CreateTodoDto.mk (js "Buy milk") (Some (js "two litres")) None None
    (Some [js "food"]).

(** The invariant of the stored rows: [completed] is 1 exactly when
    [completed_at] is set, and 0 otherwise. *)
Definition stored_ok (r : Row.t) : Prop :=
  (Row.completed r = 0 /\ Row.completed_at r = None)
  \/ (Row.completed r = 1 /\ Row.completed_at r <> None).

(** The primary key: no two rows share an identifier. *)
Definition distinct_ids (table : list Row.t) : Prop :=
  NoDup (map Row.id table).

(** The same query, for another page. *)
Definition with_page (params : TodoQueryParams.t) (page : Z) : TodoQueryParams.t :=
  TodoQueryParams.mk (TodoQueryParams.filter params)
    (TodoQueryParams.sortBy params) (TodoQueryParams.sortOrder params)
    (Some page) (TodoQueryParams.limit params) (TodoQueryParams.search params)
    (TodoQueryParams.priority params) (TodoQueryParams.tags params).

(** The rows that match a query, in the order the query asks for, tied
    rows as the scan yields them. *)
Definition sorted_matching (ties : TodoQueryParams.t -> Row.t -> Row.t -> bool)
    (params : TodoQueryParams.t) (table : list Row.t) : list Row.t :=
  Sql.order_by
    (TodoRepository.sort_le (TodoRepository.sortBy_of params)
       (TodoRepository.sortOrder_of params))
    (ties (TodoRepository.statement params))
    (TodoRepository.matching_rows params table).

(** The data of the page [page] of a query, where [findAll] returns. *)
Definition page_data (params : TodoQueryParams.t) (page : Z) (w : World)
    : list ITodo.t :=
  match fst (TodoRepository.findAll (with_page params page) w) with
  | Ok response => PaginatedResponse.data response
  | Throw _ => []
  end.

(** The pages 1 to [n] of a query, one after the other. *)
Definition first_pages (params : TodoQueryParams.t) (w : World) (n : nat)
    : list ITodo.t :=
  List.concat (map (fun p => page_data params (Z.of_nat p) w) (seq 1 n)).

(** [new Date(text)] on a column text, in a given time zone. *)
Definition read_date (tz : Z) (x : SqlText) : Date :=
  match x with
  | IsoText ms => MkDate ms
  | DatetimeText s => MkDate (s * 1000 - tz)
  end.

(** What [fromDatabase(row).toJSON()] shows of the timestamps of a row. *)
Definition shows_dates (tz : Z) (row : Row.t) (todo : ITodo.t) : Prop :=
  ITodo.createdAt todo = read_date tz (Row.created_at row)
  /\ ITodo.updatedAt todo = read_date tz (Row.updated_at row)
  /\ ITodo.dueDate todo = option_map (read_date tz) (Row.due_date row)
  /\ ITodo.completedAt todo = option_map (read_date tz) (Row.completed_at row).

(** Every [created_at] holds the text of [toISOString()], as [create] and
    [bulkCreate] write it. *)
Definition iso_created (table : list Row.t) : Prop :=
  Forall (fun r => exists ms, Row.created_at r = IsoText ms) table.

(** Each record was created no earlier than the records after it. *)
Definition newest_first (data : list ITodo.t) : Prop :=
  StronglySorted
    (fun a b => exists x y,
         ITodo.createdAt a = MkDate x /\ ITodo.createdAt b = MkDate y /\ y <= x)
    data.

(** A query that gives neither [sortBy] nor [sortOrder]. *)
Definition default_order (params : TodoQueryParams.t) : Prop :=
  TodoQueryParams.sortBy params = None /\ TodoQueryParams.sortOrder params = None.

(** A query that filters on the status only. *)
Definition status_only (params : TodoQueryParams.t) : Prop :=
  TodoQueryParams.priority params = None
  /\ TodoQueryParams.search params = None
  /\ TodoQueryParams.tags params = None.

(** [{ filter }]. *)
Definition only_filter (f : TodoFilter) : TodoQueryParams.t :=
  TodoQueryParams.mk (Some f) None None None None None None None.

(** No unit of [tag] is escaped by [JSON.stringify]. *)
Definition plain_tag (tag : jsstring) : Prop := JSON.quote_units tag = tag.

(** [{ tags }]. *)
Definition only_tags (tags : list jsstring) : TodoQueryParams.t :=
  TodoQueryParams.mk None None None None None None None (Some tags).

(** A stored task with the given tags. *)
Definition tagged_task (n : nat) (tags : list jsstring) : Row.t :=
  {| Row.id := js "task-" ++ [N.of_nat (48 + n)];
     Row.title := js "Task";
     Row.description := None;
     Row.completed := 0;
     Row.priority := MEDIUM;
     Row.due_date := None;
     Row.tags := tags;
     Row.created_at := IsoText 1700000000000;
     Row.updated_at := IsoText 1700000000000;
     Row.completed_at := None |}.

(** Three tasks: one tagged [home] and [food], one without tags, one tagged
    [work]. *)
Definition tagged_world : World :=
  mkWorld
    [tagged_task 1 [js "home"; js "food"]; tagged_task 2 [];
     tagged_task 3 [js "work"]]
    (fun n => 1700000000000 + Z.of_nat n)
    (fun n => js "id-" ++ [N.of_nat (48 + n)]) 0 rowid_order.

(** A stored task created at a given time. *)
Definition created_task (n : nat) (title : jsstring) (ms : Z) : Row.t :=
  {| Row.id := js "task-" ++ [N.of_nat (48 + n)];
     Row.title := title;
     Row.description := None;
     Row.completed := 0;
     Row.priority := MEDIUM;
     Row.due_date := None;
     Row.tags := [];
     Row.created_at := IsoText ms;
     Row.updated_at := IsoText ms;
     Row.completed_at := None |}.

(** Three tasks whose rows are not in the order of their creation. *)
Definition shuffled_world : World :=
  mkWorld
    [created_task 1 (js "second") 1700000002000;
     created_task 2 (js "first") 1700000001000;
     created_task 3 (js "third") 1700000003000]
    (fun n => 1700000000000 + Z.of_nat n)
    (fun n => js "id-" ++ [N.of_nat (48 + n)]) 0 rowid_order.

(** One number for the three components of [Sql.timestamp_key]. *)
Definition timestamp_rank (x : SqlText) : Z :=
  let '(d, s, t) := Sql.timestamp_key x in
  d * 172800000 + s * 86400000 + t.

(** The CHECK on [completed] holds of every row. *)
Definition completed_is_0_or_1 (table : list Row.t) : Prop :=
  Forall (fun r => Sql.check_completed r = true) table.

(** The rows of [table] other than those carrying [id]. *)
Definition without_id (id : jsstring) (table : list Row.t) : list Row.t :=
  List.filter (fun r => negb (JsString.eqb (Row.id r) id)) table.

(** A request [bulkDelete] accepts: between 1 and 100 identifiers, none of
    them blank. *)
Definition deletable (ids : list jsstring) : Prop :=
  (1 <= List.length ids <= 100)%nat
  /\ Forall (fun id => TodoService.blank id = false) ids.

(** The columns an UPDATE of the completion leaves alone. *)
Definition same_task (r r' : Row.t) : Prop :=
  Row.id r' = Row.id r
  /\ Row.title r' = Row.title r
  /\ Row.description r' = Row.description r
  /\ Row.priority r' = Row.priority r
  /\ Row.due_date r' = Row.due_date r
  /\ Row.tags r' = Row.tags r
  /\ Row.created_at r' = Row.created_at r.

(** 32767 identifiers, one more than a statement has parameters. *)
Definition many_ids : list jsstring :=
  repeat (js "task-1") (Z.to_nat (Sql.SQLITE_MAX_VARIABLE_NUMBER + 1)).

(** The rows [bulkComplete(ids)] and [bulkUncomplete(ids)] update. *)
Definition to_complete (ids : list jsstring) (r : Row.t) : bool :=
  TodoRepository.id_in ids r && (Row.completed r =? 0).

Definition to_uncomplete (ids : list jsstring) (r : Row.t) : bool :=
  TodoRepository.id_in ids r && (Row.completed r =? 1).

(** [datetime('now')] at the next reading of the clock. *)
Definition next_datetime (w : World) : SqlText := DatetimeText (clock w 0 / 1000).

(** [fromDatabase(row).toJSON()] for a row whose identifier is not empty. *)
Definition read_row (tz : Z) (row : Row.t) : ITodo.t :=
  {| ITodo.id := Row.id row;
     ITodo.title := Row.title row;
     ITodo.description :=
       match Row.description row with
       | Some d => if JsString.truthy d then Some d else None
       | None => None
       end;
     ITodo.completed := negb (Row.completed row =? 0);
     ITodo.priority := Row.priority row;
     ITodo.dueDate := option_map (read_date tz) (Row.due_date row);
     ITodo.tags := Row.tags row;
     ITodo.createdAt := read_date tz (Row.created_at row);
     ITodo.updatedAt := read_date tz (Row.updated_at row);
     ITodo.completedAt := option_map (read_date tz) (Row.completed_at row) |}.

(** What [update(u)] makes of a todo [t], apart from [updatedAt]; [first] is
    the next reading of the clock. *)
Definition updated_by (u : Partial.t) (first : Z) (t t' : ITodo.t) : Prop :=
  ITodo.id t' = ITodo.id t
  /\ ITodo.createdAt t' = ITodo.createdAt t
  /\ ITodo.title t' = Todo.or_else (Partial.title u) (ITodo.title t)
  /\ ITodo.description t'
     = match Partial.description u with
       | Some d => Some d
       | None => ITodo.description t
       end
  /\ ITodo.priority t' = Todo.or_else (Partial.priority u) (ITodo.priority t)
  /\ ITodo.dueDate t'
     = match Partial.dueDate u with
       | Some d => Some d
       | None => ITodo.dueDate t
       end
  /\ ITodo.tags t' = Todo.or_else (Partial.tags u) (ITodo.tags t)
  /\ ITodo.completed t' = Todo.or_else (Partial.completed u) (ITodo.completed t)
  /\ ITodo.completedAt t'
     = match Partial.completed u with
       | Some true =>
           if ITodo.completed t then ITodo.completedAt t
           else Some (MkDate first)
       | Some false =>
           if ITodo.completed t then None else ITodo.completedAt t
       | None => ITodo.completedAt t
       end.

(** The todo that [update] would write back carries a due date or a
    completion date. *)
Definition writes_a_date (dto : UpdateTodoDto.t) (row : Row.t) : Prop :=
  UpdateTodoDto.dueDate dto <> None
  \/ Row.due_date row <> None
  \/ UpdateTodoDto.completed dto = Some true
  \/ (Row.completed_at row <> None /\ UpdateTodoDto.completed dto <> Some false).

(** The row [update] leaves in place of [r] when it returns [todo]. *)
Definition rewritten (todo : ITodo.t) (updated_at : SqlText) (r : Row.t) : Row.t :=
  {| Row.id := Row.id r;
     Row.title := ITodo.title todo;
     Row.description :=
       match ITodo.description todo with
       | Some d => if JsString.truthy d then Some d else None
       | None => None
       end;
     Row.completed := 0;
     Row.priority := ITodo.priority todo;
     Row.due_date := None;
     Row.tags := ITodo.tags todo;
     Row.created_at := Row.created_at r;
     Row.updated_at := updated_at;
     Row.completed_at := None |}.

(** [{ title }] and [{ completed }] as updates. *)
Definition retitle (title : jsstring) : UpdateTodoDto.t :=
  UpdateTodoDto.mk (Some title) None None None None None.

Definition set_completed (completed : bool) : UpdateTodoDto.t :=
  UpdateTodoDto.mk None None (Some completed) None None None.

(** The operations that write to the table. *)
Inductive Request :=
  | CreateTodo (dto : CreateTodoDto.t)
  | BulkCreate (batch : list CreateTodoDto.t)
  | UpdateTodo (id : jsstring) (dto : UpdateTodoDto.t)
  | DeleteTodo (id : jsstring)
  | BulkDelete (ids : list jsstring)
  | DeleteCompleted
  | BulkComplete (ids : list jsstring)
  | BulkUncomplete (ids : list jsstring).

(** The world after a request, whether it returned or threw. *)
Definition serve (q : Request) (w : World) : World :=
  match q with
  | CreateTodo dto => snd (TodoService.createTodo dto w)
  | BulkCreate batch => snd (TodoService.bulkCreate batch w)
  | UpdateTodo id dto => snd (TodoService.updateTodo id dto w)
  | DeleteTodo id => snd (TodoService.deleteTodo id w)
  | BulkDelete ids => snd (TodoService.bulkDelete ids w)
  | DeleteCompleted => snd (TodoService.deleteCompleted w)
  | BulkComplete ids => snd (TodoRepository.bulkComplete ids w)
  | BulkUncomplete ids => snd (TodoRepository.bulkUncomplete ids w)
  end.

Definition serve_all (qs : list Request) (w : World) : World :=
  fold_left (fun w q => serve q w) qs w.

(** The completion columns of every row agree and no two rows share an
    identifier. *)
Definition well_kept (table : list Row.t) : Prop :=
  Forall stored_ok table /\ distinct_ids table.

(* ================================================================= *)
(** ** The entity model *)

(** C1.  For every todo in which [completed] is true exactly when
    [completedAt] is set, each of [toggle()], [complete()], [uncomplete()]
    and [update(u)], for every partial update [u], returns a todo in which
    [completed] is again true exactly when [completedAt] is set. *)
Theorem C1_mutations_preserve_completion_invariant
    (t : ITodo.t) (w : World) (H : completion_invariant t) :
  returns (Todo.toggle t) w completion_invariant
  /\ returns (Todo.complete t) w completion_invariant
  /\ returns (Todo.uncomplete t) w completion_invariant
  /\ forall u : Partial.t, returns (Todo.update u t) w completion_invariant.
Proof.
  unfold completion_invariant in *.
  repeat split.
  - unfold Todo.toggle, returns.
    destruct (ITodo.completed t); cbn; intuition discriminate.
  - unfold Todo.complete, returns.
    destruct (ITodo.completed t) eqn:E; cbn.
    + rewrite E. exact H.
    + intuition discriminate.
  - unfold Todo.uncomplete, returns.
    destruct (ITodo.completed t) eqn:E; cbn.
    + intuition discriminate.
    + rewrite E. exact H.
  - intro u. unfold Todo.update, returns, Todo.complete, Todo.uncomplete.
    destruct (Partial.completed u) as [c|]; cbn.
    + destruct c, (ITodo.completed t) eqn:E; cbn;
        try rewrite E; try exact H; intuition discriminate.
    + exact H.
Qed.

(** The invariant holds of [finished_todo], and is kept by its [toggle()] and
    by an empty [update]. *)
Lemma C1_mutations_preserve_completion_invariant_witness :
  completion_invariant finished_todo
  /\ returns (Todo.toggle finished_todo) ticking_world completion_invariant
  /\ returns (Todo.update Partial.empty finished_todo) ticking_world
       completion_invariant.
Proof.
  assert (H : completion_invariant finished_todo).
  { unfold completion_invariant. simpl. split; [discriminate | reflexivity]. }
  split; [exact H |].
  destruct (C1_mutations_preserve_completion_invariant finished_todo
              ticking_world H) as (Ht & _ & _ & Hu).
  split; [exact Ht | apply Hu].
Defined.

(** C10.  When the partial update [u] has no [completed] field, or one equal
    to the todo's current [completed], [update(u)] returns a todo with the
    same [completedAt]: no other field of [u] stamps or clears it. *)
Theorem C10_update_keeps_completedAt
    (t : ITodo.t) (u : Partial.t) (w : World)
    (H : Partial.completed u = None
         \/ Partial.completed u = Some (ITodo.completed t)) :
  returns (Todo.update u t) w
    (fun t' => ITodo.completedAt t' = ITodo.completedAt t
               /\ ITodo.completed t' = ITodo.completed t).
Proof.
  unfold Todo.update, returns.
  destruct H as [H | H]; rewrite H; cbn.
  - split; reflexivity.
  - rewrite Bool.eqb_reflx. cbn. split; reflexivity.
Qed.

(** Re-sending [completed = true] to a finished todo, with new values for
    the other fields, keeps its [completedAt]. *)
Lemma C10_update_keeps_completedAt_witness :
  returns
    (Todo.update
       {| Partial.id := None;
          Partial.title := Some (js "Buy bread");
          Partial.description := Some (js "two loaves");
          Partial.completed := Some true;
          Partial.priority := Some HIGH;
          Partial.dueDate := Some (MkDate 5000);
          Partial.tags := Some [js "food"];
          Partial.createdAt := None;
          Partial.updatedAt := None;
          Partial.completedAt := None |}
       finished_todo)
    ticking_world
    (fun t' => ITodo.completedAt t' = Some (MkDate 2000)
               /\ ITodo.completed t' = true).
Proof.
  apply (C10_update_keeps_completedAt finished_todo _ ticking_world).
  right. reflexivity.
Defined.

(** [Todo.create] reads the clock twice and draws one identifier. *)
Lemma create_runs (dto : CreateTodoDto.t) (w : World) :
  Todo.create dto w =
  (Ok {| ITodo.id := uuids w 0;
         ITodo.title := CreateTodoDto.title dto;
         ITodo.description := CreateTodoDto.description dto;
         ITodo.completed := false;
         ITodo.priority :=
           match CreateTodoDto.priority dto with Some p => p | None => MEDIUM end;
         ITodo.dueDate := CreateTodoDto.dueDate dto;
         ITodo.tags :=
           match CreateTodoDto.tags dto with Some l => l | None => [] end;
         ITodo.createdAt := MkDate (clock w 0);
         ITodo.updatedAt := MkDate (clock w 1);
         ITodo.completedAt := None |},
   mkWorld (todos w) (fun n => clock w (S (S n))) (fun n => uuids w (S n))
     (timezone w) (scan w)).
Proof. reflexivity. Qed.

(** C9, as stated, fails when the clock advances between the two
    [new Date()] of [Todo.create]: the todo made from [{title: "Buy milk"}]
    in a world whose clock ticks at each reading has [createdAt] one
    millisecond before [updatedAt]. *)
Lemma C9_createdAt_differs_from_updatedAt :
  returns (Todo.create (CreateTodoDto.only_title (js "Buy milk"))) ticking_world
    (fun t => ITodo.createdAt t = MkDate 1700000000000
              /\ ITodo.updatedAt t = MkDate 1700000000001
              /\ ITodo.createdAt t <> ITodo.updatedAt t).
Proof.
  unfold returns. rewrite create_runs. cbn.
  repeat split. discriminate.
Qed.

(** C9, amended.  Creating a todo from an input that holds only the title
    returns a todo with that title, [completed = false],
    [priority = medium], [tags = []], the identifier drawn from [uuidv4],
    [createdAt] the first and [updatedAt] the second of two successive
    readings of the clock; the two are equal exactly when the clock gives
    the same reading twice. *)
Theorem C9_create_from_title_only (title : jsstring) (w : World) :
  returns (Todo.create (CreateTodoDto.only_title title)) w
    (fun t => ITodo.title t = title
              /\ ITodo.completed t = false
              /\ ITodo.priority t = MEDIUM
              /\ ITodo.tags t = []
              /\ ITodo.id t = uuids w 0
              /\ ITodo.createdAt t = MkDate (clock w 0)
              /\ ITodo.updatedAt t = MkDate (clock w 1)
              /\ (ITodo.createdAt t = ITodo.updatedAt t
                  <-> clock w 0 = clock w 1)).
Proof.
  unfold returns. rewrite create_runs. cbn.
  repeat split; try reflexivity.
  - intro H. now inversion H.
  - intro H. now rewrite H.
Qed.

(* ================================================================= *)
(** ** Bulk creation *)

(** What the [forEach] of [bulkCreate] throws: the first element that fails,
    with its index. *)
Lemma validate_each_first (todos : list CreateTodoDto.t) :
  forall (k : nat) (info : ValidationInfo),
    TodoService.validate_each k todos = Some info ->
    exists (i : nat) (d : CreateTodoDto.t) (inner : ValidationInfo),
      info = BulkItemInvalid (k + i) inner
      /\ nth_error todos i = Some d
      /\ TodoService.validateCreateTodoDto d = Some inner
      /\ forall (j : nat) (d' : CreateTodoDto.t),
           (j < i)%nat -> nth_error todos j = Some d' ->
           TodoService.validateCreateTodoDto d' = None.
Proof.
  induction todos as [| a rest IH]; intros k info H; simpl in H.
  - discriminate.
  - destruct (TodoService.validateCreateTodoDto a) as [e |] eqn:Ea.
    + inversion H; subst. exists 0%nat, a, e.
      rewrite Nat.add_0_r. repeat split; auto.
      intros j d' Hj. lia.
    + destruct (IH (S k) info H) as (i & d & inner & Hinfo & Hn & Hv & Hfirst).
      exists (S i), d, inner. repeat split; auto.
      * rewrite Hinfo. f_equal. lia.
      * intros [| j] d' Hj Hd'; simpl in Hd'.
        -- inversion Hd'; subst. exact Ea.
        -- apply (Hfirst j d'); [lia | exact Hd'].
Qed.

Lemma validate_each_complete (todos : list CreateTodoDto.t) :
  forall (k : nat) (d : CreateTodoDto.t),
    In d todos -> TodoService.validateCreateTodoDto d <> None ->
    TodoService.validate_each k todos <> None.
Proof.
  induction todos as [| a rest IH]; intros k d Hin Hbad; simpl.
  - contradiction.
  - destruct (TodoService.validateCreateTodoDto a) as [e |] eqn:Ea.
    + discriminate.
    + destruct Hin as [-> | Hin].
      * contradiction.
      * apply (IH (S k) d Hin Hbad).
Qed.

(** A batch that fails any of the three guards of [bulkCreate] is thrown
    back before a todo is built: the world is the one of the call. *)
Lemma bulkCreate_rejects (todos : list CreateTodoDto.t) (w : World)
    (d : CreateTodoDto.t) :
  In d todos -> TodoService.validateCreateTodoDto d <> None ->
  exists info : ValidationInfo,
    TodoService.bulkCreate todos w = (Throw (ValidationError info), w).
Proof.
  intros Hin Hbad. unfold TodoService.bulkCreate.
  destruct (Z.of_nat (List.length todos) =? 0); [eexists; reflexivity |].
  destruct (100 <? Z.of_nat (List.length todos)); [eexists; reflexivity |].
  destruct (TodoService.validate_each 0 todos) as [info |] eqn:E.
  - exists info. reflexivity.
  - exfalso. exact (validate_each_complete todos 0 d Hin Hbad E).
Qed.

(** C2, as stated, fails on a batch of more than 100 elements: 101 entries
    titled ["ab"] are all invalid, yet the error thrown is the one of the
    size guard and names no index. *)
Lemma C2_oversized_batch_names_no_index :
  (forall d, In d (short_titles 101) ->
             TodoService.validateCreateTodoDto d <> None)
  /\ fst (TodoService.bulkCreate (short_titles 101) ticking_world)
     = Throw (ValidationError (BulkTooLarge 101))
  /\ forall (i : nat) (inner : ValidationInfo),
       fst (TodoService.bulkCreate (short_titles 101) ticking_world)
       <> Throw (ValidationError (BulkItemInvalid i inner)).
Proof.
  split; [| split].
  - intros d Hd. apply repeat_spec in Hd. subst d. discriminate.
  - reflexivity.
  - intros i inner H.
    assert (E : fst (TodoService.bulkCreate (short_titles 101) ticking_world)
                = Throw (ValidationError (BulkTooLarge 101))) by reflexivity.
    rewrite E in H. discriminate.
Qed.

(** C2, amended.  When the input list holds at least one element that fails
    the creation rules, [bulkCreate] throws a validation error and leaves
    the world, hence the stored collection, as it was before the call; when
    moreover the list has at most 100 elements, the error names the index of
    the first failing element. *)
Theorem C2_bulkCreate_rejects_invalid_batch
    (batch : list CreateTodoDto.t) (w : World)
    (H : exists d, In d batch /\ TodoService.validateCreateTodoDto d <> None) :
  (exists info : ValidationInfo,
      TodoService.bulkCreate batch w = (Throw (ValidationError info), w))
  /\ table_after (TodoService.bulkCreate batch) w = todos w
  /\ ((List.length batch <= 100)%nat ->
      exists (i : nat) (d : CreateTodoDto.t) (inner : ValidationInfo),
        nth_error batch i = Some d
        /\ TodoService.validateCreateTodoDto d = Some inner
        /\ (forall (j : nat) (d' : CreateTodoDto.t),
              (j < i)%nat -> nth_error batch j = Some d' ->
              TodoService.validateCreateTodoDto d' = None)
        /\ TodoService.bulkCreate batch w
           = (Throw (ValidationError (BulkItemInvalid i inner)), w)).
Proof.
  destruct H as (d & Hin & Hbad).
  destruct (bulkCreate_rejects batch w d Hin Hbad) as (info & Hthrow).
  split; [exists info; exact Hthrow |].
  split; [unfold table_after; rewrite Hthrow; reflexivity |].
  intro Hlen. unfold TodoService.bulkCreate.
  destruct batch as [| a rest]; [contradiction |].
  replace (Z.of_nat (List.length (a :: rest)) =? 0) with false
    by (symmetry; apply Z.eqb_neq; simpl List.length; lia).
  replace (100 <? Z.of_nat (List.length (a :: rest))) with false
    by (symmetry; apply Z.ltb_ge; lia).
  destruct (TodoService.validate_each 0 (a :: rest)) as [e |] eqn:E.
  - destruct (validate_each_first _ _ _ E)
      as (i & d0 & inner & He & Hn & Hv & Hfirst).
    exists i, d0, inner. simpl in He. subst e. repeat split; auto.
  - exfalso. exact (validate_each_complete _ 0 d Hin Hbad E).
Qed.

(** Scenario D: the batch is rejected with the index 2 and nothing is
    stored. *)
Lemma C2_scenario_D :
  (exists d, In d scenario_D /\ TodoService.validateCreateTodoDto d <> None)
  /\ fst (TodoService.bulkCreate scenario_D ticking_world)
     = Throw (ValidationError (BulkItemInvalid 2 (TitleTooShort 2)))
  /\ table_after (TodoService.bulkCreate scenario_D) ticking_world = [].
Proof.
  assert (H : exists d, In d scenario_D
                        /\ TodoService.validateCreateTodoDto d <> None).
  { exists (CreateTodoDto.only_title (js "ab")). split.
    - simpl. auto.
    - discriminate. }
  destruct (C2_bulkCreate_rejects_invalid_batch scenario_D ticking_world H)
    as (_ & Htable & _).
  split; [exact H |].
  split; [reflexivity | exact Htable].
Defined.

(** A batch of valid entries is stored, one row per entry. *)
Example bulkCreate_valid_batch :
  map Row.title
    (table_after
       (TodoService.bulkCreate
          [CreateTodoDto.only_title (js "Buy milk");
           CreateTodoDto.only_title (js "Walk the dog")])
       ticking_world)
  = [js "Buy milk"; js "Walk the dog"].
Proof. reflexivity. Qed.

(* ================================================================= *)
(** ** Reading rows *)

Lemma row_to_json_runs (row : Row.t) (w : World) :
  exists (todo : ITodo.t) (w' : World),
    TodoRepository.row_to_json row w = (Ok todo, w')
    /\ shows row todo
    /\ todos w' = todos w /\ timezone w' = timezone w /\ clock w' = clock w.
Proof.
  unfold TodoRepository.row_to_json, Todo.fromDatabase, Todo.optional_date,
    Todo.new, Date_parse, bind, ret, shows.
  destruct row as [i ti de co pr du ta cr up ca]; cbn.
  destruct du as [du |], ca as [ca |], i as [| c i']; cbn;
    eexists; eexists; (split; [reflexivity |]); cbn;
    repeat split; auto; intro H; congruence.
Qed.

Lemma mapM_row_to_json_runs (rows : list Row.t) :
  forall w : World,
  exists (data : list ITodo.t) (w' : World),
    mapM TodoRepository.row_to_json rows w = (Ok data, w')
    /\ Forall2 shows rows data
    /\ todos w' = todos w /\ timezone w' = timezone w /\ clock w' = clock w.
Proof.
  induction rows as [| row rest IH]; intro w.
  - exists [], w. cbn. repeat split; auto.
  - destruct (row_to_json_runs row w) as (todo & w1 & E1 & Hs & Ht1 & Hz1 & Hc1).
    destruct (IH w1) as (data & w2 & E2 & Hf & Ht2 & Hz2 & Hc2).
    exists (todo :: data), w2.
    split.
    + cbn [mapM]. unfold bind. rewrite E1, E2. reflexivity.
    + repeat split; auto; congruence.
Qed.

(** Within the limits of SQLite nothing is refused. *)
Lemma like_or_error_short (pattern text : jsstring) :
  short_pattern pattern = true ->
  Sql.like_or_error pattern text = Ok (Sql.like pattern text).
Proof.
  unfold short_pattern, Sql.like_or_error. intro H.
  apply Z.leb_le in H.
  replace (Sql.SQLITE_MAX_LIKE_PATTERN_LENGTH <? Sql.utf8_length pattern)
    with false by (symmetry; apply Z.ltb_ge; exact H).
  reflexivity.
Qed.

Lemma search_or_error_short (search : option jsstring) (r : Row.t) :
  match search with
  | Some s => short_pattern (TodoRepository.searchPattern s)
  | None => true
  end = true ->
  TodoRepository.search_or_error search r
  = Ok (TodoRepository.search_clause search r).
Proof.
  destruct search as [s |]; [| reflexivity]. intro H.
  unfold TodoRepository.search_or_error, TodoRepository.search_clause.
  destruct (JsString.truthy s && (0 <? JsString.length (JsString.trim s)));
    [| reflexivity].
  rewrite (like_or_error_short _ _ H).
  destruct (Sql.like (TodoRepository.searchPattern s) (Row.title r));
    [reflexivity |].
  cbn [orb]. destruct (Row.description r) as [d |]; [| reflexivity].
  apply like_or_error_short, H.
Qed.

Lemma tags_or_error_short (l : list jsstring) (r : Row.t) :
  forallb (fun tag => short_pattern (TodoRepository.tagPattern tag)) l = true ->
  TodoRepository.tags_or_error l r
  = Ok (existsb
          (fun tag =>
             (0 <? Z.of_nat (List.length (Row.tags r)))
             && Sql.like (TodoRepository.tagPattern tag)
                  (JSON.stringify (Row.tags r))) l).
Proof.
  induction l as [| tag l IH]; [reflexivity |].
  intro H. cbn [forallb] in H. apply andb_true_iff in H. destruct H as [Ha Hl].
  cbn [TodoRepository.tags_or_error existsb].
  destruct (0 <? Z.of_nat (List.length (Row.tags r))); cbn [andb orb].
  - rewrite (like_or_error_short _ _ Ha).
    destruct (Sql.like (TodoRepository.tagPattern tag)
                (JSON.stringify (Row.tags r))); cbn [orb];
      [reflexivity | apply IH, Hl].
  - apply IH, Hl.
Qed.

Lemma within_limits_parts (params : TodoQueryParams.t) :
  within_limits params = true ->
  TodoRepository.where_depth params <= Sql.SQLITE_MAX_EXPR_DEPTH
  /\ match TodoQueryParams.search params with
     | Some s => short_pattern (TodoRepository.searchPattern s)
     | None => true
     end = true
  /\ match TodoQueryParams.tags params with
     | Some l =>
         forallb (fun tag => short_pattern (TodoRepository.tagPattern tag)) l
     | None => true
     end = true
  /\ Sql.is_int64 (TodoRepository.limit_of params) = true
  /\ Sql.is_int64 (TodoRepository.offset_of params) = true.
Proof.
  unfold within_limits. intro H.
  repeat (apply andb_true_iff in H; destruct H as [H ?]).
  apply Z.leb_le in H. auto.
Qed.

Lemma where_or_error_within (params : TodoQueryParams.t) (r : Row.t) :
  within_limits params = true ->
  TodoRepository.where_or_error params r
  = Ok (TodoRepository.where_clause params r).
Proof.
  intro H. apply within_limits_parts in H.
  destruct H as (_ & Hs & Ht & _).
  unfold TodoRepository.where_or_error, TodoRepository.where_clause.
  destruct (TodoRepository.status_clause (TodoRepository.filter_of params) r);
    [| reflexivity].
  destruct (TodoRepository.priority_clause (TodoQueryParams.priority params) r);
    [| reflexivity].
  cbn [negb andb].
  rewrite (search_or_error_short _ r Hs).
  destruct (TodoRepository.search_clause (TodoQueryParams.search params) r);
    [| reflexivity].
  cbn [andb]. unfold TodoRepository.tags_clause.
  destruct (TodoQueryParams.tags params) as [[| tag l] |]; try reflexivity.
  apply tags_or_error_short, Ht.
Qed.

Lemma select_filter (clause : Row.t -> Result bool) (f : Row.t -> bool)
    (table : list Row.t) :
  (forall r, clause r = Ok (f r)) ->
  Sql.select clause table = Ok (List.filter f table).
Proof.
  intro H. induction table as [| r rest IH]; [reflexivity |].
  cbn [Sql.select List.filter]. rewrite H, IH. reflexivity.
Qed.

(** More than three parameters in the WHERE clause come with as many tags,
    so a clause that is not too deep has few parameters. *)
Lemma where_variables_depth (params : TodoQueryParams.t) :
  TodoRepository.where_variables params
  <= Z.max 3 (TodoRepository.where_depth params).
Proof.
  unfold TodoRepository.where_variables, TodoRepository.where_depth.
  destruct (TodoQueryParams.priority params),
    (TodoQueryParams.search params) as [s |],
    (TodoQueryParams.tags params) as [[| tag l] |],
    (TodoRepository.filter_of params);
    cbn [List.length];
    try destruct (JsString.truthy s
                  && (0 <? JsString.length (JsString.trim s)));
    lia.
Qed.

Lemma prepare_within (params : TodoQueryParams.t) :
  within_limits params = true ->
  Sql.prepare (TodoRepository.where_variables params)
    (TodoRepository.where_depth params) = Ok tt.
Proof.
  intro H. apply within_limits_parts in H. destruct H as (Hd & _).
  pose proof (where_variables_depth params) as Hv.
  unfold Sql.prepare, Sql.SQLITE_MAX_EXPR_DEPTH,
    Sql.SQLITE_MAX_VARIABLE_NUMBER in *.
  replace (1000 <? TodoRepository.where_depth params) with false
    by (symmetry; apply Z.ltb_ge; lia).
  replace (32766 <? TodoRepository.where_variables params) with false
    by (symmetry; apply Z.ltb_ge; lia).
  reflexivity.
Qed.

(** Within the limits of SQLite [findAll] returns the rows of [page_rows],
    read one by one, with the metadata computed from the count of
    [matching_rows]. *)
Lemma findAll_runs (params : TodoQueryParams.t) (w : World) :
  within_limits params = true ->
  exists (data : list ITodo.t) (w' : World),
    TodoRepository.findAll params w
    = (Ok {| PaginatedResponse.data := data;
             PaginatedResponse.meta :=
               let totalItems :=
                 Z.of_nat (List.length
                             (TodoRepository.matching_rows params (todos w))) in
               let totalPages :=
                 Math_ceil_div totalItems (TodoRepository.limit_of params) in
               {| PaginationMeta.currentPage := TodoRepository.page_of params;
                  PaginationMeta.totalPages := totalPages;
                  PaginationMeta.totalItems := totalItems;
                  PaginationMeta.itemsPerPage := TodoRepository.limit_of params;
                  PaginationMeta.hasNextPage :=
                    number_lt (TodoRepository.page_of params) totalPages;
                  PaginationMeta.hasPreviousPage :=
                    1 <? TodoRepository.page_of params |} |}, w')
    /\ Forall2 shows (TodoRepository.page_rows (scan w) params (todos w)) data
    /\ todos w' = todos w.
Proof.
  intro Hin.
  destruct (mapM_row_to_json_runs
              (TodoRepository.page_rows (scan w) params (todos w)) w)
    as (data & w' & E & Hf & Ht & _).
  exists data, w'. split; [| split; assumption].
  pose proof (within_limits_parts params Hin) as (_ & _ & _ & Hl & Ho).
  unfold TodoRepository.findAll, TodoRepository.getDatabase,
    TodoRepository.getScan, bind, lift.
  rewrite (prepare_within params Hin).
  rewrite (select_filter _ (TodoRepository.where_clause params) (todos w)
             (fun r => where_or_error_within params r Hin)).
  unfold Sql.limit_offset.
  fold (TodoRepository.offset_of params). rewrite Hl, Ho. cbn [andb].
  fold (TodoRepository.matching_rows params (todos w)).
  fold (TodoRepository.page_rows (scan w) params (todos w)).
  rewrite E. reflexivity.
Qed.

(** Beyond the limits [findAll] throws the error of SQLite, and nothing
    else. *)
Lemma select_cases (clause : Row.t -> Result bool) (table : list Row.t) :
  (forall r e, clause r = Throw e -> exists c, e = SqliteError c) ->
  (exists rows, Sql.select clause table = Ok rows)
  \/ (exists c, Sql.select clause table = Throw (SqliteError c)).
Proof.
  intro H. induction table as [| r rest IH]; [left; now exists [] |].
  cbn [Sql.select]. destruct (clause r) as [keep | e] eqn:E.
  - destruct IH as [(rows & ->) | (c & ->)]; [left | right]; eauto.
  - destruct (H r e E) as (c & ->). right. eauto.
Qed.

Lemma like_or_error_throws (pattern text : jsstring) (e : Error) :
  Sql.like_or_error pattern text = Throw e -> exists c, e = SqliteError c.
Proof.
  unfold Sql.like_or_error.
  destruct (Sql.SQLITE_MAX_LIKE_PATTERN_LENGTH <? Sql.utf8_length pattern);
    intro H; inversion H. eauto.
Qed.

Lemma where_or_error_throws (params : TodoQueryParams.t) (r : Row.t)
    (e : Error) :
  TodoRepository.where_or_error params r = Throw e ->
  exists c, e = SqliteError c.
Proof.
  unfold TodoRepository.where_or_error.
  destruct (negb _); [discriminate |].
  destruct (negb _); [discriminate |].
  destruct (TodoRepository.search_or_error _ r) as [[|] | e'] eqn:Es.
  - destruct (TodoQueryParams.tags params) as [[| tag l] |]; try discriminate.
    generalize (tag :: l). intro l'.
    induction l' as [| t l' IH]; cbn [TodoRepository.tags_or_error];
      [discriminate |].
    destruct (0 <? _); [| exact IH].
    destruct (Sql.like_or_error _ _) as [[|] | e'] eqn:El;
      [discriminate | exact IH |].
    intro H. inversion H; subst. eapply like_or_error_throws, El.
  - discriminate.
  - intro H. inversion H; subst. clear H.
    unfold TodoRepository.search_or_error in Es.
    destruct (TodoQueryParams.search params) as [s |]; [| discriminate].
    destruct (JsString.truthy s && _); [| discriminate].
    destruct (Sql.like_or_error _ (Row.title r)) as [[|] | e'] eqn:El.
    + discriminate.
    + destruct (Row.description r); [| discriminate].
      eapply like_or_error_throws, Es.
    + inversion Es; subst. eapply like_or_error_throws, El.
Qed.

Lemma findAll_cases (params : TodoQueryParams.t) (w : World) :
  (exists response w' rows,
      TodoRepository.findAll params w = (Ok response, w')
      /\ Forall2 shows
           (Sql.window (TodoRepository.limit_of params)
              (TodoRepository.offset_of params) rows)
           (PaginatedResponse.data response)
      /\ todos w' = todos w)
  \/ (exists c, TodoRepository.findAll params w = (Throw (SqliteError c), w)).
Proof.
  unfold TodoRepository.findAll, TodoRepository.getDatabase,
    TodoRepository.getScan, bind, lift.
  unfold Sql.prepare.
  destruct (Sql.SQLITE_MAX_EXPR_DEPTH <? _); [right; eauto |].
  destruct (Sql.SQLITE_MAX_VARIABLE_NUMBER <? _); [right; eauto |].
  destruct (select_cases (TodoRepository.where_or_error params) (todos w)
              (where_or_error_throws params)) as [(rows & ->) | (c & ->)];
    [| right; eauto].
  unfold Sql.limit_offset.
  destruct (Sql.is_int64 _ && Sql.is_int64 _); [| right; eauto].
  match goal with
  | |- context [mapM TodoRepository.row_to_json ?l w] =>
      destruct (mapM_row_to_json_runs l w) as (data & w' & E & Hf & Ht & _)
  end.
  rewrite E. left. eexists. eexists. eexists.
  split; [reflexivity |]. split; [exact Hf | exact Ht].
Qed.

Lemma shows_priorities (rows : list Row.t) (data : list ITodo.t) :
  Forall2 shows rows data ->
  map ITodo.priority data = map Row.priority rows.
Proof.
  induction 1 as [| row todo rows data Hs _ IH]; cbn.
  - reflexivity.
  - destruct Hs as (_ & Hp & _). now rewrite Hp, IH.
Qed.

(* ================================================================= *)
(** ** ORDER BY, LIMIT and OFFSET *)

Section OrderBy.

Context {A : Type} (le ties : A -> A -> bool).

Hypothesis le_total : forall a b, le a b = false -> le b a = true.
Hypothesis le_trans : forall a b c, le a b = true -> le b c = true -> le a c = true.

(** Whatever the scan does with tied rows, it places a row before another
    only if [le] allows it. *)
Lemma then_by_true (a b : A) : Sql.then_by le ties a b = true -> le a b = true.
Proof.
  unfold Sql.then_by. destruct (le a b); [reflexivity |].
  cbn. auto.
Qed.

Lemma then_by_false (a b : A) : Sql.then_by le ties a b = false -> le b a = true.
Proof.
  unfold Sql.then_by. destruct (le a b) eqn:E1, (le b a) eqn:E2; cbn; auto.
  intros _. rewrite <- E2. apply le_total, E1.
Qed.

Lemma insert_by_In (cmp : A -> A -> bool) (x y : A) (l : list A) :
  In y (Sql.insert_by cmp x l) <-> y = x \/ In y l.
Proof.
  induction l as [| z l IH]; simpl.
  - intuition.
  - destruct (cmp x z); simpl; rewrite ?IH; intuition.
Qed.

Lemma insert_by_sorted (x : A) (l : list A) :
  StronglySorted (fun a b => le a b = true) l ->
  StronglySorted (fun a b => le a b = true)
    (Sql.insert_by (Sql.then_by le ties) x l).
Proof.
  induction 1 as [| z l Hs IH Hz]; simpl.
  - constructor; constructor.
  - destruct (Sql.then_by le ties x z) eqn:E.
    + apply then_by_true in E. constructor.
      * constructor; assumption.
      * constructor; [exact E |].
        rewrite Forall_forall in *. intros y Hy.
        apply (le_trans x z y E). apply Hz, Hy.
    + apply then_by_false in E. constructor; [exact IH |].
      rewrite Forall_forall in *. intros y Hy.
      apply insert_by_In in Hy. destruct Hy as [-> | Hy].
      * exact E.
      * apply Hz, Hy.
Qed.

Lemma order_by_sorted (l : list A) :
  StronglySorted (fun a b => le a b = true) (Sql.order_by le ties l).
Proof.
  induction l as [| x l IH]; simpl.
  - constructor.
  - apply insert_by_sorted, IH.
Qed.

Lemma order_by_In (y : A) (l : list A) :
  In y (Sql.order_by le ties l) <-> In y l.
Proof.
  induction l as [| x l IH]; simpl.
  - tauto.
  - unfold Sql.order_by in IH. rewrite insert_by_In, IH. intuition.
Qed.

Lemma order_by_length (l : list A) :
  List.length (Sql.order_by le ties l) = List.length l.
Proof.
  induction l as [| x l IH]; simpl; [reflexivity |].
  rewrite <- IH. unfold Sql.order_by.
  generalize (fold_right (Sql.insert_by (Sql.then_by le ties)) [] l) as s.
  induction s as [| z s IHs]; simpl; [reflexivity |].
  destruct (Sql.then_by le ties x z); simpl; [reflexivity | now rewrite IHs].
Qed.

End OrderBy.

Lemma In_firstn {A} (n : nat) (l : list A) (x : A) :
  In x (firstn n l) -> In x l.
Proof.
  intro H. rewrite <- (firstn_skipn n l). apply in_or_app. now left.
Qed.

Lemma In_skipn {A} (n : nat) (l : list A) (x : A) :
  In x (skipn n l) -> In x l.
Proof.
  intro H. rewrite <- (firstn_skipn n l). apply in_or_app. now right.
Qed.

Lemma StronglySorted_skipn {A} (R : A -> A -> Prop) (n : nat) (l : list A) :
  StronglySorted R l -> StronglySorted R (skipn n l).
Proof.
  revert l. induction n as [| n IH]; intros l H; simpl.
  - exact H.
  - destruct l as [| x l]; [constructor |].
    apply IH. now inversion H.
Qed.

Lemma StronglySorted_firstn {A} (R : A -> A -> Prop) (n : nat) (l : list A) :
  StronglySorted R l -> StronglySorted R (firstn n l).
Proof.
  revert l. induction n as [| n IH]; intros l H; simpl.
  - constructor.
  - destruct l as [| x l]; [constructor |].
    inversion H as [| ? ? Hs Hx]; subst.
    constructor; [apply IH, Hs |].
    rewrite Forall_forall in *. intros y Hy.
    apply Hx. eapply In_firstn; eauto.
Qed.

Lemma window_sorted {A} (R : A -> A -> Prop) (l o : Z) (rows : list A) :
  StronglySorted R rows -> StronglySorted R (Sql.window l o rows).
Proof.
  intro H. unfold Sql.window.
  destruct (l <? 0).
  - apply StronglySorted_skipn, H.
  - apply StronglySorted_firstn, StronglySorted_skipn, H.
Qed.

Lemma window_In {A} (l o : Z) (rows : list A) (x : A) :
  In x (Sql.window l o rows) -> In x rows.
Proof.
  unfold Sql.window. intro H.
  destruct (l <? 0).
  - eapply In_skipn; eauto.
  - eapply In_skipn. eapply In_firstn; eauto.
Qed.

Lemma StronglySorted_map {A B} (R : A -> A -> Prop) (Q : B -> B -> Prop)
    (f : A -> B) (l : list A) :
  (forall a b, R a b -> Q (f a) (f b)) ->
  StronglySorted R l -> StronglySorted Q (map f l).
Proof.
  intros Hf. induction 1 as [| x l Hs IH Hx]; simpl; constructor.
  - exact IH.
  - rewrite Forall_forall in *. intros y Hy.
    apply in_map_iff in Hy. destruct Hy as (a & <- & Ha).
    apply Hf, Hx, Ha.
Qed.

(* ================================================================= *)
(** ** Sorting by priority *)

Lemma sort_le_priority (o : SortOrder) (a b : Row.t) :
  TodoRepository.sort_le PRIORITY o a b
  = match o with
    | ASC => TodoRepository.priority_rank (Row.priority a)
             <=? TodoRepository.priority_rank (Row.priority b)
    | DESC => TodoRepository.priority_rank (Row.priority b)
              <=? TodoRepository.priority_rank (Row.priority a)
    end.
Proof. destruct o; reflexivity. Qed.

Lemma page_rows_by_priority (o : SortOrder) (params : TodoQueryParams.t)
    (ties : TodoQueryParams.t -> Row.t -> Row.t -> bool) (table : list Row.t) :
  TodoRepository.sortBy_of params = PRIORITY ->
  TodoRepository.sortOrder_of params = o ->
  StronglySorted (fun a b => TodoRepository.sort_le PRIORITY o a b = true)
    (TodoRepository.page_rows ties params table).
Proof.
  intros Hs Ho. unfold TodoRepository.page_rows. rewrite Hs, Ho.
  apply window_sorted, order_by_sorted.
  - intros a b. rewrite !sort_le_priority. destruct o; lia.
  - intros a b c. rewrite !sort_le_priority. destruct o; lia.
Qed.

Lemma ascending_ranks_blocks (l : list TodoPriority) :
  StronglySorted
    (fun a b => TodoRepository.priority_rank a <= TodoRepository.priority_rank b) l ->
  high_medium_low l.
Proof.
  induction 1 as [| x l _ IH Hx].
  - exists 0%nat, 0%nat, 0%nat. reflexivity.
  - destruct IH as (h & m & k & ->).
    destruct x.
    + destruct h as [| h]; [| inversion Hx; cbn in *; lia].
      destruct m as [| m]; [| inversion Hx; cbn in *; lia].
      exists 0%nat, 0%nat, (S k). reflexivity.
    + destruct h as [| h]; [| inversion Hx; cbn in *; lia].
      exists 0%nat, (S m), k. reflexivity.
    + exists (S h), m, k. reflexivity.
Qed.

Lemma descending_ranks_blocks (l : list TodoPriority) :
  StronglySorted
    (fun a b => TodoRepository.priority_rank b <= TodoRepository.priority_rank a) l ->
  low_medium_high l.
Proof.
  induction 1 as [| x l _ IH Hx].
  - exists 0%nat, 0%nat, 0%nat. reflexivity.
  - destruct IH as (h & m & k & ->).
    destruct x.
    + exists h, m, (S k). reflexivity.
    + destruct k as [| k]; [| inversion Hx; cbn in *; lia].
      exists h, (S m), 0%nat. reflexivity.
    + destruct k as [| k]; [| inversion Hx; cbn in *; lia].
      destruct m as [| m]; [| inversion Hx; cbn in *; lia].
      exists (S h), 0%nat, 0%nat. reflexivity.
Qed.

(** C3.  Whatever the table and the other fields of a query that stays
    within the limits of SQLite, [findAll] with [sortBy = priority] returns,
    for [sortOrder = asc], the records with the high priorities first, then
    the medium ones, then the low ones, and for [sortOrder = desc] the low
    ones first, then the medium ones, then the high ones; three tasks created
    with priorities low, high, medium come back in the order high, medium,
    low. *)
Theorem C3_findAll_sorts_by_priority_rank
    (w : World) (filter : option TodoFilter) (page limit : option Z)
    (search : option jsstring) (priority : option TodoPriority)
    (tags : option (list jsstring))
    (Hlimits : within_limits
                 (TodoQueryParams.mk filter (Some PRIORITY) (Some ASC) page
                    limit search priority tags) = true) :
  returns
    (TodoRepository.findAll
       (TodoQueryParams.mk filter (Some PRIORITY) (Some ASC) page limit
          search priority tags)) w
    (fun response =>
       high_medium_low (map ITodo.priority (PaginatedResponse.data response)))
  /\ returns
       (TodoRepository.findAll
          (TodoQueryParams.mk filter (Some PRIORITY) (Some DESC) page limit
             search priority tags)) w
       (fun response =>
          low_medium_high (map ITodo.priority (PaginatedResponse.data response)))
  /\ returns scenario_B ticking_world
       (fun priorities => priorities = [HIGH; MEDIUM; LOW]).
Proof.
  split; [| split].
  - set (params := TodoQueryParams.mk _ _ _ _ _ _ _ _) in *.
    destruct (findAll_runs params w Hlimits) as (data & w' & E & Hf & _).
    unfold returns. rewrite E. cbn.
    rewrite (shows_priorities _ _ Hf).
    apply ascending_ranks_blocks.
    apply (StronglySorted_map _ _ Row.priority _)
      with (2 := page_rows_by_priority ASC params (scan w) (todos w)
                   eq_refl eq_refl).
    intros a b. rewrite sort_le_priority. lia.
  - set (params := TodoQueryParams.mk filter (Some PRIORITY) (Some DESC) page
                     limit search priority tags).
    destruct (findAll_runs params w Hlimits) as (data & w' & E & Hf & _).
    unfold returns. rewrite E. cbn.
    rewrite (shows_priorities _ _ Hf).
    apply descending_ranks_blocks.
    apply (StronglySorted_map _ _ Row.priority _)
      with (2 := page_rows_by_priority DESC params (scan w) (todos w)
                   eq_refl eq_refl).
    intros a b. rewrite sort_le_priority. lia.
  - vm_compute. reflexivity.
Qed.

(** Five tasks, the second page of two, sorted by priority. *)
Lemma C3_findAll_sorts_by_priority_rank_witness :
  within_limits
    (TodoQueryParams.mk None (Some PRIORITY) (Some ASC) (Some 2) (Some 2)
       None None None) = true
  /\ returns
       (TodoRepository.findAll
          (TodoQueryParams.mk None (Some PRIORITY) (Some ASC) (Some 2) (Some 2)
             None None None)) five_tasks_world
       (fun response =>
          high_medium_low
            (map ITodo.priority (PaginatedResponse.data response)))
  /\ returns
       (TodoRepository.findAll
          (TodoQueryParams.mk None (Some PRIORITY) (Some DESC) (Some 2) (Some 2)
             None None None)) five_tasks_world
       (fun response =>
          low_medium_high
            (map ITodo.priority (PaginatedResponse.data response)))
  /\ returns scenario_B ticking_world
       (fun priorities => priorities = [HIGH; MEDIUM; LOW]).
Proof.
  split; [reflexivity |].
  apply (C3_findAll_sorts_by_priority_rank five_tasks_world None (Some 2)
           (Some 2) None None None).
  reflexivity.
Defined.

(* ================================================================= *)
(** ** Pagination *)

Lemma Math_ceil_div_bounds (a b : Z) :
  0 < b ->
  exists pages : Z,
    Math_ceil_div a b = Num pages /\ (pages - 1) * b < a <= pages * b.
Proof.
  intro Hb. unfold Math_ceil_div.
  replace (b =? 0) with false by (symmetry; apply Z.eqb_neq; lia).
  exists (- (- a / b)). split; [reflexivity |].
  pose proof (Z.div_mod (- a) b ltac:(lia)) as Hd.
  pose proof (Z.mod_pos_bound (- a) b Hb) as Hm.
  nia.
Qed.

Lemma window_beyond {A} (l o : Z) (rows : list A) :
  Z.of_nat (List.length rows) <= o -> Sql.window l o rows = [].
Proof.
  intro H. unfold Sql.window.
  rewrite skipn_all2 by lia.
  destruct (l <? 0); [reflexivity | apply firstn_nil].
Qed.

(** A product of integers is exact up to 2^53; beyond, rounding keeps it
    above 2^53. *)
Lemma Number_of_Z_exact (x : Z) : Z.abs x <= 2 ^ 53 -> Number_of_Z x = x.
Proof.
  intro H. unfold Number_of_Z.
  replace (Z.abs x <=? 2 ^ 53) with true by (symmetry; apply Z.leb_le, H).
  reflexivity.
Qed.

Lemma Number_of_Z_reaches (t x : Z) :
  0 <= x -> t <= 2 ^ 53 -> t <= x -> t <= Number_of_Z x.
Proof.
  intros Hx Ht Htx. unfold Number_of_Z.
  destruct (Z.abs x <=? 2 ^ 53) eqn:E; [exact Htx |].
  apply Z.leb_gt in E. rewrite Z.abs_eq in * by exact Hx.
  assert (Hpos : 0 < x) by (pose proof (Z.pow_pos_nonneg 2 53); lia).
  rewrite (Z.sgn_pos x Hpos), Z.mul_1_l.
  assert (Hlog : 53 <= Z.log2 x).
  { rewrite <- (Z.log2_pow2 53) by lia. apply Z.log2_le_mono. lia. }
  destruct (Z.log2_spec x Hpos) as [Hlo _].
  set (e := Z.log2 x - 52) in *.
  assert (He : 0 < 2 ^ e) by (apply Z.pow_pos_nonneg; lia).
  assert (Hsplit : 2 ^ Z.log2 x = 2 ^ 52 * 2 ^ e).
  { rewrite <- Z.pow_add_r by lia. f_equal. lia. }
  assert (Hq : 2 ^ 52 <= x / 2 ^ e).
  { apply Z.div_le_lower_bound; [exact He |]. lia. }
  assert (Hbig : 2 ^ 53 <= 2 ^ Z.log2 x) by (apply Z.pow_le_mono_r; lia).
  set (q := x / 2 ^ e) in *.
  assert (Hup : q * 2 ^ e
                <= (if (2 ^ e <? 2 * (x mod 2 ^ e))
                       || (2 ^ e =? 2 * (x mod 2 ^ e)) && Z.odd q
                    then q + 1 else q) * 2 ^ e).
  { destruct ((2 ^ e <? 2 * (x mod 2 ^ e))
              || (2 ^ e =? 2 * (x mod 2 ^ e)) && Z.odd q); nia. }
  nia.
Qed.

Lemma offset_exact (params : TodoQueryParams.t) :
  1 <= TodoRepository.page_of params ->
  0 <= TodoRepository.limit_of params ->
  (TodoRepository.page_of params - 1) * TodoRepository.limit_of params
  <= 2 ^ 53 ->
  TodoRepository.offset_of params
  = (TodoRepository.page_of params - 1) * TodoRepository.limit_of params.
Proof.
  intros Hp Hl Hx. unfold TodoRepository.offset_of, Number_mul, Number_sub.
  destruct (Z.eq_dec (TodoRepository.limit_of params) 0) as [E | E].
  - rewrite E, !Z.mul_0_r. reflexivity.
  - rewrite (Number_of_Z_exact (TodoRepository.page_of params - 1)) by nia.
    apply Number_of_Z_exact. rewrite Z.abs_eq by nia. exact Hx.
Qed.

Lemma offset_reaches (params : TodoQueryParams.t) (t : Z) :
  1 <= TodoRepository.page_of params ->
  0 <= TodoRepository.limit_of params ->
  t <= 2 ^ 53 ->
  t <= (TodoRepository.page_of params - 1) * TodoRepository.limit_of params ->
  t <= TodoRepository.offset_of params.
Proof.
  intros Hp Hl Ht Hx. unfold TodoRepository.offset_of, Number_mul, Number_sub.
  pose proof (Number_of_Z_reaches 0 (TodoRepository.page_of params - 1)
                ltac:(lia) ltac:(pose proof (Z.pow_pos_nonneg 2 53); lia)
                ltac:(lia)) as H0.
  apply Number_of_Z_reaches; [nia | exact Ht |].
  destruct (Z_le_gt_dec (TodoRepository.page_of params - 1) (2 ^ 53))
    as [Hs | Hs].
  - rewrite Number_of_Z_exact by (rewrite Z.abs_eq; lia). exact Hx.
  - pose proof (Number_of_Z_reaches (2 ^ 53)
                  (TodoRepository.page_of params - 1)
                  ltac:(lia) ltac:(lia) ltac:(lia)) as Hr.
    destruct (Z.eq_dec (TodoRepository.limit_of params) 0) as [E | E].
    + rewrite E in *. lia.
    + nia.
Qed.



(** A search whose pattern has more than 50000 bytes is refused as soon as
    the table holds a row. *)
Lemma findAll_refuses_long_search (s : jsstring) (w : World) :
  todos w <> [] ->
  JsString.trim s <> [] ->
  Sql.SQLITE_MAX_LIKE_PATTERN_LENGTH
  < Sql.utf8_length (TodoRepository.searchPattern s) ->
  fst (TodoRepository.findAll (only_search s) w)
  = Throw (SqliteError LIKE_PATTERN_TOO_COMPLEX).
Proof.
  intros Hrows Hs Hlong.
  assert (Ht : JsString.truthy s
               && (0 <? JsString.length (JsString.trim s)) = true).
  { apply andb_true_iff. split.
    - destruct s; [exfalso; apply Hs; reflexivity | reflexivity].
    - unfold JsString.length. destruct (JsString.trim s); [contradiction |].
      reflexivity. }
  unfold TodoRepository.findAll, TodoRepository.getDatabase, bind, lift.
  replace (Sql.prepare (TodoRepository.where_variables (only_search s))
             (TodoRepository.where_depth (only_search s)))
    with (Ok tt).
  2:{ unfold TodoRepository.where_variables, TodoRepository.where_depth.
      cbn. rewrite Ht. reflexivity. }
  assert (Hr : forall r,
             TodoRepository.where_or_error (only_search s) r
             = Throw (SqliteError LIKE_PATTERN_TOO_COMPLEX)).
  { intro r. unfold TodoRepository.where_or_error.
    change (TodoRepository.status_clause
              (TodoRepository.filter_of (only_search s)) r) with true.
    change (TodoRepository.priority_clause
              (TodoQueryParams.priority (only_search s)) r) with true.
    cbn [negb]. change (TodoQueryParams.search (only_search s)) with (Some s).
    unfold TodoRepository.search_or_error. rewrite Ht.
    unfold Sql.like_or_error.
    replace (Sql.SQLITE_MAX_LIKE_PATTERN_LENGTH
             <? Sql.utf8_length (TodoRepository.searchPattern s)) with true
      by (symmetry; apply Z.ltb_lt; exact Hlong).
    reflexivity. }
  destruct (todos w) as [| r rows]; [contradiction |].
  cbn [Sql.select]. rewrite Hr. reflexivity.
Qed.

Lemma utf8_length_letters (n : nat) (rest : jsstring) :
  Sql.utf8_length (repeat 97%N n ++ rest)
  = Z.of_nat n + Sql.utf8_length rest.
Proof.
  induction n as [| n IH]; [reflexivity |].
  cbn [repeat app Sql.utf8_length]. change (97 <? 128)%N with true.
  cbv iota. rewrite IH. lia.
Qed.

Lemma trim_letters (n : nat) : JsString.trim (repeat 97%N n) = repeat 97%N n.
Proof.
  assert (H : JsString.trimStart (repeat 97%N n) = repeat 97%N n)
    by (destruct n; reflexivity).
  unfold JsString.trim, JsString.trimEnd.
  now rewrite H, rev_repeat, H, rev_repeat.
Qed.

Lemma letters_pattern_length (n : nat) :
  Sql.utf8_length (TodoRepository.searchPattern (repeat 97%N n))
  = Z.of_nat n + 2.
Proof.
  unfold TodoRepository.searchPattern. rewrite trim_letters.
  change ([Sql.percent] ++ repeat 97%N n ++ [Sql.percent])
    with (Sql.percent :: (repeat 97%N n ++ [Sql.percent])).
  cbn [Sql.utf8_length]. change (Sql.percent <? 128)%N with true. cbv iota.
  rewrite utf8_length_letters. cbn [Sql.utf8_length].
  change (Sql.percent <? 128)%N with true. cbv iota. lia.
Qed.

Lemma long_search_is_long :
  JsString.trim long_search <> []
  /\ Sql.SQLITE_MAX_LIKE_PATTERN_LENGTH
     < Sql.utf8_length (TodoRepository.searchPattern long_search).
Proof.
  unfold long_search. split.
  - rewrite trim_letters.
    destruct (Z.to_nat 49999) eqn:E; [lia | discriminate].
  - rewrite letters_pattern_length, Z2Nat.id by lia. reflexivity.
Qed.

Lemma five_tasks_world_has_rows : todos five_tasks_world <> [].
Proof. vm_compute. discriminate. Qed.


(** Scenario C: five tasks, two per page.  Page 1 holds two items and has a
    next page but no previous one; page 3 holds one item and has a previous
    page but no next one; page 4 is empty, with the same totals. *)
Example findAll_five_tasks_two_per_page :
  returns (TodoRepository.findAll (page_limit 1 2)) five_tasks_world
    (fun response =>
       List.length (PaginatedResponse.data response) = 2%nat
       /\ PaginatedResponse.meta response
          = PaginationMeta.mk 1 (Num 3) 5 2 true false)
  /\ returns (TodoRepository.findAll (page_limit 3 2)) five_tasks_world
       (fun response =>
          List.length (PaginatedResponse.data response) = 1%nat
          /\ PaginatedResponse.meta response
             = PaginationMeta.mk 3 (Num 3) 5 2 false true)
  /\ returns (TodoRepository.findAll (page_limit 4 2)) five_tasks_world
       (fun response =>
          PaginatedResponse.data response = []
          /\ PaginatedResponse.meta response
             = PaginationMeta.mk 4 (Num 3) 5 2 false true).
Proof. vm_compute. repeat split. Qed.

(* ================================================================= *)
(** ** Validation of the query *)

(** Negative pages, negative limits and limits above 100 are rejected
    before the repository is called. *)
Lemma getAllTodos_rejects_page (params : TodoQueryParams.t) (w : World)
    (page : Z) :
  TodoQueryParams.page params = Some page -> page < 0 ->
  TodoService.getAllTodos params w
  = (Throw (ValidationError (PageTooSmall page)), w).
Proof.
  intros Hp Hneg. unfold TodoService.getAllTodos, bind. rewrite Hp.
  replace (page =? 0) with false by (symmetry; apply Z.eqb_neq; lia).
  replace (page <? 1) with true by (symmetry; apply Z.ltb_lt; lia).
  reflexivity.
Qed.

Lemma getAllTodos_rejects_limit (params : TodoQueryParams.t) (w : World)
    (limit : Z) :
  1 <= TodoRepository.page_of params ->
  TodoQueryParams.limit params = Some limit ->
  limit < 0 \/ 100 < limit ->
  exists info : ValidationInfo,
    (info = LimitTooSmall limit \/ info = LimitTooLarge limit)
    /\ TodoService.getAllTodos params w = (Throw (ValidationError info), w).
Proof.
  intros Hp Hl Hout. unfold TodoService.getAllTodos, bind.
  unfold TodoRepository.page_of in Hp. rewrite Hl.
  assert (Hpage : TodoService.check
                    match TodoQueryParams.page params with
                    | Some page =>
                        if negb (page =? 0) && (page <? 1)
                        then Some (PageTooSmall page) else None
                    | None => None
                    end w = (Ok tt, w)).
  { destruct (TodoQueryParams.page params) as [page |]; [| reflexivity].
    replace (page <? 1) with false by (symmetry; apply Z.ltb_ge; lia).
    rewrite andb_false_r. reflexivity. }
  rewrite Hpage.
  replace (limit =? 0) with false by (symmetry; apply Z.eqb_neq; lia).
  destruct Hout as [Hneg | Hbig].
  - exists (LimitTooSmall limit). split; [now left |].
    replace (limit <? 1) with true by (symmetry; apply Z.ltb_lt; lia).
    reflexivity.
  - exists (LimitTooLarge limit). split; [now right |].
    replace (limit <? 1) with false by (symmetry; apply Z.ltb_ge; lia).
    replace (100 <? limit) with true by (symmetry; apply Z.ltb_lt; lia).
    reflexivity.
Qed.

(** The schema of the HTTP layer refuses the page 0 and the limit 0. *)
Lemma queryParamsSchema_refuses_zero :
  queryParamsSchema_page 0 = false /\ queryParamsSchema_limit 0 = false.
Proof. split; reflexivity. Qed.

(** C5 fails at zero.  [getAllTodos] guards its checks with
    [params.page && ...] and [params.limit && ...], and 0 is falsy: with
    [page = 0], and with [limit = 0], no error is thrown and the query runs,
    answering with [currentPage = 0], respectively [itemsPerPage = 0] and
    an empty page. *)
Theorem C5_getAllTodos_accepts_zero_page_and_zero_limit (w : World) :
  returns (TodoService.getAllTodos (only_page 0)) w
    (fun response =>
       PaginationMeta.currentPage (PaginatedResponse.meta response) = 0)
  /\ returns (TodoService.getAllTodos (only_limit 0)) w
       (fun response =>
          PaginationMeta.itemsPerPage (PaginatedResponse.meta response) = 0
          /\ PaginatedResponse.data response = []).
Proof.
  split.
  - destruct (findAll_runs (only_page 0) w eq_refl) as (data & w' & E & _).
    assert (Hg : TodoService.getAllTodos (only_page 0) w
                 = TodoRepository.findAll (only_page 0) w) by reflexivity.
    unfold returns. rewrite Hg, E. reflexivity.
  - destruct (findAll_runs (only_limit 0) w eq_refl)
      as (data & w' & E & Hf & _).
    assert (Hg : TodoService.getAllTodos (only_limit 0) w
                 = TodoRepository.findAll (only_limit 0) w) by reflexivity.
    unfold returns. rewrite Hg, E. cbn. split; [reflexivity |].
    unfold TodoRepository.page_rows, Sql.window in Hf.
    cbn [TodoRepository.limit_of only_limit TodoQueryParams.limit Z.ltb
           Z.compare Z.to_nat firstn] in Hf.
    now inversion Hf.
Qed.

(* ================================================================= *)
(** ** Statistics *)

Lemma completionRate_of_empty (completed : Z) :
  TodoRepository.completionRate completed 0 = Num 0.
Proof. reflexivity. Qed.

(** Up to 39 tasks the rate is the one of the specification. *)
Lemma completionRate_agrees_below_40 : rates_agree_up_to 39 = true.
Proof. vm_compute. reflexivity. Qed.

(** The table of 40 tasks satisfies the constraints of the schema: its rows
    pass the CHECK clauses and their identifiers are pairwise distinct. *)
Lemma tasks_world_is_well_formed :
  forallb Sql.check_constraints (todos (tasks_world 23 40)) = true
  /\ NoDup (map Row.id (todos (tasks_world 23 40))).
Proof.
  split; [vm_compute; reflexivity |].
  assert (H : nodup (list_eq_dec N.eq_dec)
                (map Row.id (todos (tasks_world 23 40)))
              = map Row.id (todos (tasks_world 23 40)))
    by (vm_compute; reflexivity).
  rewrite <- H. apply NoDup_nodup.
Qed.

(** C8 fails on a table of 40 tasks of which 23 are completed.  The
    specification asks for [100 * 23 / 40 = 57.5] rounded half-up, 58;
    [getStats] computes [(23 / 40) * 100] in double precision, which is
    [57.49999999999999], and [Math.round] answers 57. *)
Theorem C8_completionRate_of_23_in_40 :
  returns TodoService.getStats (tasks_world 23 40)
    (fun stats =>
       TodoStats.total stats = 40
       /\ TodoStats.completed stats = 23
       /\ TodoStats.completionRate stats = Num 57)
  /\ round_half_up_percent 23 40 = 58.
Proof. vm_compute. repeat split. Qed.

(* ================================================================= *)
(** ** Creating, then fetching *)

Lemma JsString_eqb_refl (a : jsstring) : JsString.eqb a a = true.
Proof.
  unfold JsString.eqb. destruct (list_eq_dec N.eq_dec a a); congruence.
Qed.

Lemma Sql_length_le (s : jsstring) : Sql.length s <= JsString.length s.
Proof.
  unfold JsString.length.
  induction s as [| c s IH]; [simpl; lia |].
  change (Sql.length (c :: s))
    with (if (c =? 0)%N then 0 else 1 + Sql.length s).
  destruct (c =? 0)%N; simpl List.length; lia.
Qed.

Lemma Sql_length_title (s : jsstring) :
  forallb TodoService.title_unit_ok s = true ->
  Sql.length s = JsString.length s.
Proof.
  unfold JsString.length.
  induction s as [| c s IH]; intro H; [reflexivity |].
  simpl in H. apply andb_true_iff in H. destruct H as [Hc Hs].
  change (Sql.length (c :: s))
    with (if (c =? 0)%N then 0 else 1 + Sql.length s).
  destruct (c =? 0)%N eqn:E.
  - apply N.eqb_eq in E. subst c. discriminate.
  - rewrite (IH Hs). simpl List.length. lia.
Qed.

(** An input that passes the creation rules and has no due date gives a row
    that passes the CHECK clauses. *)
Lemma valid_dto_passes_checks (dto : CreateTodoDto.t) (w : World) (row : Row.t) :
  TodoService.validateCreateTodoDto dto = None ->
  CreateTodoDto.dueDate dto = None ->
  (exists todo w', Todo.create dto w = (Ok todo, w')
                   /\ Todo.toDatabase todo = Ok row) ->
  Sql.check_constraints row = true.
Proof.
  intros Hv Hd (todo & w' & Hc & Hr).
  rewrite create_runs in Hc. inversion Hc; subst todo; clear Hc.
  unfold Todo.toDatabase in Hr. cbn in Hr. rewrite Hd in Hr. cbn in Hr.
  inversion Hr; subst row; clear Hr.
  unfold TodoService.validateCreateTodoDto, TodoService.or_check in Hv.
  destruct (TodoService.validate_title (CreateTodoDto.title dto)) eqn:Ht;
    [discriminate |].
  destruct (TodoService.validate_description (CreateTodoDto.description dto))
    eqn:Hde; [discriminate |].
  unfold Sql.check_constraints, Sql.check_title, Sql.check_description,
    Sql.check_completed. cbn.
  rewrite !andb_true_r.
  apply andb_true_iff. split.
  - unfold TodoService.validate_title in Ht.
    destruct (negb (JsString.truthy (CreateTodoDto.title dto))
              || (JsString.length (JsString.trim (CreateTodoDto.title dto)) =? 0));
      [discriminate |].
    destruct (JsString.length (CreateTodoDto.title dto) <? 3) eqn:E3;
      [discriminate |].
    destruct (100 <? JsString.length (CreateTodoDto.title dto)) eqn:E100;
      [discriminate |].
    destruct (TodoService.titleRegex_test (CreateTodoDto.title dto)) eqn:Er;
      [| discriminate].
    unfold TodoService.titleRegex_test in Er.
    apply andb_true_iff in Er. destruct Er as [_ Er].
    rewrite (Sql_length_title _ Er).
    apply andb_true_iff. split; [apply Z.leb_le | apply Z.leb_le];
      [apply Z.ltb_ge in E3 | apply Z.ltb_ge in E100]; lia.
  - unfold TodoService.validate_description in Hde.
    destruct (CreateTodoDto.description dto) as [d |]; [| reflexivity].
    destruct (JsString.truthy d); [| reflexivity].
    destruct (500 <? JsString.length d) eqn:E; [discriminate |].
    apply Z.ltb_ge in E. apply Z.leb_le.
    pose proof (Sql_length_le d). lia.
Qed.

Lemma find_new_row (table : list Row.t) (row : Row.t) (id : jsstring) :
  Row.id row = id ->
  existsb (fun r => JsString.eqb (Row.id r) id) table = false ->
  List.find (fun r => JsString.eqb (Row.id r) id) (table ++ [row]) = Some row.
Proof.
  intros <-.
  induction table as [| r table IH]; simpl; intro H.
  - now rewrite JsString_eqb_refl.
  - apply orb_false_iff in H. destruct H as [Hr Ht].
    rewrite Hr. apply IH, Ht.
Qed.


(** C7 fails on an empty description.  [{title: "Buy milk", description: ""}]
    passes the creation rules; the todo returned by the creation has the
    description [""], but [toDatabase] stores [this.description || null], so
    that the todo fetched by its identifier has no description.  The other
    fields agree. *)
Theorem C7_empty_description_is_not_fetched_back :
  TodoService.validateCreateTodoDto empty_description = None
  /\ returns (create_then_fetch empty_description) ticking_world
       (fun '(created, fetched) =>
          ITodo.description created = Some []
          /\ ITodo.description fetched = None
          /\ ITodo.description created <> ITodo.description fetched
          /\ ITodo.id fetched = ITodo.id created
          /\ ITodo.title fetched = ITodo.title created
          /\ ITodo.completed fetched = ITodo.completed created
          /\ ITodo.priority fetched = ITodo.priority created
          /\ ITodo.dueDate fetched = ITodo.dueDate created
          /\ ITodo.tags fetched = ITodo.tags created
          /\ ITodo.createdAt fetched = ITodo.createdAt created
          /\ ITodo.completedAt fetched = ITodo.completedAt created).
Proof. vm_compute. repeat split; discriminate. Qed.

(** Whatever the world, an input that passes the creation rules and carries
    a valid due date is not stored: the INSERT fails and the table is the one
    of the call. *)
Lemma createTodo_with_due_date_throws (dto : CreateTodoDto.t) (w : World)
    (ms : Z) :
  TodoService.validateCreateTodoDto dto = None ->
  CreateTodoDto.dueDate dto = Some (MkDate ms) ->
  (exists c : SqliteCode,
      fst (TodoService.createTodo dto w) = Throw (SqliteError c))
  /\ table_after (TodoService.createTodo dto) w = todos w.
Proof.
  intros Hv Hd.
  unfold table_after, TodoService.createTodo, TodoRepository.create,
    TodoRepository.run, TodoRepository.transaction, TodoService.check,
    bind, lift.
  rewrite Hv. cbn [ret fst snd]. rewrite create_runs.
  unfold Todo.toDatabase. cbn. rewrite Hd. cbn.
  unfold Sql.insert, Sql.check_constraints. cbn.
  rewrite andb_false_r. cbn.
  split; [exists CHECK; reflexivity | reflexivity].
Qed.

(** An input with a due date passes the creation rules, but its row fails
    the CHECK of [due_date]: the text [toISOString] prints is not the text
    [datetime()] prints.  The creation throws and stores nothing. *)
Lemma createTodo_with_due_date_fails_the_check :
  TodoService.validateCreateTodoDto with_due_date = None
  /\ fst (TodoService.createTodo with_due_date ticking_world)
     = Throw (SqliteError CHECK)
  /\ table_after (TodoService.createTodo with_due_date) ticking_world = [].
Proof. vm_compute. repeat split. Qed.

(* ================================================================= *)
(** ** LIKE and the search *)

Lemma like_percent_unfold (rest text : jsstring) :
  Sql.patternCompare (Sql.percent :: rest) text
  = Sql.patternCompare rest text
    || match text with
       | [] => false
       | _ :: text' => Sql.patternCompare (Sql.percent :: rest) text'
       end.
Proof. destruct text; reflexivity. Qed.

Lemma like_literal_unfold (c : N) (rest text : jsstring) :
  c <> Sql.percent ->
  Sql.patternCompare (c :: rest) text
  = match text with
    | [] => false
    | d :: text' =>
        ((c =? Sql.underscore)%N || (Sql.lower c =? Sql.lower d)%N)
        && Sql.patternCompare rest text'
    end.
Proof.
  intro Hc. simpl.
  destruct (c =? Sql.percent)%N eqn:E.
  - apply N.eqb_eq in E. contradiction.
  - reflexivity.
Qed.

(** [%] absorbs any prefix of the text. *)
Lemma like_percent (rest text : jsstring) :
  Sql.patternCompare (Sql.percent :: rest) text = true
  <-> exists t1 t2 : jsstring, text = t1 ++ t2 /\ Sql.patternCompare rest t2 = true.
Proof.
  induction text as [| d text IH]; rewrite like_percent_unfold.
  - rewrite orb_false_r. split.
    + intro H. exists [], []. auto.
    + intros (t1 & t2 & Ht & Hl).
      symmetry in Ht. apply app_eq_nil in Ht. destruct Ht as [_ ->]. exact Hl.
  - rewrite orb_true_iff, IH. split.
    + intros [H | (t1 & t2 & -> & Hl)].
      * exists [], (d :: text). auto.
      * exists (d :: t1), t2. auto.
    + intros (t1 & t2 & Ht & Hl).
      destruct t1 as [| d' t1]; simpl in Ht.
      * left. now subst t2.
      * right. inversion Ht; subst. exists t1, t2. auto.
Qed.

(** A run of literal characters matches a prefix equal to it up to the case. *)
Lemma like_literal (s : jsstring) :
  wildcard_free s ->
  forall rest text : jsstring,
    Sql.patternCompare (s ++ rest) text = true
    <-> exists t1 t2 : jsstring,
          text = t1 ++ t2
          /\ map Sql.lower t1 = map Sql.lower s
          /\ Sql.patternCompare rest t2 = true.
Proof.
  induction 1 as [| c s [Hp Hu] _ IH]; intros rest text.
  - simpl. split.
    + intro H. exists [], text. auto.
    + intros (t1 & t2 & -> & Hm & Hl).
      apply map_eq_nil in Hm. now subst t1.
  - simpl app. rewrite like_literal_unfold by exact Hp.
    replace (c =? Sql.underscore)%N with false
      by (symmetry; apply N.eqb_neq; exact Hu).
    simpl orb.
    destruct text as [| d text].
    + split; [discriminate |].
      intros (t1 & t2 & Ht & Hm & _).
      destruct t1; simpl in *; discriminate.
    + rewrite andb_true_iff, N.eqb_eq, IH. split.
      * intros (Hc & t1 & t2 & -> & Hm & Hl).
        exists (d :: t1), t2. simpl. rewrite Hm, Hc. auto.
      * intros (t1 & t2 & Ht & Hm & Hl).
        destruct t1 as [| d' t1]; simpl in *; [discriminate |].
        inversion Ht; subst. inversion Hm.
        split; [congruence |]. exists t1, t2. auto.
Qed.

(** A text without U+0000 is read whole. *)
Lemma c_string_cons (c : N) (s : jsstring) :
  nul_free (c :: s) -> c <> 0%N /\ nul_free s.
Proof.
  unfold nul_free. cbn [Sql.c_string].
  destruct (c =? 0)%N eqn:E; [discriminate |].
  apply N.eqb_neq in E. intro H. inversion H as [H']. rewrite H'. auto.
Qed.

Lemma c_string_app (s rest : jsstring) :
  nul_free s -> Sql.c_string (s ++ rest) = s ++ Sql.c_string rest.
Proof.
  induction s as [| c s IH]; intro H; [reflexivity |].
  apply c_string_cons in H. destruct H as [Hc Hs].
  cbn [app Sql.c_string].
  replace (c =? 0)%N with false by (symmetry; apply N.eqb_neq; exact Hc).
  now rewrite (IH Hs).
Qed.

Lemma c_string_searchPattern (s : jsstring) :
  nul_free (JsString.trim s) ->
  Sql.c_string (TodoRepository.searchPattern s)
  = TodoRepository.searchPattern s.
Proof.
  intro H. unfold TodoRepository.searchPattern.
  change ([Sql.percent] ++ JsString.trim s ++ [Sql.percent])
    with (Sql.percent :: (JsString.trim s ++ [Sql.percent])).
  cbn [Sql.c_string]. change (Sql.percent =? 0)%N with false. cbn iota.
  now rewrite (c_string_app _ _ H).
Qed.

(** [%s%] for a literal [s]: [s] occurs in the text, read up to its first
    U+0000, up to the ASCII case. *)
Lemma like_searchPattern (s text : jsstring) :
  wildcard_free (JsString.trim s) ->
  nul_free (JsString.trim s) ->
  Sql.like (TodoRepository.searchPattern s) text = true
  <-> occurs_ci (JsString.trim s) (Sql.c_string text).
Proof.
  intros Hw Hn. unfold Sql.like. rewrite (c_string_searchPattern s Hn).
  generalize (Sql.c_string text). clear text. intro text.
  unfold TodoRepository.searchPattern, occurs_ci, occurs_under.
  simpl app. rewrite like_percent. split.
  - intros (t1 & t2 & -> & Hl).
    apply (like_literal _ Hw) in Hl.
    destruct Hl as (u1 & u2 & -> & Hm & _).
    exists (map Sql.lower t1), (map Sql.lower u2).
    now rewrite !map_app, Hm.
  - intros (pre & post & H).
    apply map_eq_app in H. destruct H as (t1 & t2 & -> & _ & H).
    apply map_eq_app in H. destruct H as (u1 & u2 & -> & Hm & _).
    exists t1, (u1 ++ u2). split; [reflexivity |].
    apply (like_literal _ Hw). exists u1, u2.
    repeat split; auto.
    apply like_percent. exists u2, []. split; [now rewrite app_nil_r | reflexivity].
Qed.

Lemma search_clause_literal (s : jsstring) (row : Row.t) :
  JsString.trim s <> [] ->
  wildcard_free (JsString.trim s) ->
  nul_free (JsString.trim s) ->
  TodoRepository.search_clause (Some s) row = true <-> search_matches s row.
Proof.
  intros Hn Hw H0. unfold TodoRepository.search_clause, search_matches.
  assert (Hs : JsString.truthy s
               && (0 <? JsString.length (JsString.trim s)) = true).
  { apply andb_true_iff. split.
    - destruct s; [exfalso; apply Hn; reflexivity | reflexivity].
    - unfold JsString.length. destruct (JsString.trim s); [contradiction |].
      reflexivity. }
  rewrite Hs, orb_true_iff, like_searchPattern by assumption.
  split.
  - intros [H | H]; [now left |].
    destruct (Row.description row) as [d |]; [| discriminate].
    right. exists d. split; [reflexivity |].
    now apply like_searchPattern.
  - intros [H | (d & Hd & H)]; [now left |].
    right. rewrite Hd. now apply like_searchPattern.
Qed.

Lemma prefixb_app (s post : jsstring) : prefixb s (s ++ post) = true.
Proof.
  induction s as [| c s IH]; simpl; [reflexivity |].
  now rewrite N.eqb_refl, IH.
Qed.

Lemma occursb_unfold (s t : jsstring) :
  occursb s t
  = prefixb s t || match t with [] => false | _ :: t' => occursb s t' end.
Proof. destruct t; reflexivity. Qed.

Lemma occurs_under_occursb (fold : N -> N) (s t : jsstring) :
  occurs_under fold s t -> occursb (map fold s) (map fold t) = true.
Proof.
  intros (pre & post & ->).
  induction pre as [| c pre IH].
  - simpl app. rewrite occursb_unfold, prefixb_app. reflexivity.
  - simpl app. rewrite occursb_unfold, IH. apply orb_true_r.
Qed.

Lemma matching_rows_In (params : TodoQueryParams.t) (table : list Row.t)
    (row : Row.t) :
  In row (TodoRepository.matching_rows params table)
  <-> In row table /\ TodoRepository.where_clause params row = true.
Proof. unfold TodoRepository.matching_rows. apply filter_In. Qed.

Lemma page_rows_In (ties : TodoQueryParams.t -> Row.t -> Row.t -> bool)
    (params : TodoQueryParams.t) (table : list Row.t) (row : Row.t) :
  In row (TodoRepository.page_rows ties params table) ->
  In row (TodoRepository.matching_rows params table).
Proof.
  unfold TodoRepository.page_rows. intro H.
  apply window_In in H. now apply order_by_In in H.
Qed.

(** The first page holds every matching row when it is large enough. *)
Lemma page_rows_single_page
    (ties : TodoQueryParams.t -> Row.t -> Row.t -> bool)
    (params : TodoQueryParams.t) (table : list Row.t) (row : Row.t) :
  TodoRepository.page_of params = 1 ->
  Z.of_nat (List.length (TodoRepository.matching_rows params table))
  <= TodoRepository.limit_of params ->
  In row (TodoRepository.matching_rows params table) ->
  In row (TodoRepository.page_rows ties params table).
Proof.
  intros Hp Hl Hin.
  unfold TodoRepository.page_rows, Sql.window, TodoRepository.offset_of.
  rewrite Hp. change (Number_sub 1 1) with 0.
  change (Number_mul 0 (TodoRepository.limit_of params)) with 0.
  simpl skipn.
  replace (TodoRepository.limit_of params <? 0) with false
    by (symmetry; apply Z.ltb_ge; lia).
  rewrite firstn_all2 by (rewrite order_by_length; lia).
  now apply order_by_In.
Qed.




(* ================================================================= *)
(** ** The entity model, further *)

Lemma new_Date_runs (w : World) :
  new_Date w
  = (Ok (MkDate (clock w 0)),
     mkWorld (todos w) (fun n => clock w (S n)) (uuids w) (timezone w) (scan w)).
Proof. reflexivity. Qed.

(** [complete()] and [uncomplete()] are idempotent: a second call returns the
    todo of the first and does not read the clock. *)
Theorem complete_and_uncomplete_are_idempotent (t : ITodo.t) (w : World) :
  (exists (t1 : ITodo.t) (w1 : World),
      Todo.complete t w = (Ok t1, w1)
      /\ ITodo.completed t1 = true
      /\ Todo.complete t1 w1 = (Ok t1, w1))
  /\ (exists (t1 : ITodo.t) (w1 : World),
         Todo.uncomplete t w = (Ok t1, w1)
         /\ ITodo.completed t1 = false
         /\ (ITodo.completed t = true -> ITodo.completedAt t1 = None)
         /\ Todo.uncomplete t1 w1 = (Ok t1, w1)).
Proof.
  split.
  - unfold Todo.complete. destruct (ITodo.completed t) eqn:E.
    + exists t, w. rewrite E. repeat split; assumption.
    + eexists. eexists. split; [reflexivity |]. split; reflexivity.
  - unfold Todo.uncomplete. destruct (ITodo.completed t) eqn:E.
    + eexists. eexists. split; [reflexivity |]. repeat split.
    + exists t, w. rewrite E. repeat split; auto. discriminate.
Qed.

(** [toggle()] flips [completed] at each call and touches no field but
    [completed], [completedAt] and [updatedAt]; two calls give back the
    [completed] of the start, and the [completedAt] of a todo that was not
    completed and had none. *)
Theorem toggle_twice_restores_completion (t : ITodo.t) (w : World) :
  exists (t1 t2 : ITodo.t) (w1 w2 : World),
    Todo.toggle t w = (Ok t1, w1)
    /\ Todo.toggle t1 w1 = (Ok t2, w2)
    /\ ITodo.completed t1 = negb (ITodo.completed t)
    /\ ITodo.completed t2 = ITodo.completed t
    /\ same_content t1 t /\ same_content t2 t
    /\ (ITodo.completed t = false -> ITodo.completedAt t2 = None)
    /\ (ITodo.completed t = true ->
        ITodo.completedAt t1 = None
        /\ ITodo.completedAt t2 = Some (MkDate (clock w 1))).
Proof.
  unfold Todo.toggle, same_content.
  destruct (ITodo.completed t) eqn:E; cbn;
    do 4 eexists; (split; [reflexivity |]); cbn;
    (split; [reflexivity |]); cbn; repeat split; auto; discriminate.
Qed.

(** X1.  [isOverdue()] answers true exactly for a todo that is not completed and
    whose due date is valid and earlier than the clock; it answers false on
    whatever [complete()] returns. *)
Theorem isOverdue_characterised (t : ITodo.t) (w : World) :
  returns (Todo.isOverdue t) w
    (fun overdue =>
       overdue = true
       <-> ITodo.completed t = false
           /\ exists due : Z,
                ITodo.dueDate t = Some (MkDate due) /\ due < clock w 0)
  /\ returns (t1 <- Todo.complete t ;; Todo.isOverdue t1) w
       (fun overdue => overdue = false).
Proof.
  split.
  - unfold returns, Todo.isOverdue.
    destruct (ITodo.dueDate t) as [[due |] |] eqn:Ed; cbn.
    + destruct (ITodo.completed t) eqn:Ec; cbn.
      * split; [discriminate | intros [H _]; discriminate].
      * rewrite Z.ltb_lt. split.
        -- intro H. split; [reflexivity |]. exists due. auto.
        -- intros (_ & due' & Hd & Hlt). inversion Hd. now subst.
    + destruct (ITodo.completed t) eqn:Ec; cbn.
      * split; [discriminate | intros [H _]; discriminate].
      * split; [discriminate |]. intros (_ & due' & Hd & _). discriminate.
    + split; [discriminate |]. intros (_ & due' & Hd & _). discriminate.
  - unfold returns, Todo.complete, Todo.isOverdue, bind.
    destruct (ITodo.completed t) eqn:Ec; cbn.
    + rewrite Ec. destruct (ITodo.dueDate t); reflexivity.
    + destruct (ITodo.dueDate t); reflexivity.
Qed.

(** X2.  [update(updates)] never changes [id] nor [createdAt], whatever
    [updates] holds; each of title, description, priority, due date and tags
    takes the value supplied, or keeps its own when none is supplied; and
    [updatedAt] is the last reading of the clock the call makes. *)
Theorem update_changes_only_supplied_fields
    (u : Partial.t) (t : ITodo.t) (w : World) :
  exists (t' : ITodo.t) (w' : World) (k : nat),
    Todo.update u t w = (Ok t', w')
    /\ ITodo.id t' = ITodo.id t
    /\ ITodo.createdAt t' = ITodo.createdAt t
    /\ ITodo.title t' = Todo.or_else (Partial.title u) (ITodo.title t)
    /\ ITodo.description t'
       = match Partial.description u with
         | Some d => Some d
         | None => ITodo.description t
         end
    /\ ITodo.priority t' = Todo.or_else (Partial.priority u) (ITodo.priority t)
    /\ ITodo.dueDate t'
       = match Partial.dueDate u with
         | Some d => Some d
         | None => ITodo.dueDate t
         end
    /\ ITodo.tags t' = Todo.or_else (Partial.tags u) (ITodo.tags t)
    /\ ITodo.updatedAt t' = MkDate (clock w k)
    /\ (forall n : nat, clock w' n = clock w (S k + n)%nat)
    /\ todos w' = todos w.
Proof.
  unfold Todo.update, Todo.complete, Todo.uncomplete.
  destruct (Partial.completed u) as [[|] |], (ITodo.completed t) eqn:E; cbn;
    try rewrite E; cbn.
  all: try (eexists; eexists; exists 0%nat; split; [reflexivity |];
            cbn; repeat split; reflexivity).
  - eexists; eexists; exists 2%nat; split; [reflexivity |];
      cbn; repeat split; reflexivity.
  - eexists; eexists; exists 1%nat; split; [reflexivity |];
      cbn; repeat split; reflexivity.
Qed.

(** [update(updates)] leaves [completed] at the value supplied: completing a
    todo that was not completed stamps [completedAt] with the first reading
    of the clock, un-completing a completed one clears it. *)
Theorem update_routes_completion (u : Partial.t) (t : ITodo.t) (w : World) :
  returns (Todo.update u t) w
    (fun t' =>
       ITodo.completed t'
       = Todo.or_else (Partial.completed u) (ITodo.completed t)
       /\ (Partial.completed u = Some true -> ITodo.completed t = false ->
           ITodo.completedAt t' = Some (MkDate (clock w 0)))
       /\ (Partial.completed u = Some false -> ITodo.completed t = true ->
           ITodo.completedAt t' = None)).
Proof.
  unfold returns, Todo.update, Todo.complete, Todo.uncomplete.
  destruct (Partial.completed u) as [[|] |], (ITodo.completed t) eqn:E; cbn;
    try rewrite E; cbn; repeat split; auto; discriminate.
Qed.

Lemma mutate_keeps_invariant (toLowerCase : jsstring -> jsstring)
    (m : Mutation) (t : ITodo.t) (w : World) :
  completion_invariant t ->
  exists (t' : ITodo.t) (w' : World),
    mutate toLowerCase m t w = (Ok t', w') /\ completion_invariant t'.
Proof.
  unfold completion_invariant. intro H.
  destruct m as [| | | u | tag | tag]; cbn [mutate].
  - unfold Todo.toggle. destruct (ITodo.completed t); cbn;
      eexists; eexists; (split; [reflexivity |]); cbn; intuition discriminate.
  - unfold Todo.complete. destruct (ITodo.completed t) eqn:E; cbn;
      eexists; eexists; (split; [reflexivity |]); cbn;
      try rewrite E; intuition discriminate.
  - unfold Todo.uncomplete. destruct (ITodo.completed t) eqn:E; cbn;
      eexists; eexists; (split; [reflexivity |]); cbn;
      try rewrite E; intuition discriminate.
  - unfold Todo.update, Todo.complete, Todo.uncomplete.
    destruct (Partial.completed u) as [[|] |], (ITodo.completed t) eqn:E; cbn;
      try rewrite E; cbn;
      eexists; eexists; (split; [reflexivity |]); cbn;
      try rewrite E; intuition discriminate.
  - unfold Todo.addTag, bind.
    destruct (Todo.hasTag toLowerCase tag t); cbn;
      [eexists; eexists; split; [reflexivity | exact H] |].
    destruct (10 <=? Z.of_nat (List.length (ITodo.tags t))); cbn;
      eexists; eexists; (split; [reflexivity |]); exact H.
  - unfold Todo.removeTag, bind.
    destruct (Todo.remove_first toLowerCase tag (ITodo.tags t)); cbn;
      eexists; eexists; (split; [reflexivity |]); exact H.
Qed.

(** X3.  A todo built by [Todo.create] and then put through any sequence of
    [toggle], [complete], [uncomplete], [update], [addTag] and [removeTag]
    has [completed] true exactly when [completedAt] is set. *)
Theorem created_todo_keeps_completion_invariant
    (toLowerCase : jsstring -> jsstring) (dto : CreateTodoDto.t)
    (ms : list Mutation) (w : World) :
  returns (t <- Todo.create dto ;; mutate_all toLowerCase ms t) w
    completion_invariant.
Proof.
  unfold returns, bind. rewrite create_runs.
  match goal with
  | |- context [mutate_all _ _ ?t0 ?w0] =>
      assert (H0 : completion_invariant t0)
        by (unfold completion_invariant; cbn; intuition discriminate);
      generalize dependent t0; generalize w0
  end.
  induction ms as [| m rest IH]; intros w0 t0 H0.
  - exact H0.
  - cbn [mutate_all]. unfold bind.
    destruct (mutate_keeps_invariant toLowerCase m t0 w0 H0)
      as (t' & w' & E & H').
    rewrite E. apply IH, H'.
Qed.

(* ================================================================= *)
(** ** From the model to a row and back *)

(** X4.  [toDatabase()] throws, a RangeError, exactly when one of the dates of
    the todo is invalid.  Otherwise [fromDatabase] applied to the row it
    gives returns the todo, for a todo whose identifier is not empty, an empty
    description being read back as absent; no clock is read and no
    identifier drawn. *)
Theorem toDatabase_fromDatabase_round_trip (t : ITodo.t) (w : World) :
  (valid_dates t <-> exists row : Row.t, Todo.toDatabase t = Ok row)
  /\ (~ valid_dates t -> Todo.toDatabase t = Throw RangeError)
  /\ (ITodo.id t <> [] ->
      forall row : Row.t,
        Todo.toDatabase t = Ok row ->
        Todo.fromDatabase row w = (Ok (read_back t), w)).
Proof.
  unfold valid_dates, valid_date, valid_optional_date.
  destruct t as [i ti de co pr du ta cr up ca].
  unfold Todo.toDatabase, Todo.optional_text, toISOString. cbn.
  split; [| split].
  - destruct du as [[d |] |], cr as [c |], up as [u |], ca as [[a |] |];
      split; intro H;
      try (eexists; reflexivity);
      try (destruct H as [row H]; discriminate);
      try (repeat split; discriminate);
      try (exfalso; destruct H as (H1 & H2 & H3 & H4); congruence).
  - destruct du as [[d |] |], cr as [c |], up as [u |], ca as [[a |] |];
      intro H; try reflexivity;
      exfalso; apply H; repeat split; discriminate.
  - intros Hid row Hrow.
    destruct i as [| c0 i]; [congruence |].
    destruct du as [[d |] |], cr as [c |], up as [u |], ca as [[a |] |];
      try discriminate; inversion Hrow; subst row; clear Hrow;
      unfold Todo.fromDatabase, Todo.optional_date, Todo.new, Date_parse,
        bind, ret, read_back; cbn;
      destruct co, de as [[| c1 de] |]; cbn; reflexivity.
Qed.

(* ================================================================= *)
(** ** Tags *)

Lemma remove_first_spec (toLowerCase : jsstring -> jsstring)
    (tag : jsstring) (l : list jsstring) :
  match Todo.remove_first toLowerCase tag l with
  | Some r =>
      exists (pre post : list jsstring) (x : jsstring),
        l = pre ++ x :: post /\ r = pre ++ post
        /\ Todo.same_tag toLowerCase x tag = true
        /\ existsb (fun t0 => Todo.same_tag toLowerCase t0 tag) pre = false
  | None => existsb (fun t0 => Todo.same_tag toLowerCase t0 tag) l = false
  end.
Proof.
  induction l as [| a l IH]; cbn; [reflexivity |].
  destruct (Todo.same_tag toLowerCase a tag) eqn:E.
  - exists [], l, a. repeat split; auto.
  - destruct (Todo.remove_first toLowerCase tag l) as [r |].
    + destruct IH as (pre & post & x & -> & -> & Hx & Hpre).
      exists (a :: pre), post, x. cbn. rewrite E, Hpre. repeat split; auto.
    + cbn. exact IH.
Qed.

(** X5.  [addTag(tag)] answers false and leaves the todo as it is when the tag is
    already carried, up to the case, or when ten tags are carried; otherwise
    it answers true, appends the tag, and the todo carries it.  A todo with
    at most ten tags still has at most ten. *)
Theorem addTag_rejects_duplicates_and_caps_at_ten
    (toLowerCase : jsstring -> jsstring) (tag : jsstring) (t : ITodo.t)
    (w : World) :
  returns (Todo.addTag toLowerCase tag t) w
    (fun '(added, t') =>
       (added = false
        <-> Todo.hasTag toLowerCase tag t = true
            \/ (10 <= List.length (ITodo.tags t))%nat)
       /\ (added = false -> t' = t)
       /\ (added = true ->
           ITodo.tags t' = ITodo.tags t ++ [tag]
           /\ Todo.hasTag toLowerCase tag t' = true
           /\ same_but_tags t' t)
       /\ ((List.length (ITodo.tags t) <= 10)%nat ->
           (List.length (ITodo.tags t') <= 10)%nat)).
Proof.
  unfold returns, Todo.addTag.
  destruct (Todo.hasTag toLowerCase tag t) eqn:Eh; cbn.
  - repeat split; auto; discriminate.
  - destruct (10 <=? Z.of_nat (List.length (ITodo.tags t))) eqn:El; cbn.
    + apply Z.leb_le in El. repeat split; auto; try discriminate.
      intros _. right. lia.
    + apply Z.leb_gt in El. repeat split; auto; try discriminate.
      * intros [H | H]; [discriminate | lia].
      * unfold Todo.hasTag. cbn. rewrite existsb_app. cbn.
        unfold Todo.same_tag at 2. rewrite JsString_eqb_refl.
        now rewrite orb_true_r.
      * intros _. rewrite length_app. cbn. lia.
Qed.

(** X6.  [removeTag(tag)] answers whether the todo carries the tag, up to the
    case.  When it does not, the todo is left as it is; when it does, the
    first tag that matches, and only it, is taken out. *)
Theorem removeTag_removes_the_first_match
    (toLowerCase : jsstring -> jsstring) (tag : jsstring) (t : ITodo.t)
    (w : World) :
  returns (Todo.removeTag toLowerCase tag t) w
    (fun '(removed, t') =>
       removed = Todo.hasTag toLowerCase tag t
       /\ (removed = false -> t' = t)
       /\ (removed = true ->
           exists (pre post : list jsstring) (x : jsstring),
             ITodo.tags t = pre ++ x :: post
             /\ ITodo.tags t' = pre ++ post
             /\ Todo.same_tag toLowerCase x tag = true
             /\ Forall (fun t0 => Todo.same_tag toLowerCase t0 tag = false) pre
             /\ same_but_tags t' t)).
Proof.
  unfold returns, Todo.removeTag, Todo.hasTag.
  pose proof (remove_first_spec toLowerCase tag (ITodo.tags t)) as H.
  destruct (Todo.remove_first toLowerCase tag (ITodo.tags t)) as [r |]; cbn.
  - destruct H as (pre & post & x & Ht & -> & Hx & Hpre).
    repeat split; try discriminate.
    + rewrite Ht, existsb_app. cbn. rewrite Hx. now rewrite orb_true_r.
    + intros _. exists pre, post, x.
      split; [exact Ht |]. split; [reflexivity |]. split; [exact Hx |].
      split; [| unfold same_but_tags; cbn; repeat split].
      apply Forall_forall. intros t0 Hin.
      destruct (Todo.same_tag toLowerCase t0 tag) eqn:E; [| reflexivity].
      assert (existsb (fun t1 => Todo.same_tag toLowerCase t1 tag) pre = true)
        by (apply existsb_exists; eauto).
      congruence.
  - rewrite H. repeat split; auto; discriminate.
Qed.

Lemma remove_first_appended (toLowerCase : jsstring -> jsstring)
    (tag : jsstring) (l : list jsstring) :
  existsb (fun t0 => Todo.same_tag toLowerCase t0 tag) l = false ->
  Todo.remove_first toLowerCase tag (l ++ [tag]) = Some l.
Proof.
  induction l as [| a l IH]; cbn; intro Hn.
  - unfold Todo.same_tag. now rewrite JsString_eqb_refl.
  - apply orb_false_iff in Hn. destruct Hn as [Ha Hl].
    rewrite Ha, (IH Hl). reflexivity.
Qed.

(** X7.  Adding a tag that the todo does not carry, then removing it, gives
    back the tags of the start, and every other field but [updatedAt] is the
    one of the start. *)
Theorem addTag_then_removeTag_restores_tags
    (toLowerCase : jsstring -> jsstring) (tag : jsstring) (t : ITodo.t)
    (w : World)
    (Hnew : Todo.hasTag toLowerCase tag t = false)
    (Hroom : (List.length (ITodo.tags t) < 10)%nat) :
  returns (r <- Todo.addTag toLowerCase tag t ;;
           Todo.removeTag toLowerCase tag (snd r)) w
    (fun '(removed, t') =>
       removed = true /\ ITodo.tags t' = ITodo.tags t /\ same_but_tags t' t).
Proof.
  unfold returns, bind, Todo.addTag. rewrite Hnew.
  replace (10 <=? Z.of_nat (List.length (ITodo.tags t))) with false
    by (symmetry; apply Z.leb_gt; lia).
  cbn. unfold Todo.removeTag. cbn.
  rewrite (remove_first_appended toLowerCase tag (ITodo.tags t) Hnew). cbn.
  unfold same_but_tags. cbn. repeat split.
Qed.

(** The tag ["urgent"] added to a todo tagged ["food"] and ["Home"], then
    removed. *)
Lemma addTag_then_removeTag_restores_tags_witness :
  returns (r <- Todo.addTag ascii_toLowerCase (js "urgent") dated_todo ;;
           Todo.removeTag ascii_toLowerCase (js "urgent") (snd r))
    ticking_world
    (fun '(removed, t') =>
       removed = true /\ ITodo.tags t' = [js "food"; js "Home"]
       /\ same_but_tags t' dated_todo).
Proof.
  apply (addTag_then_removeTag_restores_tags ascii_toLowerCase (js "urgent")
           dated_todo ticking_world).
  - reflexivity.
  - cbn. lia.
Defined.

(* ================================================================= *)
(** ** The creation rules *)

Lemma trim_nil_iff_length (s : jsstring) :
  (JsString.length (JsString.trim s) =? 0) = false <-> JsString.trim s <> [].
Proof.
  unfold JsString.length. destruct (JsString.trim s); cbn; split; intro H;
    congruence.
Qed.

Lemma first_blank_tag_none (l : list jsstring) :
  forall k : nat,
    TodoService.first_blank_tag k l = None
    <-> Forall (fun tag => JsString.trim tag <> []) l.
Proof.
  induction l as [| a l IH]; intro k; cbn.
  - split; auto.
  - destruct (JsString.length (JsString.trim a) =? 0) eqn:E.
    + split; [discriminate |]. intro H. inversion H; subst.
      apply trim_nil_iff_length in H2. congruence.
    + rewrite IH. apply trim_nil_iff_length in E.
      split; intro H; [constructor; assumption | now inversion H].
Qed.

Lemma validate_title_none (title : jsstring) :
  TodoService.validate_title title = None
  <-> JsString.trim title <> []
      /\ 3 <= JsString.length title <= 100
      /\ Forall (fun c => TodoService.title_unit_ok c = true) title.
Proof.
  unfold TodoService.validate_title, TodoService.titleRegex_test.
  destruct title as [| c title].
  - cbn. split; [discriminate | intros [H _]; congruence].
  - cbn [JsString.truthy negb orb andb].
    destruct (JsString.length (JsString.trim (c :: title)) =? 0) eqn:Et.
    + split; [discriminate |]. intros [H _].
      apply trim_nil_iff_length in H. congruence.
    + apply trim_nil_iff_length in Et.
      destruct (JsString.length (c :: title) <? 3) eqn:E3;
        [apply Z.ltb_lt in E3; split; [discriminate | lia] |].
      destruct (100 <? JsString.length (c :: title)) eqn:E100;
        [apply Z.ltb_lt in E100; split; [discriminate | lia] |].
      apply Z.ltb_ge in E3, E100.
      destruct (forallb TodoService.title_unit_ok (c :: title)) eqn:Ef; cbn.
      * rewrite forallb_forall in Ef. split; [| reflexivity].
        intros _. repeat split; auto; try lia.
        apply Forall_forall. exact Ef.
      * split; [discriminate |]. intros (_ & _ & Hf).
        rewrite Forall_forall in Hf. apply forallb_forall in Hf. congruence.
Qed.

Lemma or_check_none (a b : option ValidationInfo) :
  TodoService.or_check a b = None <-> a = None /\ b = None.
Proof.
  destruct a; cbn; split; try discriminate; intuition discriminate.
Qed.

Lemma validate_description_none (de : option jsstring) :
  TodoService.validate_description de = None
  <-> forall d, de = Some d -> JsString.length d <= 500.
Proof.
  unfold TodoService.validate_description. destruct de as [d |].
  - destruct (500 <? JsString.length d) eqn:E.
    + apply Z.ltb_lt in E. split; [discriminate |].
      intro H. specialize (H d eq_refl). lia.
    + apply Z.ltb_ge in E. split; [| reflexivity].
      intros _ d0 Hd0. inversion Hd0. now subst.
  - split; [discriminate | reflexivity].
Qed.

Lemma validate_tags_none (ta : option (list jsstring)) :
  TodoService.validate_tags ta = None
  <-> forall l, ta = Some l ->
                (List.length l <= 10)%nat
                /\ Forall (fun tag => JsString.trim tag <> []) l.
Proof.
  unfold TodoService.validate_tags. destruct ta as [l |].
  - destruct (10 <? Z.of_nat (List.length l)) eqn:E.
    + apply Z.ltb_lt in E. split; [discriminate |].
      intro H. destruct (H l eq_refl). lia.
    + apply Z.ltb_ge in E.
      pose proof (first_blank_tag_none l 0) as Hb.
      destruct (TodoService.first_blank_tag 0 l).
      * split; [discriminate |]. intro H. destruct (H l eq_refl) as [_ Hf].
        apply Hb in Hf. discriminate.
      * split; [| reflexivity]. intros _ l0 Hl0. inversion Hl0; subst.
        split; [lia | now apply Hb].
  - split; [discriminate | reflexivity].
Qed.

Lemma validate_dueDate_none (du : option Date) :
  TodoService.validate_dueDate du = None <-> du <> Some InvalidDate.
Proof.
  destruct du as [[ms |] |]; cbn; split; congruence.
Qed.

(** X8.  [validateCreateTodoDto] accepts exactly the inputs whose title is not
    blank, has between 3 and 100 units (spaces at the ends included), all of
    them letters, digits, spaces or [- _ ' . , ! ?]; whose description, if
    any, has at most 500 units; whose tags, if any, are at most ten and none
    blank; and whose due date, if any, is a valid date. *)
Theorem validateCreateTodoDto_accepts_exactly (dto : CreateTodoDto.t) :
  TodoService.validateCreateTodoDto dto = None <-> acceptable dto.
Proof.
  unfold TodoService.validateCreateTodoDto, acceptable.
  rewrite !or_check_none, validate_title_none, validate_description_none,
    validate_tags_none, validate_dueDate_none.
  tauto.
Qed.

(** X9.  The update rules are the creation rules on every field an update
    carries: with a title, an update is accepted exactly when the creation
    input with the same fields is; without one, exactly when its
    description, tags and due date pass the creation rules. *)
Theorem validateUpdateTodoDto_follows_the_creation_rules (u : UpdateTodoDto.t) :
  (forall title : jsstring,
      UpdateTodoDto.title u = Some title ->
      (TodoService.validateUpdateTodoDto u = None
       <-> TodoService.validateCreateTodoDto (as_creation title u) = None))
  /\ (UpdateTodoDto.title u = None ->
      (TodoService.validateUpdateTodoDto u = None
       <-> TodoService.validate_description (UpdateTodoDto.description u) = None
           /\ TodoService.validate_tags (UpdateTodoDto.tags u) = None
           /\ TodoService.validate_dueDate (UpdateTodoDto.dueDate u) = None)).
Proof.
  unfold TodoService.validateUpdateTodoDto, TodoService.validateCreateTodoDto,
    as_creation, TodoService.or_check, TodoService.as_for_creation. cbn.
  split.
  - intros title Ht. rewrite Ht.
    unfold TodoService.validate_update_title, TodoService.validate_title.
    destruct (negb (JsString.truthy title)
              || (JsString.length (JsString.trim title) =? 0));
      [split; discriminate |].
    destruct (JsString.length title <? 3); [split; discriminate |].
    destruct (100 <? JsString.length title); [split; discriminate |].
    destruct (negb (TodoService.titleRegex_test title));
      [split; discriminate |].
    destruct (TodoService.validate_description (UpdateTodoDto.description u));
      [split; discriminate |].
    destruct (TodoService.validate_tags (UpdateTodoDto.tags u));
      [split; discriminate |].
    destruct (TodoService.validate_dueDate (UpdateTodoDto.dueDate u));
      [split; discriminate | split; reflexivity].
  - intro Ht. rewrite Ht. cbn.
    destruct (TodoService.validate_description (UpdateTodoDto.description u));
      [split; [discriminate | intros [H _]; discriminate] |].
    destruct (TodoService.validate_tags (UpdateTodoDto.tags u));
      [split; [discriminate | intros (_ & H & _); discriminate] |].
    destruct (TodoService.validate_dueDate (UpdateTodoDto.dueDate u));
      [split; [discriminate | intros (_ & _ & H); discriminate] |].
    split; auto.
Qed.

(** X10.  An input the creation rules accept gives a todo whose row passes the
    CHECK clauses of [title], [description], [completed] and [completed_at]:
    the rules of the service imply those of the table.  The row passes every
    CHECK exactly when the input has no due date. *)
Theorem accepted_input_passes_the_column_checks
    (dto : CreateTodoDto.t) (w : World)
    (H : TodoService.validateCreateTodoDto dto = None) :
  returns (Todo.create dto) w
    (fun t =>
       exists row : Row.t,
         Todo.toDatabase t = Ok row
         /\ Sql.check_title row = true
         /\ Sql.check_description row = true
         /\ Sql.check_completed row = true
         /\ Sql.check_datetime (Row.completed_at row) = true
         /\ (Sql.check_constraints row = true
             <-> CreateTodoDto.dueDate dto = None)).
Proof.
  unfold TodoService.validateCreateTodoDto in H.
  rewrite !or_check_none, validate_title_none, validate_description_none,
    validate_dueDate_none in H.
  destruct H as ((_ & Hlen & Hunits) & Hde & _ & Hdu).
  unfold returns. rewrite create_runs. cbn [fst].
  assert (Ht : (3 <=? Sql.length (CreateTodoDto.title dto))
               && (Sql.length (CreateTodoDto.title dto) <=? 100) = true).
  { rewrite Sql_length_title
      by (apply forallb_forall; rewrite Forall_forall in Hunits; exact Hunits).
    apply andb_true_iff. split; apply Z.leb_le; lia. }
  assert (Hd : match
                 match CreateTodoDto.description dto with
                 | Some d => if JsString.truthy d then Some d else None
                 | None => None
                 end
               with
               | Some d => Sql.length d <=? 500
               | None => true
               end = true).
  { destruct (CreateTodoDto.description dto) as [d |]; [| reflexivity].
    destruct (JsString.truthy d); [| reflexivity].
    apply Z.leb_le. pose proof (Sql_length_le d).
    specialize (Hde d eq_refl). lia. }
  unfold Todo.toDatabase, Sql.check_constraints, Sql.check_title,
    Sql.check_description, Sql.check_completed. cbn.
  destruct (CreateTodoDto.dueDate dto) as [[ms |] |]; [| congruence |]; cbn;
    eexists; (split; [reflexivity |]); cbn; rewrite Ht, Hd; cbn;
    repeat split; auto; discriminate.
Qed.

Lemma accepted_input_passes_the_column_checks_witness :
  TodoService.validateCreateTodoDto milk_dto = None
  /\ returns (Todo.create milk_dto) ticking_world
       (fun t =>
          exists row : Row.t,
            Todo.toDatabase t = Ok row
            /\ Sql.check_title row = true
            /\ Sql.check_description row = true
            /\ Sql.check_completed row = true
            /\ Sql.check_datetime (Row.completed_at row) = true
            /\ (Sql.check_constraints row = true
                <-> CreateTodoDto.dueDate milk_dto = None)).
Proof.
  split; [reflexivity |].
  apply (accepted_input_passes_the_column_checks milk_dto ticking_world).
  reflexivity.
Defined.

(* ================================================================= *)
(** ** Creation, all or nothing *)

Lemma JsString_eqb_eq (a b : jsstring) : JsString.eqb a b = true <-> a = b.
Proof.
  unfold JsString.eqb. destruct (list_eq_dec N.eq_dec a b); split; congruence.
Qed.

Lemma JsString_eqb_neq (a b : jsstring) : JsString.eqb a b = false <-> a <> b.
Proof.
  unfold JsString.eqb. destruct (list_eq_dec N.eq_dec a b); split; congruence.
Qed.

(** The two ways [Sql.insert] ends. *)
Lemma insert_outcome (row : Row.t) (table : list Row.t) :
  (exists c, Sql.insert row table = Throw (SqliteError c))
  \/ (Sql.insert row table = Ok (table ++ [row])
      /\ existsb (fun r' => JsString.eqb (Row.id r') (Row.id row)) table = false
      /\ Sql.check_constraints row = true).
Proof.
  unfold Sql.insert.
  destruct (Sql.check_constraints row); cbn [negb]; [| left; eauto].
  destruct (existsb _ table); [left; eauto | right; auto].
Qed.

(** The two ways [createTodo] ends: it throws and the table is the one of the
    call, or it returns the todo and one row has been appended. *)
Lemma createTodo_outcome (dto : CreateTodoDto.t) (w : World) :
  (exists (e : Error) (w' : World),
      TodoService.createTodo dto w = (Throw e, w') /\ todos w' = todos w)
  \/ (exists (todo : ITodo.t) (row : Row.t) (w' : World),
         TodoService.createTodo dto w = (Ok todo, w')
         /\ todos w' = todos w ++ [row]
         /\ Todo.toDatabase todo = Ok row
         /\ (ITodo.id todo = uuids w 0 /\ Row.id row = uuids w 0
             /\ Row.completed row = 0 /\ Row.completed_at row = None)
         /\ TodoService.validateCreateTodoDto dto = None
         /\ CreateTodoDto.dueDate dto = None
         /\ existsb (fun r' => JsString.eqb (Row.id r') (Row.id row)) (todos w)
            = false
         /\ Sql.check_constraints row = true).
Proof.
  unfold TodoService.createTodo, TodoService.check, bind.
  destruct (TodoService.validateCreateTodoDto dto) as [info |] eqn:Hv.
  - left. eexists. eexists. split; reflexivity.
  - cbn [ret]. rewrite create_runs.
    unfold TodoRepository.create, TodoRepository.run,
      TodoRepository.transaction, lift, bind.
    match goal with
    | |- context [Todo.toDatabase ?t0] =>
        destruct (Todo.toDatabase t0) as [row | e] eqn:Hrow
    end.
    + cbn [todos].
      destruct (insert_outcome row (todos w)) as [[c Hi] | (Hi & Hnew & Hchk)];
        rewrite Hi.
      * left. eexists. eexists. split; reflexivity.
      * right. eexists. exists row. eexists.
        split; [reflexivity |]. cbn [todos].
        assert (Hd : CreateTodoDto.dueDate dto = None).
        { unfold Todo.toDatabase in Hrow. cbn in Hrow.
          destruct (CreateTodoDto.dueDate dto) as [[ms |] |]; cbn in Hrow;
            try discriminate; [| reflexivity].
          inversion Hrow; subst row.
          unfold Sql.check_constraints in Hchk. cbn in Hchk.
          rewrite andb_false_r in Hchk. discriminate. }
        unfold Todo.toDatabase in Hrow. cbn in Hrow.
        rewrite Hd in Hrow. cbn in Hrow.
        assert (Hfields : Row.id row = uuids w 0 /\ Row.completed row = 0
                          /\ Row.completed_at row = None)
          by (inversion Hrow; repeat split).
        destruct Hfields as (H1 & H2 & H3).
        split; [reflexivity |].
        split; [unfold Todo.toDatabase; cbn; rewrite Hd; exact Hrow |].
        repeat split; auto.
    + left. eexists. eexists. split; reflexivity.
Qed.

(** [createTodo] is all or nothing.  When it returns, exactly one row has
    been appended to the table, the row of the returned todo, whose
    identifier is the one drawn from [uuidv4] and was not in the table; the
    input passed the creation rules and had no due date.  When it throws, the
    table is the one of the call. *)
Theorem createTodo_appends_one_row_or_nothing
    (dto : CreateTodoDto.t) (w : World) :
  match TodoService.createTodo dto w with
  | (Ok todo, w') =>
      exists row : Row.t,
        todos w' = todos w ++ [row]
        /\ Todo.toDatabase todo = Ok row
        /\ ITodo.id todo = uuids w 0
        /\ (forall r, In r (todos w) -> Row.id r <> ITodo.id todo)
        /\ TodoService.validateCreateTodoDto dto = None
        /\ CreateTodoDto.dueDate dto = None
  | (Throw _, w') => todos w' = todos w
  end.
Proof.
  destruct (createTodo_outcome dto w)
    as [(e & w' & E & Ht)
       | (todo & row & w' & E & Ht & Hrow & (Htid & Hid & _) & Hv & Hd
          & Hnew & _)];
    rewrite E; [exact Ht |].
  exists row.
  split; [exact Ht |]. split; [exact Hrow |]. split; [exact Htid |].
  split; [| split; assumption].
  intros r Hin Heq. rewrite Htid in Heq.
  assert (existsb (fun r' => JsString.eqb (Row.id r') (Row.id row)) (todos w)
          = true).
  { apply existsb_exists. exists r. split; [exact Hin |].
    apply JsString_eqb_eq. now rewrite Hid. }
  congruence.
Qed.

Lemma mapM_create_runs (batch : list CreateTodoDto.t) :
  forall w : World,
  exists (created : list ITodo.t) (w' : World),
    mapM Todo.create batch w = (Ok created, w')
    /\ todos w' = todos w
    /\ Forall2 (fun dto t =>
                  ITodo.title t = CreateTodoDto.title dto
                  /\ ITodo.completed t = false
                  /\ ITodo.completedAt t = None) batch created.
Proof.
  induction batch as [| dto rest IH]; intro w.
  - exists [], w. repeat split. constructor.
  - cbn [mapM]. unfold bind. rewrite create_runs.
    match goal with
    | |- context [mapM Todo.create rest ?w1] =>
        destruct (IH w1) as (created & w' & E & Ht & Hf)
    end.
    rewrite E. eexists. eexists. split; [reflexivity |].
    split; [exact Ht |].
    constructor; [cbn; repeat split | exact Hf].
Qed.

Lemma distinct_ids_app (table : list Row.t) (row : Row.t) :
  distinct_ids table ->
  existsb (fun r' => JsString.eqb (Row.id r') (Row.id row)) table = false ->
  distinct_ids (table ++ [row]).
Proof.
  unfold distinct_ids. intros Hd Hnew.
  rewrite map_app. cbn.
  apply NoDup_app; [exact Hd | repeat constructor; intros [] |].
  intros x Hx [<- | []].
  apply in_map_iff in Hx. destruct Hx as (r & Hr & Hin).
  assert (existsb (fun r' => JsString.eqb (Row.id r') (Row.id row)) table
          = true).
  { apply existsb_exists. exists r. split; [exact Hin |].
    now apply JsString_eqb_eq. }
  congruence.
Qed.

(** When the transaction of [bulkCreate] commits, the table has grown by the
    rows of the todos, in order. *)
Lemma insertMany_outcome (l : list Todo.t) :
  forall (table table' : list Row.t),
    TodoRepository.insertMany l table = Ok table' ->
    exists rows : list Row.t,
      table' = table ++ rows
      /\ Forall2 (fun t r => Todo.toDatabase t = Ok r) l rows
      /\ (distinct_ids table -> distinct_ids table').
Proof.
  induction l as [| t rest IH]; intros table table' H; cbn in H.
  - inversion H; subst. exists []. rewrite app_nil_r.
    split; [reflexivity |]. split; [constructor | auto].
  - destruct (Todo.toDatabase t) as [row | e] eqn:Hrow; [| discriminate].
    destruct (insert_outcome row table) as [[c Hi] | (Hi & Hnew & _)];
      rewrite Hi in H; [discriminate |].
    destruct (IH _ _ H) as (rows & -> & Hf & Hd).
    exists (row :: rows). rewrite <- app_assoc. cbn.
    split; [reflexivity |]. split; [constructor; assumption |].
    intro Hd0. change (table ++ row :: rows) with (table ++ [row] ++ rows).
    rewrite app_assoc. apply Hd.
    now apply distinct_ids_app.
Qed.

(** X11.  [bulkCreate] is all or nothing, also when the storage refuses a row (a
    due date, an identifier drawn twice).  When it returns, the table has
    grown by one row per entry of the batch, in the order of the batch, and
    the todos returned are those rows' todos; the batch had between 1 and
    100 entries.  When it throws, the table is the one of the call. *)
Theorem bulkCreate_stores_all_or_nothing
    (batch : list CreateTodoDto.t) (w : World) :
  match TodoService.bulkCreate batch w with
  | (Ok created, w') =>
      exists rows : list Row.t,
        todos w' = todos w ++ rows
        /\ map Row.id rows = map ITodo.id created
        /\ map Row.title rows = map CreateTodoDto.title batch
        /\ map ITodo.title created = map CreateTodoDto.title batch
        /\ (1 <= List.length batch <= 100)%nat
  | (Throw _, w') => todos w' = todos w
  end.
Proof.
  unfold TodoService.bulkCreate.
  destruct (Z.of_nat (List.length batch) =? 0) eqn:E0; [reflexivity |].
  destruct (100 <? Z.of_nat (List.length batch)) eqn:E100; [reflexivity |].
  apply Z.eqb_neq in E0. apply Z.ltb_ge in E100.
  unfold TodoService.check, bind.
  destruct (TodoService.validate_each 0 batch); [reflexivity |].
  cbn [ret].
  destruct (mapM_create_runs batch w) as (created & w1 & E & Ht & Hf).
  rewrite E.
  unfold TodoRepository.bulkCreate, TodoRepository.transaction, bind.
  destruct (TodoRepository.insertMany created (todos w1)) as [table' | e] eqn:Hi;
    [| exact Ht].
  cbn. destruct (insertMany_outcome _ _ _ Hi) as (rows & -> & Hrows & _).
  exists rows. rewrite Ht.
  assert (Hids : map Row.id rows = map ITodo.id created
                 /\ map Row.title rows = map ITodo.title created).
  { clear -Hrows. induction Hrows as [| t r l rows Hr _ IH]; cbn; [auto |].
    destruct IH as [IH1 IH2]. rewrite IH1, IH2.
    unfold Todo.toDatabase in Hr.
    destruct (Todo.optional_text (ITodo.dueDate t)),
      (toISOString (ITodo.createdAt t)), (toISOString (ITodo.updatedAt t)),
      (Todo.optional_text (ITodo.completedAt t)); try discriminate.
    inversion Hr. cbn. split; reflexivity. }
  assert (Htitles : map ITodo.title created = map CreateTodoDto.title batch).
  { clear -Hf. induction Hf as [| d t l l' (H1 & _) _ IH]; cbn; [auto |].
    now rewrite H1, IH. }
  destruct Hids as [H1 H2].
  assert (Hj : map Todo.toJSON created = created).
  { clear. induction created as [| t l IH]; cbn; [reflexivity |].
    rewrite IH. now destruct t. }
  rewrite Hj.
  split; [reflexivity |]. split; [exact H1 |].
  split; [now rewrite H2 |]. split; [exact Htitles |].
  lia.
Qed.

(* ================================================================= *)
(** ** Fetching by identifier *)

Lemma find_has_id (id : jsstring) (table : list Row.t) :
  match List.find (fun r => JsString.eqb (Row.id r) id) table with
  | Some row => In row table /\ Row.id row = id
  | None => forall r, In r table -> Row.id r <> id
  end.
Proof.
  destruct (List.find _ table) as [row |] eqn:E.
  - apply find_some in E. destruct E as [Hin He].
    split; [exact Hin | now apply JsString_eqb_eq].
  - intros r Hin. apply JsString_eqb_neq.
    exact (find_none _ _ E r Hin).
Qed.

(** X12.  [getTodoById] never changes the table.  A blank identifier is refused
    with a BadRequestError; an identifier no row carries gives a
    TodoNotFoundError naming it; otherwise the todo returned carries the
    identifier asked for, and the fields of its row. *)
Theorem getTodoById_finds_the_row_or_says_why (id : jsstring) (w : World) :
  table_after (TodoService.getTodoById id) w = todos w
  /\ (TodoService.blank id = true ->
      fst (TodoService.getTodoById id w) = Throw BadRequestError)
  /\ (TodoService.blank id = false ->
      (forall r, In r (todos w) -> Row.id r <> id) ->
      fst (TodoService.getTodoById id w) = Throw (TodoNotFoundError id))
  /\ (TodoService.blank id = false ->
      (exists r, In r (todos w) /\ Row.id r = id) ->
      returns (TodoService.getTodoById id) w
        (fun todo =>
           ITodo.id todo = id
           /\ exists row, In row (todos w) /\ Row.id row = id /\ shows row todo)).
Proof.
  unfold table_after, returns, TodoService.getTodoById.
  change (negb (JsString.truthy id)
          || (JsString.length (JsString.trim id) =? 0))
    with (TodoService.blank id).
  destruct (TodoService.blank id) eqn:Eb.
  - repeat split; auto; discriminate.
  - unfold TodoRepository.findById, TodoRepository.getDatabase, bind. cbn.
    pose proof (find_has_id id (todos w)) as Hfind.
    destruct (List.find _ (todos w)) as [row |].
    + destruct Hfind as [Hin Hid].
      destruct (row_to_json_runs row w) as (todo & w' & E & Hs & Ht & _).
      rewrite E. cbn.
      split; [exact Ht |]. split; [discriminate |].
      split; [intros _ Hnone; exfalso; exact (Hnone row Hin Hid) |].
      intros _ _.
      assert (Hne : Row.id row <> []).
      { rewrite Hid. intro Hnil. rewrite Hnil in Eb. discriminate. }
      split.
      * destruct Hs as (_ & _ & _ & _ & _ & Hi). rewrite (Hi Hne). exact Hid.
      * exists row. auto.
    + cbn. split; [reflexivity |]. split; [discriminate |].
      split; [reflexivity |].
      intros _ (r & Hin & Hid). exfalso. exact (Hfind r Hin Hid).
Qed.


(* ================================================================= *)
(** ** Pages *)

Lemma page_rows_with_page (ties : TodoQueryParams.t -> Row.t -> Row.t -> bool)
    (params : TodoQueryParams.t) (table : list Row.t) (p : Z) :
  TodoRepository.page_rows ties (with_page params p) table
  = Sql.window (TodoRepository.limit_of params)
      (TodoRepository.offset_of (with_page params p))
      (sorted_matching ties params table).
Proof. reflexivity. Qed.

Lemma is_int64_small (x : Z) : - 2 ^ 53 <= x <= 2 ^ 53 -> Sql.is_int64 x = true.
Proof.
  change (2 ^ 53) with 9007199254740992. intro H. unfold Sql.is_int64.
  change (2 ^ 63) with 9223372036854775808.
  apply andb_true_iff. split; apply Z.ltb_lt; lia.
Qed.

Lemma within_limits_with_page (params : TodoQueryParams.t) (p : Z) :
  within_limits (with_page params 1) = true ->
  Sql.is_int64 (TodoRepository.offset_of (with_page params p)) = true ->
  within_limits (with_page params p) = true.
Proof.
  intros H Ho. unfold within_limits in *.
  apply andb_true_iff in H. destruct H as [H _].
  rewrite Ho, andb_true_r. exact H.
Qed.

Lemma matching_rows_length (params : TodoQueryParams.t) (table : list Row.t) :
  (List.length (TodoRepository.matching_rows params table)
   <= List.length table)%nat.
Proof. apply filter_length_le. Qed.

(** Cutting a list in [n] slices of [k] elements loses nothing when
    [n * k] reaches its length. *)
Lemma slices_concat {A} (k : nat) :
  forall (n : nat) (l : list A),
    (List.length l <= n * k)%nat ->
    List.concat (map (fun i => firstn k (skipn (i * k) l)) (seq 0 n)) = l.
Proof.
  induction n as [| n IH]; intros l Hl.
  - cbn in *. destruct l; [reflexivity | cbn in Hl; lia].
  - cbn [seq map List.concat]. cbn [Nat.mul skipn].
    transitivity (firstn k l ++ skipn k l); [| apply firstn_skipn].
    f_equal. rewrite <- seq_shift, map_map.
    etransitivity; [| apply (IH (skipn k l)); rewrite length_skipn; lia].
    f_equal. apply map_ext. intro i.
    rewrite skipn_skipn. f_equal. f_equal. lia.
Qed.

Lemma Forall2_concat {A B} (R : A -> B -> Prop) (ls : list (list A))
    (ms : list (list B)) :
  Forall2 (Forall2 R) ls ms -> Forall2 R (List.concat ls) (List.concat ms).
Proof.
  induction 1 as [| l m ls ms H _ IH]; cbn [List.concat].
  - constructor.
  - apply Forall2_app; assumption.
Qed.

Lemma Forall2_map_same {A B C} (R : B -> C -> Prop) (f : A -> B) (g : A -> C)
    (l : list A) :
  (forall x, In x l -> R (f x) (g x)) -> Forall2 R (map f l) (map g l).
Proof.
  induction l as [| x l IH]; intro H; cbn [map]; constructor.
  - apply H. now left.
  - apply IH. intros y Hy. apply H. now right.
Qed.

(** A page up to the last one: [findAll] returns the slice of the sorted
    result that starts at [(page - 1) * limit]. *)
Lemma findAll_page (params : TodoQueryParams.t) (w : World) (pages : Z) (i : nat) :
  1 <= TodoRepository.limit_of params ->
  within_limits (with_page params 1) = true ->
  Z.of_nat (List.length (todos w)) <= 2 ^ 53 ->
  (pages - 1) * TodoRepository.limit_of params
  < Z.of_nat (List.length (TodoRepository.matching_rows params (todos w))) ->
  Z.of_nat i < pages ->
  exists response w',
    TodoRepository.findAll (with_page params (Z.of_nat (S i))) w
    = (Ok response, w')
    /\ Forall2 shows
         (firstn (Z.to_nat (TodoRepository.limit_of params))
            (skipn (i * Z.to_nat (TodoRepository.limit_of params))
               (sorted_matching (scan w) params (todos w))))
         (PaginatedResponse.data response).
Proof.
  intros Hlimit Hlimits Hrows Hpages Hi.
  pose proof (matching_rows_length params (todos w)) as Hle.
  assert (Ho : TodoRepository.offset_of (with_page params (Z.of_nat (S i)))
               = Z.of_nat i * TodoRepository.limit_of params).
  { rewrite offset_exact.
    - cbn [TodoRepository.page_of with_page TodoQueryParams.page
             TodoRepository.limit_of TodoQueryParams.limit].
      fold (TodoRepository.limit_of params). f_equal. lia.
    - cbn [TodoRepository.page_of with_page TodoQueryParams.page]. lia.
    - change (TodoRepository.limit_of (with_page params (Z.of_nat (S i))))
        with (TodoRepository.limit_of params). lia.
    - cbn [TodoRepository.page_of with_page TodoQueryParams.page].
      change (TodoRepository.limit_of (with_page params (Z.of_nat (S i))))
        with (TodoRepository.limit_of params). nia. }
  assert (Hin : within_limits (with_page params (Z.of_nat (S i))) = true).
  { apply within_limits_with_page; [exact Hlimits |].
    rewrite Ho. apply is_int64_small.
    pose proof (Z.pow_pos_nonneg 2 53 ltac:(lia) ltac:(lia)). nia. }
  destruct (findAll_runs _ w Hin) as (data & w' & E & Hf & _).
  eexists. exists w'. split; [exact E |].
  cbn [PaginatedResponse.data].
  rewrite page_rows_with_page, Ho in Hf. unfold Sql.window in Hf.
  replace (TodoRepository.limit_of params <? 0) with false in Hf
    by (symmetry; apply Z.ltb_ge; lia).
  rewrite Z2Nat.inj_mul, Nat2Z.id in Hf by lia.
  exact Hf.
Qed.



(** X15.  A page holds [limit] records, the last one what remains, and a page
    past the last one none: for a query within the limits of SQLite with
    [page >= 1] and [limit >= 0], on a table of at most 2^53 rows, the page
    has [min(limit, max(0, totalItems - (page - 1) * limit))] records. *)
Theorem page_holds_limit_records_or_the_remainder
    (params : TodoQueryParams.t) (w : World)
    (Hpage : 1 <= TodoRepository.page_of params)
    (Hlimit : 0 <= TodoRepository.limit_of params)
    (Hlimits : within_limits params = true)
    (Hrows : Z.of_nat (List.length (todos w)) <= 2 ^ 53) :
  returns (TodoRepository.findAll params) w
    (fun response =>
       Z.of_nat (List.length (PaginatedResponse.data response))
       = Z.min (TodoRepository.limit_of params)
           (Z.max 0
              (PaginationMeta.totalItems (PaginatedResponse.meta response)
               - (TodoRepository.page_of params - 1)
                 * TodoRepository.limit_of params))).
Proof.
  destruct (findAll_runs params w Hlimits) as (data & w' & E & Hf & _).
  unfold returns. rewrite E. cbn.
  rewrite <- (Forall2_length Hf).
  pose proof (matching_rows_length params (todos w)) as Hle.
  unfold TodoRepository.page_rows, Sql.window.
  replace (TodoRepository.limit_of params <? 0) with false
    by (symmetry; apply Z.ltb_ge; lia).
  rewrite length_firstn, length_skipn, order_by_length.
  destruct (Z_le_gt_dec
              ((TodoRepository.page_of params - 1)
               * TodoRepository.limit_of params) (2 ^ 53)) as [Hs | Hs].
  - rewrite (offset_exact params Hpage Hlimit Hs). nia.
  - pose proof (offset_reaches params
                  (Z.of_nat (List.length
                               (TodoRepository.matching_rows params (todos w))))
                  Hpage Hlimit ltac:(lia) ltac:(lia)) as Hr.
    lia.
Qed.

Lemma page_holds_limit_records_or_the_remainder_witness :
  returns (TodoRepository.findAll (page_limit 3 2)) five_tasks_world
    (fun response =>
       Z.of_nat (List.length (PaginatedResponse.data response))
       = Z.min (TodoRepository.limit_of (page_limit 3 2))
           (Z.max 0
              (PaginationMeta.totalItems (PaginatedResponse.meta response)
               - (TodoRepository.page_of (page_limit 3 2) - 1)
                 * TodoRepository.limit_of (page_limit 3 2)))).
Proof.
  apply (page_holds_limit_records_or_the_remainder (page_limit 3 2)
           five_tasks_world);
    [cbn; lia | cbn; lia | reflexivity | vm_compute; discriminate].
Defined.

(* ================================================================= *)
(** ** Filters and order of [findAll] *)

Lemma row_to_json_dates (row : Row.t) (w : World) :
  exists (todo : ITodo.t) (w' : World),
    TodoRepository.row_to_json row w = (Ok todo, w')
    /\ shows row todo /\ shows_dates (timezone w) row todo
    /\ todos w' = todos w /\ timezone w' = timezone w /\ clock w' = clock w.
Proof.
  unfold TodoRepository.row_to_json, Todo.fromDatabase, Todo.optional_date,
    Todo.new, Date_parse, bind, ret, shows, shows_dates.
  destruct row as [i ti de co pr du ta cr up ca]; cbn.
  destruct du as [du |], ca as [ca |], i as [| c i']; cbn;
    eexists; eexists; (split; [reflexivity |]); cbn;
    repeat split; auto; intro H; congruence.
Qed.

Lemma mapM_row_to_json_dates (rows : list Row.t) :
  forall w : World,
  exists (data : list ITodo.t) (w' : World),
    mapM TodoRepository.row_to_json rows w = (Ok data, w')
    /\ Forall2 (fun row todo => shows row todo /\ shows_dates (timezone w) row todo)
         rows data
    /\ todos w' = todos w /\ timezone w' = timezone w /\ clock w' = clock w.
Proof.
  induction rows as [| row rest IH]; intro w.
  - exists [], w. cbn. repeat split; auto.
  - destruct (row_to_json_dates row w)
      as (todo & w1 & E1 & Hs & Hd & Ht1 & Hz1 & Hc1).
    destruct (IH w1) as (data & w2 & E2 & Hf & Ht2 & Hz2 & Hc2).
    exists (todo :: data), w2.
    split.
    + cbn [mapM]. unfold bind. rewrite E1, E2. reflexivity.
    + rewrite Hz1 in Hf. repeat split; auto; congruence.
Qed.

Lemma findAll_data (params : TodoQueryParams.t) (w : World) :
  within_limits params = true ->
  exists response : PaginatedResponse.t,
    fst (TodoRepository.findAll params w) = Ok response
    /\ Forall2 (fun row todo => shows row todo /\ shows_dates (timezone w) row todo)
         (TodoRepository.page_rows (scan w) params (todos w))
         (PaginatedResponse.data response).
Proof.
  intro Hin.
  destruct (mapM_row_to_json_dates
              (TodoRepository.page_rows (scan w) params (todos w)) w)
    as (data & w' & E & Hf & _).
  pose proof (within_limits_parts params Hin) as (_ & _ & _ & Hl & Ho).
  unfold TodoRepository.findAll, TodoRepository.getDatabase,
    TodoRepository.getScan, bind, lift.
  rewrite (prepare_within params Hin).
  rewrite (select_filter _ (TodoRepository.where_clause params) (todos w)
             (fun r => where_or_error_within params r Hin)).
  unfold Sql.limit_offset.
  fold (TodoRepository.offset_of params). rewrite Hl, Ho. cbn [andb].
  fold (TodoRepository.matching_rows params (todos w)).
  fold (TodoRepository.page_rows (scan w) params (todos w)).
  rewrite E. cbn. eexists. split; [reflexivity |]. exact Hf.
Qed.

Lemma Forall2_Forall_r {A B} (R : A -> B -> Prop) (P : A -> Prop)
    (Q : B -> Prop) (l : list A) (l' : list B) :
  (forall a b, R a b -> P a -> Q b) ->
  Forall2 R l l' -> Forall P l -> Forall Q l'.
Proof.
  intros H Hf. induction Hf as [| a b l l' Hab _ IH]; intro Hp.
  - constructor.
  - inversion Hp; subst. constructor; eauto.
Qed.

Lemma Forall2_StronglySorted {A B} (R : A -> B -> Prop)
    (S : A -> A -> Prop) (T : B -> B -> Prop) (l : list A) (l' : list B) :
  (forall a b a' b', R a a' -> R b b' -> S a b -> T a' b') ->
  Forall2 R l l' -> StronglySorted S l -> StronglySorted T l'.
Proof.
  intros H Hf. induction Hf as [| a a' l l' Ha Hl IH]; intro Hs.
  - constructor.
  - inversion Hs as [| ? ? Hs' Hall]; subst. constructor; [now apply IH |].
    clear IH Hs Hs'. induction Hl as [| b b' l l' Hb _ IH]; [constructor |].
    inversion Hall; subst. constructor; eauto.
Qed.

Lemma StronglySorted_among {A} (R : A -> A -> Prop) (P : A -> Prop)
    (l : list A) :
  StronglySorted R l -> Forall P l ->
  StronglySorted (fun a b => P a /\ P b /\ R a b) l.
Proof.
  induction 1 as [| a l Hl IH Ha]; intro Hin; [constructor |].
  inversion Hin as [| ? ? Hain Hlin]; subst.
  constructor; [exact (IH Hlin) |].
  clear IH Hl Hin.
  induction Ha as [| b l Hb _ IH]; [constructor |].
  inversion Hlin; subst. constructor; auto.
Qed.

(** X16.  The status and priority filters hold of every record [findAll]
    returns: for a query within the limits of SQLite, [findAll] returns, with
    [filter: 'active'] no completed record, with [filter: 'completed'] only
    completed ones, and with a [priority] only records that have it. *)
Theorem findAll_returns_only_records_that_pass_the_filters
    (params : TodoQueryParams.t) (w : World)
    (Hlimits : within_limits params = true) :
  returns (TodoRepository.findAll params) w
    (fun response =>
       Forall
         (fun todo =>
            (TodoRepository.filter_of params = ACTIVE ->
             ITodo.completed todo = false)
            /\ (TodoRepository.filter_of params = COMPLETED ->
                ITodo.completed todo = true)
            /\ (forall p, TodoQueryParams.priority params = Some p ->
                          ITodo.priority todo = p))
         (PaginatedResponse.data response)).
Proof.
  destruct (findAll_data params w Hlimits) as (response & E & Hf).
  unfold returns. rewrite E.
  assert (Hrows : Forall
                    (fun row => TodoRepository.where_clause params row = true)
                    (TodoRepository.page_rows (scan w) params (todos w))).
  { apply Forall_forall. intros row Hin.
    apply page_rows_In, matching_rows_In in Hin. apply Hin. }
  refine (Forall2_Forall_r _ _ _ _ _ _ Hf Hrows).
  intros row todo H Hw. cbv beta in H, Hw.
  destruct H as [(_ & Hp & Hc & _) _].
  unfold TodoRepository.where_clause in Hw.
  apply andb_true_iff in Hw. destruct Hw as [Hw _].
  apply andb_true_iff in Hw. destruct Hw as [Hw _].
  apply andb_true_iff in Hw. destruct Hw as [Hs Hpr].
  split; [| split].
  - intro Ef. rewrite Ef in Hs. cbn in Hs. rewrite Hc, Hs. reflexivity.
  - intro Ef. rewrite Ef in Hs. cbn in Hs. apply Z.eqb_eq in Hs.
    rewrite Hc, Hs. reflexivity.
  - intros p Ep. rewrite Ep in Hpr. cbn in Hpr. rewrite Hp.
    destruct (Row.priority row), p; (reflexivity || discriminate).
Qed.

(** The completed ones of five tasks, two of which are. *)
Lemma findAll_returns_only_records_that_pass_the_filters_witness :
  within_limits (only_filter COMPLETED) = true
  /\ returns (TodoRepository.findAll (only_filter COMPLETED)) (tasks_world 2 5)
       (fun response =>
          Forall
            (fun todo =>
               (TodoRepository.filter_of (only_filter COMPLETED) = ACTIVE ->
                ITodo.completed todo = false)
               /\ (TodoRepository.filter_of (only_filter COMPLETED) = COMPLETED ->
                   ITodo.completed todo = true)
               /\ (forall p,
                      TodoQueryParams.priority (only_filter COMPLETED) = Some p ->
                      ITodo.priority todo = p))
            (PaginatedResponse.data response)).
Proof.
  split; [reflexivity |].
  apply (findAll_returns_only_records_that_pass_the_filters
           (only_filter COMPLETED) (tasks_world 2 5)).
  reflexivity.
Defined.

Lemma timestamp_compare_rank (a b : SqlText) :
  Sql.timestamp_compare a b = (timestamp_rank a ?= timestamp_rank b).
Proof.
  unfold Sql.timestamp_compare, timestamp_rank, Sql.timestamp_key.
  destruct a as [a | a], b as [b | b]; cbv beta iota;
    change (1 ?= 1) with Eq; change (0 ?= 0) with Eq;
    change (1 ?= 0) with Gt; change (0 ?= 1) with Lt; cbv iota;
    repeat match goal with
           | |- context [?x ?= ?y] => destruct (Z.compare_spec x y)
           end;
    try reflexivity; exfalso; Z.div_mod_to_equations; lia.
Qed.

Lemma timestamp_rank_iso (a b : Z) :
  timestamp_rank (IsoText a) <= timestamp_rank (IsoText b) <-> a <= b.
Proof.
  unfold timestamp_rank, Sql.timestamp_key. Z.div_mod_to_equations. lia.
Qed.

Lemma sort_le_created_at_desc (a b : Row.t) :
  TodoRepository.sort_le CREATED_AT DESC a b
  = (timestamp_rank (Row.created_at b) <=? timestamp_rank (Row.created_at a)).
Proof.
  unfold TodoRepository.sort_le, TodoRepository.sort_key, Sql.leb, Sql.compare.
  rewrite timestamp_compare_rank.
  destruct (Z.compare_spec (timestamp_rank (Row.created_at b))
              (timestamp_rank (Row.created_at a)));
    symmetry; [apply Z.leb_le | apply Z.leb_le | apply Z.leb_gt]; lia.
Qed.



(** [count(filter)] is the [totalItems] that [findAll] reports for the same
    filter when the query has no priority, search or tags. *)
Theorem count_agrees_with_findAll
    (params : TodoQueryParams.t) (w : World)
    (Hstatus : status_only params)
    (Hlimits : within_limits params = true) :
  returns (TodoRepository.findAll params) w
    (fun response =>
       returns (TodoRepository.count (TodoRepository.filter_of params)) w
         (fun n =>
            PaginationMeta.totalItems (PaginatedResponse.meta response) = n)).
Proof.
  destruct (findAll_runs params w Hlimits) as (data & w' & E & _).
  unfold returns. rewrite E. cbn.
  unfold TodoRepository.matching_rows. do 2 f_equal.
  apply filter_ext. intro r. unfold TodoRepository.where_clause.
  destruct Hstatus as (-> & -> & ->). cbn.
  now rewrite !andb_true_r.
Qed.

Lemma count_agrees_with_findAll_witness :
  returns (TodoRepository.findAll (only_filter COMPLETED)) (tasks_world 2 5)
    (fun response =>
       returns (TodoRepository.count
                  (TodoRepository.filter_of (only_filter COMPLETED)))
         (tasks_world 2 5)
         (fun n =>
            PaginationMeta.totalItems (PaginatedResponse.meta response) = n)).
Proof.
  apply (count_agrees_with_findAll (only_filter COMPLETED) (tasks_world 2 5)).
  - repeat split.
  - reflexivity.
Defined.

(* ================================================================= *)
(** ** The tags filter *)

Lemma like_same (p : jsstring) :
  forall rest text : jsstring,
    Sql.patternCompare rest text = true ->
    Sql.patternCompare (p ++ rest) (p ++ text) = true.
Proof.
  induction p as [| c p IH]; intros rest text H; [exact H |].
  simpl app. destruct (N.eq_dec c Sql.percent) as [-> | Hc].
  - apply like_percent. exists [Sql.percent], (p ++ text).
    split; [reflexivity | now apply IH].
  - rewrite like_literal_unfold by exact Hc.
    rewrite N.eqb_refl, orb_true_r. now apply IH.
Qed.

(** [JSON.stringify] writes no U+0000: it escapes the control characters. *)
Lemma nul_free_Forall (s : jsstring) :
  Forall (fun c => c <> 0%N) s <-> nul_free s.
Proof.
  unfold nul_free. induction s as [| c s IH]; [split; auto |].
  cbn [Sql.c_string]. split.
  - intro H. inversion H as [| ? ? Hc Hs]; subst.
    replace (c =? 0)%N with false by (symmetry; apply N.eqb_neq; exact Hc).
    f_equal. now apply IH.
  - destruct (c =? 0)%N eqn:E; [discriminate |].
    apply N.eqb_neq in E. intro H. inversion H as [H'].
    constructor; [exact E |]. rewrite H'. now apply IH.
Qed.

Lemma hex_digit_nul_free (n : N) : JSON.hex_digit n <> 0%N.
Proof. unfold JSON.hex_digit. destruct (n <? 10)%N; lia. Qed.

Lemma unicode_escape_nul_free (c : N) :
  Forall (fun c => c <> 0%N) (JSON.unicode_escape c).
Proof.
  unfold JSON.unicode_escape.
  repeat constructor; try discriminate; apply hex_digit_nul_free.
Qed.

Lemma quote_units_nul_free (s : jsstring) :
  Forall (fun c => c <> 0%N) (JSON.quote_units s).
Proof.
  assert (H : forall (n : nat) (s : jsstring),
             (List.length s <= n)%nat ->
             Forall (fun c => c <> 0%N) (JSON.quote_units s)).
  { clear s. induction n as [| n IH]; intros s Hn.
    - destruct s; [constructor | cbn in Hn; lia].
    - destruct s as [| c s]; [constructor |].
      cbn [List.length] in Hn.
      assert (Hs : Forall (fun c => c <> 0%N) (JSON.quote_units s))
        by (apply IH; lia).
      pose proof (unicode_escape_nul_free c) as Hu.
      cbn [JSON.quote_units].
      repeat match goal with
             | |- Forall _ (if ?b then _ else _) => destruct b eqn:?
             end;
        try (apply Forall_app; split; [| exact Hs]; try exact Hu;
             repeat constructor; discriminate).
      + destruct s as [| d s']; [exact Hu |].
        destruct (JSON.is_low_surrogate d) eqn:Ed.
        * unfold JSON.is_low_surrogate in Ed.
          apply andb_true_iff in Ed. destruct Ed as [Ed _].
          apply N.leb_le in Ed.
          match goal with
          | H : (c <? 32)%N = false |- _ => apply N.ltb_ge in H
          end.
          constructor; [lia |]. constructor; [lia |].
          apply IH. cbn [List.length] in Hn. lia.
        * apply Forall_app. split; [exact Hu | exact Hs].
      + constructor; [| exact Hs].
        match goal with H : (c <? 32)%N = false |- _ => apply N.ltb_ge in H end.
        lia. }
  apply (H (List.length s)). lia.
Qed.

Lemma join_comma_nul_free (l : list jsstring) :
  Forall (fun s => Forall (fun c => c <> 0%N) s) l ->
  Forall (fun c => c <> 0%N) (JSON.join_comma l).
Proof.
  induction 1 as [| s l Hs Hl IH]; [constructor |].
  destruct l as [| s' l]; [exact Hs |].
  change (JSON.join_comma (s :: s' :: l))
    with (s ++ [44%N] ++ JSON.join_comma (s' :: l)).
  apply Forall_app. split; [exact Hs |].
  apply Forall_app. split; [repeat constructor; discriminate | exact IH].
Qed.

Lemma stringify_nul_free (a : list jsstring) : nul_free (JSON.stringify a).
Proof.
  apply nul_free_Forall. unfold JSON.stringify.
  apply Forall_app. split; [repeat constructor; discriminate |].
  apply Forall_app. split; [| repeat constructor; discriminate].
  apply join_comma_nul_free. apply Forall_forall. intros q Hq.
  apply in_map_iff in Hq. destruct Hq as (t & <- & _).
  unfold JSON.quote.
  apply Forall_app. split; [repeat constructor; discriminate |].
  apply Forall_app. split; [apply quote_units_nul_free |].
  repeat constructor; discriminate.
Qed.

Lemma plain_tag_nul_free (tag : jsstring) : plain_tag tag -> nul_free tag.
Proof.
  intro H. apply nul_free_Forall. rewrite <- H. apply quote_units_nul_free.
Qed.

Lemma tagPattern_nul_free (tag : jsstring) :
  plain_tag tag -> nul_free (TodoRepository.tagPattern tag).
Proof.
  intro H. apply plain_tag_nul_free, nul_free_Forall in H.
  apply nul_free_Forall. unfold TodoRepository.tagPattern.
  apply Forall_app. split; [repeat constructor; discriminate |].
  apply Forall_app. split; [exact H | repeat constructor; discriminate].
Qed.

Lemma join_comma_In (t : jsstring) (l : list jsstring) :
  In t l -> exists pre post : jsstring, JSON.join_comma l = pre ++ t ++ post.
Proof.
  induction l as [| s l IH]; [intros [] |].
  intros [-> | Hin].
  - destruct l as [| s' l].
    + exists [], []. cbn. now rewrite app_nil_r.
    + exists [], ([44%N] ++ JSON.join_comma (s' :: l)). reflexivity.
  - destruct (IH Hin) as (pre & post & E).
    destruct l as [| s' l]; [destruct Hin |].
    exists (s ++ [44%N] ++ pre), post.
    change (JSON.join_comma (s :: s' :: l))
      with (s ++ [44%N] ++ JSON.join_comma (s' :: l)).
    rewrite E. now rewrite <- !app_assoc.
Qed.

Lemma tags_clause_plain (tags : list jsstring) (tag : jsstring) (row : Row.t) :
  In tag tags -> plain_tag tag -> In tag (Row.tags row) ->
  TodoRepository.tags_clause (Some tags) row = true.
Proof.
  intros Hin Hplain Hrow. unfold TodoRepository.tags_clause.
  destruct tags as [| t0 tags0]; [destruct Hin |].
  refine (proj2 (existsb_exists _ (t0 :: tags0)) _).
  exists tag. split; [exact Hin |].
  apply andb_true_iff. split.
  - destruct (Row.tags row); [destruct Hrow | reflexivity].
  - unfold Sql.like.
    rewrite (tagPattern_nul_free tag Hplain), (stringify_nul_free (Row.tags row)).
    destruct (join_comma_In (JSON.quote tag) (map JSON.quote (Row.tags row)))
      as (pre & post & E); [now apply in_map |].
    unfold JSON.stringify. rewrite E.
    unfold JSON.quote at 1. rewrite Hplain.
    unfold TodoRepository.tagPattern.
    replace ([91%N] ++ (pre ++ ([34%N] ++ tag ++ [34%N]) ++ post) ++ [93%N])
      with ((91%N :: pre) ++ ([34%N] ++ tag ++ [34%N]) ++ (post ++ [93%N]))
      by (repeat (progress cbn [app] || rewrite <- app_assoc); reflexivity).
    replace ([Sql.percent; 34%N] ++ tag ++ [34%N; Sql.percent])
      with (Sql.percent :: ([34%N] ++ tag ++ [34%N]) ++ [Sql.percent])
      by (repeat (progress cbn [app] || rewrite <- app_assoc); reflexivity).
    apply like_percent. eexists. eexists. split; [reflexivity |].
    apply like_same. apply like_percent.
    exists (post ++ [93%N]), []. split; [now rewrite app_nil_r | reflexivity].
Qed.



(* ================================================================= *)
(** ** Statistics *)

Lemma filter_partition_length {A} (f g : A -> bool) (l : list A) :
  (forall x, In x l -> f x = negb (g x)) ->
  (List.length (List.filter f l) + List.length (List.filter g l))%nat
  = List.length l.
Proof.
  induction l as [| x l IH]; intro H; [reflexivity |].
  cbn [List.filter]. rewrite (H x (or_introl eq_refl)).
  destruct (g x); cbn [negb List.length];
    rewrite <- (IH (fun y Hy => H y (or_intror Hy))); lia.
Qed.

Lemma filter_length_le_filter {A} (f g : A -> bool) (l : list A) :
  (forall x, f x = true -> g x = true) ->
  (List.length (List.filter f l) <= List.length (List.filter g l))%nat.
Proof.
  intro H. induction l as [| x l IH]; [reflexivity |].
  cbn [List.filter]. destruct (f x) eqn:Ef.
  - rewrite (H x Ef). cbn. lia.
  - destruct (g x); cbn; lia.
Qed.

Lemma count_priority_sum (db : list Row.t) :
  TodoRepository.count_priority LOW db
  + TodoRepository.count_priority MEDIUM db
  + TodoRepository.count_priority HIGH db
  = Z.of_nat (List.length db).
Proof.
  unfold TodoRepository.count_priority.
  induction db as [| r db IH]; [reflexivity |].
  cbn [List.filter List.length].
  destruct (Row.priority r); cbn [TodoPriority_eqb List.length]; lia.
Qed.

(** X20.  The numbers of [getStats] fit together: [total] is the size of the table,
    [byPriority] adds up to it, no more tasks are overdue than are active,
    and, when [completed] is 0 or 1 in every row as the CHECK of the table
    requires, [completed] and [active] add up to [total].  The table is not
    changed. *)
Theorem getStats_numbers_fit_together (w : World)
    (Hcheck : completed_is_0_or_1 (todos w)) :
  returns TodoService.getStats w
    (fun stats =>
       TodoStats.total stats = Z.of_nat (List.length (todos w))
       /\ TodoStats.completed stats + TodoStats.active stats
          = TodoStats.total stats
       /\ TodoStats.byPriority_low stats + TodoStats.byPriority_medium stats
          + TodoStats.byPriority_high stats = TodoStats.total stats
       /\ 0 <= TodoStats.overdue stats <= TodoStats.active stats)
  /\ table_after TodoService.getStats w = todos w.
Proof.
  unfold returns, table_after, TodoService.getStats, TodoRepository.getStats,
    TodoRepository.count, TodoRepository.datetime_now, TodoRepository.getDatabase,
    Date_now, bind, ret.
  cbn.
  split; [| reflexivity].
  split; [| split; [| split]].
  - f_equal. f_equal. apply forallb_filter_id. apply forallb_forall. reflexivity.
  - rewrite <- Nat2Z.inj_add. f_equal.
    rewrite (filter_ext (fun _ => true) (fun _ => true)) by reflexivity.
    rewrite (forallb_filter_id (fun _ => true) (todos w))
      by (apply forallb_forall; reflexivity).
    apply filter_partition_length. intros r Hr.
    unfold completed_is_0_or_1 in Hcheck. rewrite Forall_forall in Hcheck.
    specialize (Hcheck r Hr). unfold Sql.check_completed in Hcheck.
    unfold TodoRepository.status_clause.
    destruct (Z.eqb_spec (Row.completed r) 0) as [E0 | E0].
    + rewrite E0. reflexivity.
    + cbn in Hcheck. rewrite Hcheck. reflexivity.
  - rewrite count_priority_sum. f_equal. f_equal. symmetry.
    apply forallb_filter_id. apply forallb_forall. reflexivity.
  - split; [lia |]. apply Nat2Z.inj_le. apply filter_length_le_filter.
    intros r Hr. unfold TodoRepository.overdue_clause in Hr.
    apply andb_true_iff in Hr. apply Hr.
Qed.

Lemma getStats_numbers_fit_together_witness :
  returns TodoService.getStats (tasks_world 2 5)
    (fun stats =>
       TodoStats.total stats = Z.of_nat (List.length (todos (tasks_world 2 5)))
       /\ TodoStats.completed stats + TodoStats.active stats
          = TodoStats.total stats
       /\ TodoStats.byPriority_low stats + TodoStats.byPriority_medium stats
          + TodoStats.byPriority_high stats = TodoStats.total stats
       /\ 0 <= TodoStats.overdue stats <= TodoStats.active stats).
Proof.
  apply (getStats_numbers_fit_together (tasks_world 2 5)).
  repeat constructor.
Defined.

(* ================================================================= *)
(** ** Deleting *)

Lemma filter_length_changes {A} (f : A -> bool) (l : list A) :
  Z.of_nat (List.length l)
  - Z.of_nat (List.length (List.filter (fun x => negb (f x)) l))
  = Z.of_nat (List.length (List.filter f l)).
Proof.
  induction l as [| x l IH]; [reflexivity |].
  cbn [List.filter List.length]. destruct (f x); cbn [negb List.length]; lia.
Qed.

Lemma filter_none {A} (f : A -> bool) (l : list A) :
  (forall x, In x l -> f x = false) -> List.filter f l = [].
Proof.
  induction l as [| x l IH]; intro H; [reflexivity |].
  cbn. rewrite (H x (or_introl eq_refl)).
  apply IH. intros y Hy. apply H. now right.
Qed.

Lemma filter_all {A} (f : A -> bool) (l : list A) :
  (forall x, In x l -> f x = true) -> List.filter f l = l.
Proof.
  induction l as [| x l IH]; intro H; [reflexivity |].
  cbn. rewrite (H x (or_introl eq_refl)). f_equal.
  apply IH. intros y Hy. apply H. now right.
Qed.

Lemma delete_outcome (id : jsstring) (w : World) :
  TodoRepository.delete id w
  = (Ok (0 <? Z.of_nat (List.length
                          (List.filter (TodoRepository.has_id id) (todos w)))),
     mkWorld (without_id id (todos w)) (clock w) (uuids w) (timezone w) (scan w)).
Proof.
  unfold TodoRepository.delete, TodoRepository.delete_where, bind, ret,
    TodoRepository.changes. cbn [todos].
  now rewrite filter_length_changes.
Qed.

Lemma has_id_absent (id : jsstring) (table : list Row.t) :
  (forall r, In r table -> Row.id r <> id) ->
  List.filter (TodoRepository.has_id id) table = []
  /\ without_id id table = table.
Proof.
  intro H. split.
  - apply filter_none. intros r Hr. apply JsString_eqb_neq. now apply H.
  - apply filter_all. intros r Hr. apply negb_true_iff, JsString_eqb_neq.
    now apply H.
Qed.

Lemma has_id_present (id : jsstring) (table : list Row.t) :
  (exists r, In r table /\ Row.id r = id) ->
  (0 <? Z.of_nat (List.length (List.filter (TodoRepository.has_id id) table)))
  = true.
Proof.
  intros (r & Hin & Hid).
  assert (H : In r (List.filter (TodoRepository.has_id id) table)).
  { apply filter_In. split; [exact Hin |]. now apply JsString_eqb_eq. }
  destruct (List.filter _ table); [destruct H | reflexivity].
Qed.

Lemma without_id_In (id : jsstring) (table : list Row.t) (r : Row.t) :
  In r (without_id id table) <-> In r table /\ Row.id r <> id.
Proof.
  unfold without_id. rewrite filter_In, negb_true_iff, JsString_eqb_neq.
  reflexivity.
Qed.

(** X21.  [deleteTodo] refuses a blank identifier with a BadRequestError and an
    identifier no row carries with a TodoNotFoundError, leaving the table as
    it was; otherwise it returns and the table has lost the rows of this
    identifier and no other row, the rest keeping its order. *)
Theorem deleteTodo_removes_the_row_or_says_why (id : jsstring) (w : World) :
  (TodoService.blank id = true ->
   fst (TodoService.deleteTodo id w) = Throw BadRequestError
   /\ table_after (TodoService.deleteTodo id) w = todos w)
  /\ (TodoService.blank id = false ->
      (forall r, In r (todos w) -> Row.id r <> id) ->
      fst (TodoService.deleteTodo id w) = Throw (TodoNotFoundError id)
      /\ table_after (TodoService.deleteTodo id) w = todos w)
  /\ (TodoService.blank id = false ->
      (exists r, In r (todos w) /\ Row.id r = id) ->
      fst (TodoService.deleteTodo id w) = Ok tt
      /\ table_after (TodoService.deleteTodo id) w = without_id id (todos w)
      /\ forall r, In r (table_after (TodoService.deleteTodo id) w)
                   <-> In r (todos w) /\ Row.id r <> id).
Proof.
  unfold table_after, TodoService.deleteTodo.
  destruct (TodoService.blank id).
  - split; [intros _; split; reflexivity |]. split; discriminate.
  - split; [discriminate |].
    unfold bind. rewrite delete_outcome. split.
    + intros _ Hnone. destruct (has_id_absent id (todos w) Hnone) as [-> ->].
      split; reflexivity.
    + intros _ Hsome. rewrite (has_id_present id (todos w) Hsome). cbn.
      split; [reflexivity |]. split; [reflexivity |].
      intro r. apply without_id_In.
Qed.

(** X22.  Once [deleteTodo] has run for an identifier that is not blank, no row
    carries it: [getTodoById] and a second [deleteTodo] throw
    TodoNotFoundError, and [exists] answers false. *)
Theorem deleted_todo_is_gone (id : jsstring) (w : World)
    (Hid : TodoService.blank id = false) :
  let w' := snd (TodoService.deleteTodo id w) in
  fst (TodoService.getTodoById id w') = Throw (TodoNotFoundError id)
  /\ fst (TodoService.deleteTodo id w') = Throw (TodoNotFoundError id)
  /\ fst (TodoRepository.exists_ id w') = Ok false
  /\ todos (snd (TodoService.deleteTodo id w')) = todos w'.
Proof.
  intro w'.
  assert (Ht : todos w' = without_id id (todos w)).
  { unfold w', TodoService.deleteTodo. rewrite Hid.
    unfold bind. rewrite delete_outcome.
    destruct (0 <? _); reflexivity. }
  assert (Hnone : forall r, In r (todos w') -> Row.id r <> id).
  { intros r Hr. rewrite Ht in Hr. now apply without_id_In in Hr. }
  destruct (has_id_absent id (todos w') Hnone) as [Hf Hk].
  split; [| split; [| split]].
  - unfold TodoService.getTodoById.
    change (negb (JsString.truthy id)
            || (JsString.length (JsString.trim id) =? 0))
      with (TodoService.blank id).
    rewrite Hid.
    unfold TodoRepository.findById, TodoRepository.getDatabase, bind. cbn.
    pose proof (find_has_id id (todos w')) as Hfind.
    destruct (List.find _ (todos w')) as [row |]; [| reflexivity].
    destruct Hfind as [Hin He]. exfalso. exact (Hnone row Hin He).
  - unfold TodoService.deleteTodo. rewrite Hid.
    unfold bind. rewrite delete_outcome, Hf. reflexivity.
  - unfold TodoRepository.exists_, TodoRepository.getDatabase, bind, ret.
    cbn. now rewrite Hf.
  - unfold TodoService.deleteTodo. rewrite Hid.
    unfold bind. rewrite delete_outcome, Hf, Hk. reflexivity.
Qed.

Lemma deleted_todo_is_gone_witness :
  let w' := snd (TodoService.deleteTodo (js "task-1") (tasks_world 2 5)) in
  fst (TodoService.getTodoById (js "task-1") w')
  = Throw (TodoNotFoundError (js "task-1"))
  /\ fst (TodoService.deleteTodo (js "task-1") w')
     = Throw (TodoNotFoundError (js "task-1"))
  /\ fst (TodoRepository.exists_ (js "task-1") w') = Ok false
  /\ todos (snd (TodoService.deleteTodo (js "task-1") w')) = todos w'.
Proof.
  apply (deleted_todo_is_gone (js "task-1") (tasks_world 2 5)).
  reflexivity.
Defined.

(** [exists(id)] answers true exactly when [findById(id)] returns a todo. *)
Theorem exists_agrees_with_findById (id : jsstring) (w : World) :
  returns (TodoRepository.exists_ id) w
    (fun found =>
       returns (TodoRepository.findById id) w
         (fun todo => found = true <-> todo <> None)).
Proof.
  unfold returns, TodoRepository.exists_, TodoRepository.findById,
    TodoRepository.getDatabase, bind, ret. cbn.
  pose proof (find_has_id id (todos w)) as Hfind.
  destruct (List.find _ (todos w)) as [row |].
  - destruct (row_to_json_runs row w) as (todo & w' & E & _). rewrite E. cbn.
    rewrite has_id_present by (exists row; exact Hfind).
    split; [discriminate | reflexivity].
  - cbn. destruct (has_id_absent id (todos w) Hfind) as [-> _]. cbn.
    split; [discriminate | congruence].
Qed.

Lemma first_blank_id_spec (ids : list jsstring) :
  forall index : nat,
    match TodoService.first_blank_id index ids with
    | Some (i, id) =>
        (index <= i)%nat
        /\ nth_error ids (i - index) = Some id
        /\ TodoService.blank id = true
        /\ Forall (fun id' => TodoService.blank id' = false)
             (firstn (i - index) ids)
    | None => Forall (fun id' => TodoService.blank id' = false) ids
    end.
Proof.
  induction ids as [| id rest IH]; intro index; cbn.
  - constructor.
  - destruct (TodoService.blank id) eqn:Eb.
    + rewrite Nat.sub_diag. cbn. repeat split; auto.
    + specialize (IH (S index)).
      destruct (TodoService.first_blank_id (S index) rest) as [[i id'] |].
      * destruct IH as (Hle & Hn & Hb & Hf).
        replace (i - index)%nat with (S (i - S index)) by lia. cbn.
        repeat split; auto; try lia.
      * constructor; assumption.
Qed.

Lemma prepare_few (variables depth : Z) :
  variables <= Sql.SQLITE_MAX_VARIABLE_NUMBER ->
  depth <= Sql.SQLITE_MAX_EXPR_DEPTH ->
  Sql.prepare variables depth = Ok tt.
Proof.
  intros Hv Hd. unfold Sql.prepare.
  replace (Sql.SQLITE_MAX_EXPR_DEPTH <? depth) with false
    by (symmetry; apply Z.ltb_ge; exact Hd).
  replace (Sql.SQLITE_MAX_VARIABLE_NUMBER <? variables) with false
    by (symmetry; apply Z.ltb_ge; exact Hv).
  reflexivity.
Qed.

Lemma prepare_many (variables depth : Z) :
  Sql.SQLITE_MAX_VARIABLE_NUMBER < variables ->
  depth <= Sql.SQLITE_MAX_EXPR_DEPTH ->
  Sql.prepare variables depth = Throw (SqliteError TOO_MANY_VARIABLES).
Proof.
  intros Hv Hd. unfold Sql.prepare.
  replace (Sql.SQLITE_MAX_EXPR_DEPTH <? depth) with false
    by (symmetry; apply Z.ltb_ge; exact Hd).
  replace (Sql.SQLITE_MAX_VARIABLE_NUMBER <? variables) with true
    by (symmetry; apply Z.ltb_lt; exact Hv).
  reflexivity.
Qed.

(** Few enough identifiers: the DELETE is prepared and runs. *)
Lemma repository_bulkDelete_few (ids : list jsstring) (w : World) :
  ids <> [] ->
  Z.of_nat (List.length ids) <= Sql.SQLITE_MAX_VARIABLE_NUMBER ->
  TodoRepository.bulkDelete ids w
  = TodoRepository.delete_where (TodoRepository.id_in ids) w.
Proof.
  intros Hne Hn. unfold TodoRepository.bulkDelete.
  destruct ids as [| id ids]; [contradiction |].
  unfold bind, lift. rewrite prepare_few; [reflexivity | exact Hn |].
  unfold Sql.SQLITE_MAX_EXPR_DEPTH. lia.
Qed.

(** X23.  What [bulkDelete] refuses: an empty list, more than 100 identifiers, then
    the first blank identifier, named with its position; the table is left
    as it was.  A request it does not refuse is [deletable]. *)
Theorem bulkDelete_refuses_bad_requests (ids : list jsstring) (w : World) :
  match TodoService.bulkDelete ids w with
  | (Fails EmptyIds, w') => ids = [] /\ w' = w
  | (Fails (TooManyIds n), w') =>
      n = Z.of_nat (List.length ids) /\ (100 < List.length ids)%nat /\ w' = w
  | (Fails (InvalidId index id), w') =>
      (1 <= List.length ids <= 100)%nat
      /\ nth_error ids index = Some id
      /\ TodoService.blank id = true
      /\ Forall (fun id' => TodoService.blank id' = false) (firstn index ids)
      /\ w' = w
  | (Fails _, _) => False
  | (Done _, _) => deletable ids
  end.
Proof.
  unfold TodoService.bulkDelete.
  destruct (Z.eqb_spec (Z.of_nat (List.length ids)) 0) as [E0 | E0].
  - cbn. split; [| reflexivity]. destruct ids; [reflexivity | cbn in E0; lia].
  - destruct (Z.ltb_spec 100 (Z.of_nat (List.length ids))) as [E100 | E100].
    + cbn. repeat split; lia.
    + pose proof (first_blank_id_spec ids 0) as Hb.
      destruct (TodoService.first_blank_id 0 ids) as [[i id] |].
      * cbn. rewrite Nat.sub_0_r in Hb. destruct Hb as (_ & Hn & Hbl & Hf).
        repeat split; auto; lia.
      * assert (Hne : ids <> []) by (intros ->; apply E0; reflexivity).
        unfold run_M.
        rewrite (repository_bulkDelete_few ids w Hne)
          by (unfold Sql.SQLITE_MAX_VARIABLE_NUMBER; lia).
        cbn -[List.length]. split; [lia | exact Hb].
Qed.

Lemma id_in_spec (ids : list jsstring) (r : Row.t) :
  TodoRepository.id_in ids r = true <-> In (Row.id r) ids.
Proof.
  unfold TodoRepository.id_in. rewrite existsb_exists. split.
  - intros (id & Hin & He). apply JsString_eqb_eq in He. now rewrite He.
  - intro Hin. exists (Row.id r). split; [exact Hin | apply JsString_eqb_refl].
Qed.

Lemma distinct_ids_filter (f : Row.t -> bool) (table : list Row.t) :
  distinct_ids table -> distinct_ids (List.filter f table).
Proof.
  unfold distinct_ids. induction table as [| r table IH]; intro H; [exact H |].
  cbn in H. inversion H as [| ? ? Hnot Hrest]; subst.
  cbn. destruct (f r); [| now apply IH].
  cbn. constructor; [| now apply IH].
  intro Hin. apply Hnot. apply in_map_iff in Hin.
  destruct Hin as (x & Hx & Hxin). apply filter_In in Hxin.
  apply in_map_iff. exists x. tauto.
Qed.

(** X24.  An accepted [bulkDelete] returns the number of rows it removes: the rows
    whose identifier is in the list go, the others stay in their order, and
    identifiers that no row carries are passed over in silence.  With the
    identifiers of the table distinct, as its primary key requires, the
    number returned is at most the number of identifiers sent. *)
Theorem bulkDelete_returns_the_number_of_rows_removed
    (ids : list jsstring) (w : World)
    (Hids : deletable ids) (Hkey : distinct_ids (todos w)) :
  exists (n : Z) (w' : World),
    TodoService.bulkDelete ids w = (Done n, w')
    /\ todos w'
       = List.filter (fun r => negb (TodoRepository.id_in ids r)) (todos w)
    /\ (forall r, In r (todos w') <-> In r (todos w) /\ ~ In (Row.id r) ids)
    /\ n = Z.of_nat (List.length (todos w)) - Z.of_nat (List.length (todos w'))
    /\ 0 <= n <= Z.of_nat (List.length ids)
    /\ distinct_ids (todos w').
Proof.
  destruct Hids as [[H1 H100] Hnb].
  unfold TodoService.bulkDelete.
  destruct (Z.eqb_spec (Z.of_nat (List.length ids)) 0) as [E0 | _]; [lia |].
  destruct (Z.ltb_spec 100 (Z.of_nat (List.length ids))) as [E100 | _]; [lia |].
  pose proof (first_blank_id_spec ids 0) as Hb.
  destruct (TodoService.first_blank_id 0 ids) as [[i id] |].
  - exfalso. rewrite Nat.sub_0_r in Hb. destruct Hb as (_ & Hn & Hbl & _).
    apply nth_error_In in Hn. rewrite Forall_forall in Hnb.
    rewrite (Hnb id Hn) in Hbl. discriminate.
  - assert (Hne : ids <> []) by (intros ->; cbn in H1; lia).
    unfold run_M.
    rewrite (repository_bulkDelete_few ids w Hne)
      by (unfold Sql.SQLITE_MAX_VARIABLE_NUMBER; lia).
    unfold TodoRepository.delete_where, TodoRepository.changes.
    eexists. eexists. split; [reflexivity |]. cbn [todos].
    split; [reflexivity |].
    split.
    { intro r. rewrite filter_In, negb_true_iff.
      rewrite <- (id_in_spec ids r).
      destruct (TodoRepository.id_in ids r); intuition congruence. }
    split; [reflexivity |].
    split; [| now apply distinct_ids_filter].
    rewrite filter_length_changes.
    split; [lia |].
    apply Nat2Z.inj_le.
    rewrite <- (length_map Row.id).
    apply NoDup_incl_length.
    + exact (distinct_ids_filter _ _ Hkey).
    + intros x Hx. apply in_map_iff in Hx. destruct Hx as (r & <- & Hr).
      apply filter_In in Hr. now apply id_in_spec.
Qed.

Lemma five_tasks_have_distinct_ids : distinct_ids (todos (tasks_world 2 5)).
Proof.
  unfold distinct_ids.
  assert (H : nodup (list_eq_dec N.eq_dec)
                (map Row.id (todos (tasks_world 2 5)))
              = map Row.id (todos (tasks_world 2 5)))
    by (vm_compute; reflexivity).
  rewrite <- H. apply NoDup_nodup.
Qed.

Lemma bulkDelete_returns_the_number_of_rows_removed_witness :
  exists (n : Z) (w' : World),
    TodoService.bulkDelete [js "task-1"; js "nobody"; js "task-3"]
      (tasks_world 2 5) = (Done n, w')
    /\ todos w'
       = List.filter
           (fun r => negb (TodoRepository.id_in
                             [js "task-1"; js "nobody"; js "task-3"] r))
           (todos (tasks_world 2 5))
    /\ (forall r, In r (todos w')
                  <-> In r (todos (tasks_world 2 5))
                      /\ ~ In (Row.id r) [js "task-1"; js "nobody"; js "task-3"])
    /\ n = Z.of_nat (List.length (todos (tasks_world 2 5)))
           - Z.of_nat (List.length (todos w'))
    /\ 0 <= n <= Z.of_nat (List.length [js "task-1"; js "nobody"; js "task-3"])
    /\ distinct_ids (todos w').
Proof.
  apply (bulkDelete_returns_the_number_of_rows_removed
           [js "task-1"; js "nobody"; js "task-3"] (tasks_world 2 5)).
  - split; [cbn; lia | repeat constructor].
  - exact five_tasks_have_distinct_ids.
Defined.

(** X25.  [deleteCompleted] removes the rows whose [completed] is 1 and returns
    their number; the other rows stay, in their order.  Afterwards no row
    counts as completed, the active rows are those of before, and a second
    call removes nothing and returns 0. *)
Theorem deleteCompleted_removes_the_completed_rows (w : World) :
  let w' := snd (TodoService.deleteCompleted w) in
  fst (TodoService.deleteCompleted w)
  = Ok (Z.of_nat (List.length
                    (List.filter (TodoRepository.status_clause COMPLETED)
                       (todos w))))
  /\ todos w' = List.filter (fun r => negb (Row.completed r =? 1)) (todos w)
  /\ fst (TodoRepository.count COMPLETED w') = Ok 0
  /\ fst (TodoRepository.count ACTIVE w') = fst (TodoRepository.count ACTIVE w)
  /\ TodoService.deleteCompleted w' = (Ok 0, w').
Proof.
  intro w'.
  assert (Ht : todos w'
               = List.filter (fun r => negb (Row.completed r =? 1)) (todos w))
    by reflexivity.
  assert (Hnone : List.filter (fun r => Row.completed r =? 1) (todos w') = []).
  { apply filter_none. intros r Hr. rewrite Ht in Hr.
    apply filter_In in Hr. now apply negb_true_iff. }
  split; [| split; [exact Ht | split; [| split]]].
  - unfold TodoService.deleteCompleted, TodoRepository.deleteCompleted,
      TodoRepository.delete_where, TodoRepository.changes. cbn [fst todos].
    now rewrite filter_length_changes.
  - change (fst (TodoRepository.count COMPLETED w'))
      with (Ok (A := Z)
              (Z.of_nat (List.length
                           (List.filter (fun r => Row.completed r =? 1)
                              (todos w'))))).
    now rewrite Hnone.
  - change (Ok (A := Z)
              (Z.of_nat (List.length
                           (List.filter (fun r => Row.completed r =? 0)
                              (todos w'))))
            = Ok (Z.of_nat (List.length
                              (List.filter (fun r => Row.completed r =? 0)
                                 (todos w))))).
    rewrite Ht. do 3 f_equal. clear.
    induction (todos w) as [| r l IH]; [reflexivity |].
    cbn. destruct (Z.eqb_spec (Row.completed r) 1) as [E1 | E1]; cbn.
    + rewrite E1. cbn. exact IH.
    + destruct (Row.completed r =? 0); cbn; now rewrite IH.
  - unfold TodoService.deleteCompleted, TodoRepository.deleteCompleted,
      TodoRepository.delete_where, TodoRepository.changes.
    rewrite filter_length_changes, Hnone.
    assert (Hall : List.filter (fun r => negb (Row.completed r =? 1)) (todos w')
                   = todos w').
    { rewrite Ht. apply filter_all. intros r Hr. now apply filter_In in Hr. }
    rewrite Hall. cbn. destruct w'; reflexivity.
Qed.

(* ================================================================= *)
(** ** Completing in bulk *)

Lemma existsb_false_filter {A} (f : A -> bool) (l : list A) :
  existsb f l = false -> List.filter f l = [].
Proof.
  intro H. apply filter_none. intros x Hx.
  destruct (f x) eqn:E; [| reflexivity].
  assert (existsb f l = true) by (apply existsb_exists; eauto). congruence.
Qed.

(** An UPDATE whose new columns pass their CHECK clauses returns the number
    of rows of its WHERE clause. *)
Lemma update_where_outcome (hit : Row.t -> bool)
    (set : SqlText -> Row.t -> Row.t) (check : Row.t -> bool) (w : World) :
  (forall s r, check (set (DatetimeText s) r) = true) ->
  TodoRepository.update_where hit set check w
  = (Ok (Z.of_nat (List.length (List.filter hit (todos w)))),
     if existsb hit (todos w) then
       mkWorld
         (map (fun r => if hit r
                        then TodoRepository.touch (next_datetime w)
                               (set (next_datetime w) r)
                        else r) (todos w))
         (fun n => clock w (S n)) (uuids w) (timezone w) (scan w)
     else w).
Proof.
  intro Hcheck. unfold TodoRepository.update_where.
  destruct (existsb hit (todos w)) eqn:E.
  - replace (forallb _ (todos w)) with true; [reflexivity |].
    symmetry. apply forallb_forall. intros r _.
    rewrite Hcheck. apply orb_true_r.
  - now rewrite (existsb_false_filter _ _ E).
Qed.

Lemma update_where_table (hit : Row.t -> bool) (f : Row.t -> Row.t)
    (w : World) (c : nat -> Z) :
  todos (if existsb hit (todos w) then
           mkWorld (map (fun r => if hit r then f r else r) (todos w))
             c (uuids w) (timezone w) (scan w)
         else w)
  = map (fun r => if hit r then f r else r) (todos w).
Proof.
  destruct (existsb hit (todos w)) eqn:E; [reflexivity |].
  symmetry. rewrite <- (map_id (todos w)) at 2.
  apply map_ext_in. intros r Hr.
  destruct (hit r) eqn:Eh; [| reflexivity].
  assert (existsb hit (todos w) = true) by (apply existsb_exists; eauto).
  congruence.
Qed.

Lemma Forall2_map_r {A B} (R : A -> B -> Prop) (f : A -> B) (l : list A) :
  (forall a, R a (f a)) -> Forall2 R l (map f l).
Proof. intro H. induction l; cbn; constructor; auto. Qed.

Lemma existsb_map_false {A} (hit : A -> bool) (f : A -> A) (l : list A) :
  (forall a, hit a = true -> hit (f a) = false) ->
  existsb hit (map (fun a => if hit a then f a else a) l) = false.
Proof.
  intro H. induction l as [| a l IH]; [reflexivity |].
  cbn. rewrite IH, orb_false_r.
  destruct (hit a) eqn:E; [now apply H | exact E].
Qed.

(** Few enough identifiers: the UPDATE is prepared and runs; too many, and
    it is refused before it touches the table. *)
Lemma bulkComplete_few (ids : list jsstring) (w : World) :
  ids <> [] ->
  Z.of_nat (List.length ids) <= Sql.SQLITE_MAX_VARIABLE_NUMBER ->
  TodoRepository.bulkComplete ids w
  = TodoRepository.update_where (to_complete ids)
      (fun now => TodoRepository.set_completion 1 (Some now) now)
      TodoRepository.check_completion w.
Proof.
  intros Hne Hn. unfold TodoRepository.bulkComplete.
  destruct ids as [| id ids]; [contradiction |].
  unfold bind, lift. rewrite prepare_few; [reflexivity | exact Hn |].
  unfold Sql.SQLITE_MAX_EXPR_DEPTH. lia.
Qed.

Lemma bulkUncomplete_few (ids : list jsstring) (w : World) :
  ids <> [] ->
  Z.of_nat (List.length ids) <= Sql.SQLITE_MAX_VARIABLE_NUMBER ->
  TodoRepository.bulkUncomplete ids w
  = TodoRepository.update_where (to_uncomplete ids)
      (fun now => TodoRepository.set_completion 0 None now)
      TodoRepository.check_completion w.
Proof.
  intros Hne Hn. unfold TodoRepository.bulkUncomplete.
  destruct ids as [| id ids]; [contradiction |].
  unfold bind, lift. rewrite prepare_few; [reflexivity | exact Hn |].
  unfold Sql.SQLITE_MAX_EXPR_DEPTH. lia.
Qed.

Lemma bulk_completion_many (ids : list jsstring) (w : World) :
  Sql.SQLITE_MAX_VARIABLE_NUMBER < Z.of_nat (List.length ids) ->
  TodoRepository.bulkComplete ids w
  = (Throw (SqliteError TOO_MANY_VARIABLES), w)
  /\ TodoRepository.bulkUncomplete ids w
     = (Throw (SqliteError TOO_MANY_VARIABLES), w).
Proof.
  intro Hn.
  unfold TodoRepository.bulkComplete, TodoRepository.bulkUncomplete.
  destruct ids as [| id ids];
    [unfold Sql.SQLITE_MAX_VARIABLE_NUMBER in Hn; cbn in Hn; lia |].
  unfold bind, lift.
  rewrite prepare_many by (exact Hn || (unfold Sql.SQLITE_MAX_EXPR_DEPTH; lia)).
  split; reflexivity.
Qed.

Lemma bulkComplete_outcome
    (ids : list jsstring) (w : World) :
  Z.of_nat (List.length ids) <= Sql.SQLITE_MAX_VARIABLE_NUMBER ->
  exists w' : World,
    TodoRepository.bulkComplete ids w
    = (Ok (Z.of_nat (List.length (List.filter (to_complete ids) (todos w)))), w')
    /\ Forall2
         (fun r r' =>
            same_task r r'
            /\ if to_complete ids r
               then Row.completed r' = 1
                    /\ Row.completed_at r' = Some (next_datetime w)
                    /\ Row.updated_at r' = next_datetime w
               else r' = r)
         (todos w) (todos w')
    /\ TodoRepository.bulkComplete ids w' = (Ok 0, w').
Proof.
  intro Hfew.
  assert (Hcheck : forall s r,
             TodoRepository.check_completion
               (TodoRepository.set_completion 1 (Some (DatetimeText s))
                  (DatetimeText s) r) = true).
  { intros s r.
    unfold TodoRepository.check_completion, Sql.check_completed,
      Sql.check_datetime. cbn. apply Z.eqb_refl. }
  destruct ids as [| id0 ids0].
  - exists w.
    rewrite (filter_none (to_complete []) (todos w)) by reflexivity.
    split; [reflexivity |]. split; [| reflexivity].
    rewrite <- (map_id (todos w)) at 2.
    apply Forall2_map_r. intro r. repeat split.
  - set (ids := id0 :: ids0) in *.
    assert (Hne : ids <> []) by discriminate.
    rewrite (bulkComplete_few ids w Hne Hfew).
    rewrite update_where_outcome by exact Hcheck.
    eexists. split; [reflexivity |].
    rewrite update_where_table.
    split.
    + apply Forall2_map_r. intro r.
      destruct (to_complete ids r); repeat split.
    + rewrite (bulkComplete_few ids _ Hne Hfew).
      rewrite update_where_outcome by exact Hcheck.
      rewrite update_where_table.
      match goal with
      | |- context [existsb ?h (map ?f ?l)] =>
          assert (He : existsb h (map f l) = false)
      end.
      { apply existsb_map_false. intros r Hr. unfold to_complete. cbn.
        apply andb_false_r. }
      rewrite (existsb_false_filter _ _ He), He. reflexivity.
Qed.

Lemma bulkUncomplete_outcome
    (ids : list jsstring) (w : World) :
  Z.of_nat (List.length ids) <= Sql.SQLITE_MAX_VARIABLE_NUMBER ->
  exists w' : World,
    TodoRepository.bulkUncomplete ids w
    = (Ok (Z.of_nat (List.length (List.filter (to_uncomplete ids) (todos w)))),
       w')
    /\ Forall2
         (fun r r' =>
            same_task r r'
            /\ if to_uncomplete ids r
               then Row.completed r' = 0
                    /\ Row.completed_at r' = None
                    /\ Row.updated_at r' = next_datetime w
               else r' = r)
         (todos w) (todos w')
    /\ TodoRepository.bulkUncomplete ids w' = (Ok 0, w').
Proof.
  intro Hfew.
  assert (Hcheck : forall s r,
             TodoRepository.check_completion
               (TodoRepository.set_completion 0 None (DatetimeText s) r) = true)
    by reflexivity.
  destruct ids as [| id0 ids0].
  - exists w.
    rewrite (filter_none (to_uncomplete []) (todos w)) by reflexivity.
    split; [reflexivity |]. split; [| reflexivity].
    rewrite <- (map_id (todos w)) at 2.
    apply Forall2_map_r. intro r. repeat split.
  - set (ids := id0 :: ids0) in *.
    assert (Hne : ids <> []) by discriminate.
    rewrite (bulkUncomplete_few ids w Hne Hfew).
    rewrite update_where_outcome by exact Hcheck.
    eexists. split; [reflexivity |].
    rewrite update_where_table.
    split.
    + apply Forall2_map_r. intro r.
      destruct (to_uncomplete ids r); repeat split.
    + rewrite (bulkUncomplete_few ids _ Hne Hfew).
      rewrite update_where_outcome by exact Hcheck.
      rewrite update_where_table.
      match goal with
      | |- context [existsb ?h (map ?f ?l)] =>
          assert (He : existsb h (map f l) = false)
      end.
      { apply existsb_map_false. intros r Hr. unfold to_uncomplete. cbn.
        apply andb_false_r. }
      rewrite (existsb_false_filter _ _ He), He. reflexivity.
Qed.

(** X26.  With at most 32766 identifiers, the number of parameters SQLite
    allows in a statement, [bulkComplete(ids)] and [bulkUncomplete(ids)]
    return.  The first marks the rows named in [ids] that are not completed:
    their [completed] becomes 1, their [completed_at] and [updated_at] the
    [datetime('now')] of the statement.  The second clears the rows named in
    [ids] that are completed: their [completed] becomes 0, their
    [completed_at] NULL, their [updated_at] the [datetime('now')] of the
    statement.  Every other row, and every other column, is left as it was.
    Each returns the number of rows it changed, and a second call with the
    same list changes none and returns 0.  With more identifiers both throw
    the error of SQLite and change no row. *)
Theorem bulk_completion_changes_each_row_once
    (ids : list jsstring) (w : World) :
  (Z.of_nat (List.length ids) <= Sql.SQLITE_MAX_VARIABLE_NUMBER ->
   (exists w' : World,
       TodoRepository.bulkComplete ids w
       = (Ok (Z.of_nat (List.length (List.filter (to_complete ids) (todos w)))),
          w')
       /\ Forall2
            (fun r r' =>
               same_task r r'
               /\ if to_complete ids r
                  then Row.completed r' = 1
                       /\ Row.completed_at r' = Some (next_datetime w)
                       /\ Row.updated_at r' = next_datetime w
                  else r' = r)
            (todos w) (todos w')
       /\ TodoRepository.bulkComplete ids w' = (Ok 0, w'))
   /\ (exists w' : World,
          TodoRepository.bulkUncomplete ids w
          = (Ok (Z.of_nat (List.length
                             (List.filter (to_uncomplete ids) (todos w)))),
             w')
          /\ Forall2
               (fun r r' =>
                  same_task r r'
                  /\ if to_uncomplete ids r
                     then Row.completed r' = 0
                          /\ Row.completed_at r' = None
                          /\ Row.updated_at r' = next_datetime w
                     else r' = r)
               (todos w) (todos w')
          /\ TodoRepository.bulkUncomplete ids w' = (Ok 0, w')))
  /\ (Sql.SQLITE_MAX_VARIABLE_NUMBER < Z.of_nat (List.length ids) ->
      TodoRepository.bulkComplete ids w
      = (Throw (SqliteError TOO_MANY_VARIABLES), w)
      /\ TodoRepository.bulkUncomplete ids w
         = (Throw (SqliteError TOO_MANY_VARIABLES), w)).
Proof.
  split.
  - intro Hfew.
    split; [now apply bulkComplete_outcome | now apply bulkUncomplete_outcome].
  - apply bulk_completion_many.
Qed.

(** Two of five tasks are completed: completing the second and the fourth
    changes the fourth only, and 32767 identifiers are refused. *)
Lemma bulk_completion_changes_each_row_once_witness :
  (Z.of_nat (List.length [js "task-1"; js "task-3"])
   <= Sql.SQLITE_MAX_VARIABLE_NUMBER
   /\ fst (TodoRepository.bulkComplete [js "task-1"; js "task-3"]
             (tasks_world 2 5)) = Ok 1)
  /\ (Sql.SQLITE_MAX_VARIABLE_NUMBER
      < Z.of_nat (List.length (many_ids))
      /\ TodoRepository.bulkComplete (many_ids)
           (tasks_world 2 5)
         = (Throw (SqliteError TOO_MANY_VARIABLES), tasks_world 2 5)).
Proof.
  assert (Hfew : Z.of_nat (List.length [js "task-1"; js "task-3"])
                 <= Sql.SQLITE_MAX_VARIABLE_NUMBER)
    by (vm_compute; discriminate).
  assert (Hmany : Sql.SQLITE_MAX_VARIABLE_NUMBER
                  < Z.of_nat (List.length (many_ids)))
    by (unfold many_ids; rewrite repeat_length; reflexivity).
  split; (split; [assumption |]).
  - destruct (bulk_completion_changes_each_row_once
                [js "task-1"; js "task-3"] (tasks_world 2 5)) as [Hsmall _].
    destruct (Hsmall Hfew) as [(w' & E & _) _].
    rewrite E. reflexivity.
  - destruct (bulk_completion_changes_each_row_once
                (many_ids) (tasks_world 2 5)) as [_ Hbig].
    exact (proj1 (Hbig Hmany)).
Defined.

(* ================================================================= *)
(** ** Updating *)

Lemma fromDatabase_reads (row : Row.t) (w : World) :
  Row.id row <> [] ->
  Todo.fromDatabase row w = (Ok (read_row (timezone w) row), w)
  /\ TodoRepository.row_to_json row w = (Ok (read_row (timezone w) row), w).
Proof.
  intro Hid.
  unfold TodoRepository.row_to_json, Todo.fromDatabase, Todo.optional_date,
    Todo.new, Date_parse, bind, ret, read_row, read_date.
  destruct row as [i ti de co pr du ta cr up ca]; cbn in *.
  destruct i as [| c i']; [congruence |].
  destruct du as [du |], ca as [ca |]; cbn; split; reflexivity.
Qed.

Lemma update_runs (u : Partial.t) (t : ITodo.t) (w : World) :
  exists (t' : ITodo.t) (w' : World) (k : nat),
    Todo.update u t w = (Ok t', w')
    /\ updated_by u (clock w 0) t t'
    /\ ITodo.updatedAt t' = MkDate (clock w k)
    /\ (forall n : nat, clock w' n = clock w (S k + n)%nat)
    /\ todos w' = todos w /\ timezone w' = timezone w /\ uuids w' = uuids w.
Proof.
  unfold Todo.update, Todo.complete, Todo.uncomplete, updated_by.
  destruct (Partial.completed u) as [[|] |], (ITodo.completed t) eqn:E; cbn;
    try rewrite E; cbn.
  all: try (eexists; eexists; exists 0%nat; split; [reflexivity |];
            cbn; repeat split; reflexivity).
  - eexists; eexists; exists 2%nat; split; [reflexivity |];
      cbn; repeat split; reflexivity.
  - eexists; eexists; exists 1%nat; split; [reflexivity |];
      cbn; repeat split; reflexivity.
Qed.

Lemma find_distinct (table : list Row.t) (row : Row.t) :
  distinct_ids table -> In row table ->
  List.find (TodoRepository.has_id (Row.id row)) table = Some row.
Proof.
  unfold distinct_ids, TodoRepository.has_id.
  induction table as [| r l IH]; intros Hd Hin; [destruct Hin |].
  cbn in Hd. inversion Hd as [| ? ? Hnot Hrest]; subst. cbn.
  destruct Hin as [-> | Hin].
  - now rewrite JsString_eqb_refl.
  - destruct (JsString.eqb (Row.id r) (Row.id row)) eqn:E.
    + exfalso. apply JsString_eqb_eq in E. apply Hnot. rewrite E.
      now apply in_map.
    + now apply IH.
Qed.

Lemma forallb_false_witness {A} (f : A -> bool) (l : list A) :
  forallb f l = false -> exists x, In x l /\ f x = false.
Proof.
  induction l as [| a l IH]; cbn; [discriminate |].
  destruct (f a) eqn:E; cbn.
  - intro H. destruct (IH H) as (x & Hx & Hf). eauto.
  - intros _. eauto.
Qed.

(** The three ways an UPDATE ends. *)
Lemma update_where_cases (hit : Row.t -> bool)
    (set : SqlText -> Row.t -> Row.t) (check : Row.t -> bool) (w : World) :
  (TodoRepository.update_where hit set check w = (Ok 0, w)
   /\ forall r, In r (todos w) -> hit r = false)
  \/ (TodoRepository.update_where hit set check w = (Throw (SqliteError CHECK), w)
      /\ exists r, In r (todos w) /\ hit r = true
                   /\ check (set (next_datetime w) r) = false)
  \/ (exists n : Z,
        0 < n
        /\ TodoRepository.update_where hit set check w
           = (Ok n,
              mkWorld
                (map (fun r => if hit r
                               then TodoRepository.touch (next_datetime w)
                                      (set (next_datetime w) r)
                               else r) (todos w))
                (fun n => clock w (S n)) (uuids w) (timezone w) (scan w))
        /\ forall r, In r (todos w) -> hit r = true ->
                     check (set (next_datetime w) r) = true).
Proof.
  unfold TodoRepository.update_where.
  destruct (existsb hit (todos w)) eqn:E.
  - fold (next_datetime w).
    destruct (forallb _ (todos w)) eqn:F.
    + right. right. eexists. split; [| split; [reflexivity |]].
      * apply existsb_exists in E. destruct E as (r & Hr & Hh).
        assert (Hin : In r (List.filter hit (todos w)))
          by (apply filter_In; auto).
        destruct (List.filter hit (todos w)); [destruct Hin | cbn; lia].
      * intros r Hr Hh. rewrite forallb_forall in F.
        specialize (F r Hr). rewrite Hh in F. exact F.
    + right. left. split; [reflexivity |].
      destruct (forallb_false_witness _ _ F) as (r & Hr & Hf).
      exists r. apply orb_false_iff in Hf. destruct Hf as [Hh Hc].
      apply negb_false_iff in Hh. auto.
  - left. split; [reflexivity |]. intros r Hr.
    destruct (hit r) eqn:Eh; [| reflexivity].
    assert (existsb hit (todos w) = true) by (apply existsb_exists; eauto).
    congruence.
Qed.

Lemma repository_update_found (id : jsstring) (u : Partial.t) (row : Row.t)
    (w : World) :
  List.find (TodoRepository.has_id id) (todos w) = Some row ->
  Row.id row <> [] ->
  exists (todo : ITodo.t) (w3 : World) (k : nat),
    updated_by u (clock w 0) (read_row (timezone w) row) todo
    /\ ITodo.updatedAt todo = MkDate (clock w k)
    /\ (forall n : nat, clock w3 n = clock w (S k + n)%nat)
    /\ todos w3 = todos w /\ timezone w3 = timezone w /\ uuids w3 = uuids w
    /\ TodoRepository.update id u w
       = match Todo.toDatabase todo with
         | Throw e => (Fails (Raised e), w3)
         | Ok dbData =>
             match TodoRepository.update_where
                     (TodoRepository.has_id (Row.id dbData))
                     (fun _ => TodoRepository.set_columns dbData)
                     Sql.check_constraints w3 with
             | (Ok n, w4) =>
                 if n =? 0 then (Fails FailedToUpdate, w4)
                 else (Done (Some (Todo.toJSON todo)), w4)
             | (Throw e, w4) => (Fails (Raised e), w4)
             end
         end.
Proof.
  intros Hfind Hid.
  destruct (fromDatabase_reads row w Hid) as [Ef Ej].
  destruct (update_runs u (read_row (timezone w) row) w)
    as (todo & w3 & k & Eu & Hu & Hk & Hc & Ht & Hz & Hi).
  exists todo, w3, k.
  repeat (split; [assumption |]).
  unfold TodoRepository.update, and_then, run_M, TodoRepository.getDatabase.
  rewrite Hfind, Ej, Ef, Eu. unfold lift.
  destruct (Todo.toDatabase todo) as [dbData | e]; [| reflexivity].
  destruct (TodoRepository.update_where _ _ _ w3) as [[n | e] w4];
    [| reflexivity].
  destruct (n =? 0); reflexivity.
Qed.

Lemma blank_nil (id : jsstring) : TodoService.blank id = false -> id <> [].
Proof. intros H ->. discriminate. Qed.

(** Whatever [update] of the repository does, it writes only when it returns
    a todo, and then only to rows of the identifier asked for, whose
    [completed] and [completed_at] it leaves passing their CHECK clauses. *)
Lemma repository_update_table (id : jsstring) (u : Partial.t) (w : World) :
  id <> [] ->
  match TodoRepository.update id u w with
  | (Fails _, w') => todos w' = todos w
  | (Done None, w') =>
      w' = w /\ forall r, In r (todos w) -> Row.id r <> id
  | (Done (Some json), w') =>
      exists (row dbData : Row.t) (todo : ITodo.t) (now : SqlText) (k : nat),
        List.find (TodoRepository.has_id id) (todos w) = Some row
        /\ json = Todo.toJSON todo
        /\ updated_by u (clock w 0) (read_row (timezone w) row) todo
        /\ ITodo.updatedAt todo = MkDate (clock w k)
        /\ now = DatetimeText (clock w (S k) / 1000)
        /\ Todo.toDatabase todo = Ok dbData
        /\ Sql.check_constraints (TodoRepository.set_columns dbData row) = true
        /\ todos w'
           = map (fun r => if TodoRepository.has_id id r
                           then TodoRepository.touch now
                                  (TodoRepository.set_columns dbData r)
                           else r) (todos w)
  end.
Proof.
  intro Hid.
  pose proof (find_has_id id (todos w)) as Hfind.
  change (fun r : Row.t => JsString.eqb (Row.id r) id)
    with (TodoRepository.has_id id) in Hfind.
  destruct (List.find (TodoRepository.has_id id) (todos w)) as [row |] eqn:Ef.
  - destruct Hfind as [Hin Hrid].
    destruct (repository_update_found id u row w Ef)
      as (todo & w3 & k & Hu & Hk & Hc & Ht & Hz & Hi & E);
      [now rewrite Hrid |].
    rewrite E.
    destruct (Todo.toDatabase todo) as [dbData | e] eqn:Ed; [| exact Ht].
    assert (Hdb : Row.id dbData = id).
    { unfold Todo.toDatabase in Ed.
      destruct (Todo.optional_text (ITodo.dueDate todo)),
        (toISOString (ITodo.createdAt todo)),
        (toISOString (ITodo.updatedAt todo)),
        (Todo.optional_text (ITodo.completedAt todo)); try discriminate.
      inversion Ed; subst dbData; cbn.
      destruct Hu as (Hu & _). rewrite Hu. exact Hrid. }
    rewrite Hdb.
    destruct (update_where_cases (TodoRepository.has_id id)
                (fun _ => TodoRepository.set_columns dbData)
                Sql.check_constraints w3)
      as [[-> _] | [[-> _] | (n & Hn & -> & Hall)]].
    + exact Ht.
    + exact Ht.
    + destruct (Z.eqb_spec n 0) as [-> | _]; [lia |].
      exists row, dbData, todo, (next_datetime w3), k.
      split; [reflexivity |]. split; [reflexivity |].
      split; [exact Hu |]. split; [exact Hk |].
      split; [unfold next_datetime; now rewrite Hc, Nat.add_0_r |].
      split; [exact Ed |].
      split.
      * apply Hall; [now rewrite Ht |].
        apply JsString_eqb_eq. exact Hrid.
      * cbn [todos]. now rewrite Ht.
  - unfold TodoRepository.update, and_then, run_M, TodoRepository.getDatabase.
    rewrite Ef. split; [reflexivity | exact Hfind].
Qed.


Lemma validateUpdateTodoDto_none (dto : UpdateTodoDto.t) :
  TodoService.validateUpdateTodoDto dto = None ->
  (forall title, UpdateTodoDto.title dto = Some title ->
                 3 <= JsString.length title <= 100
                 /\ forallb TodoService.title_unit_ok title = true)
  /\ (forall d, UpdateTodoDto.description dto = Some d ->
                JsString.length d <= 500)
  /\ UpdateTodoDto.dueDate dto <> Some InvalidDate.
Proof.
  unfold TodoService.validateUpdateTodoDto, TodoService.as_for_creation.
  destruct (TodoService.validate_update_title (UpdateTodoDto.title dto))
    eqn:Et; [intro H; discriminate H |].
  destruct (TodoService.or_check
              (TodoService.validate_description (UpdateTodoDto.description dto))
              (TodoService.or_check
                 (TodoService.validate_tags (UpdateTodoDto.tags dto))
                 (TodoService.validate_dueDate (UpdateTodoDto.dueDate dto))))
    eqn:Eo; [intro H; discriminate H |].
  intros _.
  apply or_check_none in Eo. destruct Eo as [Hde Eo].
  apply or_check_none in Eo. destruct Eo as [_ Hdu].
  split; [| split].
  - intros title Ht. rewrite Ht in Et. revert Et.
    unfold TodoService.validate_update_title, TodoService.titleRegex_test.
    destruct title as [| c title]; [intro H; discriminate H |].
    cbn [JsString.truthy negb orb andb].
    destruct (JsString.length (JsString.trim (c :: title)) =? 0);
      [intro H; discriminate H |].
    destruct (Z.ltb_spec (JsString.length (c :: title)) 3) as [H3 | H3];
      [intro H; discriminate H |].
    destruct (Z.ltb_spec 100 (JsString.length (c :: title))) as [H100 | H100];
      [intro H; discriminate H |].
    destruct (forallb TodoService.title_unit_ok (c :: title));
      [| cbn; intro H; discriminate H].
    intros _. split; [lia | reflexivity].
  - now apply validate_description_none.
  - now apply validate_dueDate_none.
Qed.

Lemma check_datetime_iso (ms : Z) : Sql.check_datetime (Some (IsoText ms)) = false.
Proof. reflexivity. Qed.

(** X27.  Every way [updateTodo] fails leaves the table as it was.  A blank
    identifier gives a BadRequestError, an update without fields the error
    of that name, an update that breaks a rule its validation error, and an
    identifier no row carries a TodoNotFoundError. *)
Theorem updateTodo_fails_without_writing
    (id : jsstring) (dto : UpdateTodoDto.t) (w : World) :
  (TodoService.blank id = true ->
   TodoService.updateTodo id dto w = (Fails (Raised BadRequestError), w))
  /\ (TodoService.blank id = false -> UpdateTodoDto.keys dto = 0 ->
      TodoService.updateTodo id dto w = (Fails NoFieldToUpdate, w))
  /\ (TodoService.blank id = false -> UpdateTodoDto.keys dto <> 0 ->
      forall info : UpdateValidationInfo,
        TodoService.validateUpdateTodoDto dto = Some info ->
        TodoService.updateTodo id dto w
        = (Fails (UpdateValidationError info), w))
  /\ (TodoService.blank id = false -> UpdateTodoDto.keys dto <> 0 ->
      TodoService.validateUpdateTodoDto dto = None ->
      (forall r, In r (todos w) -> Row.id r <> id) ->
      TodoService.updateTodo id dto w
      = (Fails (Raised (TodoNotFoundError id)), w))
  /\ (forall (x : Exception) (w' : World),
        TodoService.updateTodo id dto w = (Fails x, w') -> todos w' = todos w).
Proof.
  unfold TodoService.updateTodo.
  destruct (TodoService.blank id) eqn:Eb.
  { split; [reflexivity |]. repeat (split; [discriminate |]).
    intros x w' H. now inversion H. }
  split; [discriminate |].
  destruct (Z.eqb_spec (UpdateTodoDto.keys dto) 0) as [Ek | Ek].
  { split; [reflexivity |]. split; [congruence |]. split; [congruence |].
    intros x w' H. now inversion H. }
  split; [congruence |].
  destruct (TodoService.validateUpdateTodoDto dto) as [info |] eqn:Ev.
  { split; [intros _ _ i Hi; now inversion Hi |]. split; [discriminate |].
    intros x w' H. now inversion H. }
  split; [discriminate |].
  split.
  { intros _ _ _ Hnone.
    pose proof (find_has_id id (todos w)) as Hfind.
    change (fun r : Row.t => JsString.eqb (Row.id r) id)
      with (TodoRepository.has_id id) in Hfind.
    destruct (List.find (TodoRepository.has_id id) (todos w)) as [row |] eqn:Ef;
      [exfalso; destruct Hfind as [Hin Hrid]; exact (Hnone row Hin Hrid) |].
    assert (Hu : TodoRepository.update id (UpdateTodoDto.to_partial dto) w
                 = (Done None, w)).
    { unfold TodoRepository.update, and_then, run_M, TodoRepository.getDatabase.
      now rewrite Ef. }
    unfold and_then. now rewrite Hu. }
  pose proof (repository_update_table id (UpdateTodoDto.to_partial dto) w
                (blank_nil id Eb)) as Hrepo.
  unfold and_then.
  destruct (TodoRepository.update id (UpdateTodoDto.to_partial dto) w)
    as [[[json |] | x0] w0].
  - discriminate.
  - destruct Hrepo as [-> _]. intros x w' H. now inversion H.
  - intros x w' H. inversion H; subst. exact Hrepo.
Qed.


Lemma read_date_valid (tz : Z) (x : SqlText) : exists ms, read_date tz x = MkDate ms.
Proof. destruct x; cbn; eauto. Qed.

Lemma option_read_date_valid (tz : Z) (x : option SqlText) :
  option_map (read_date tz) x <> Some InvalidDate.
Proof. destruct x as [[ms | s] |]; cbn; congruence. Qed.

(** A todo with a due date or a completion date gives a row that no UPDATE
    can write: the text of [toISOString()] fails the CHECK of its column. *)
Lemma toDatabase_dated (t : ITodo.t) :
  (exists c, ITodo.createdAt t = MkDate c) ->
  (exists u, ITodo.updatedAt t = MkDate u) ->
  ITodo.dueDate t <> Some InvalidDate ->
  ITodo.completedAt t <> Some InvalidDate ->
  ITodo.dueDate t <> None \/ ITodo.completedAt t <> None ->
  exists dbData : Row.t,
    Todo.toDatabase t = Ok dbData
    /\ Row.id dbData = ITodo.id t
    /\ forall r, Sql.check_constraints (TodoRepository.set_columns dbData r)
                 = false.
Proof.
  destruct t as [i ti de co pr du ta cr up ca]. cbn.
  intros (c & ->) (u & ->) Hdu Hca Hdated.
  unfold Todo.toDatabase, Todo.optional_text, toISOString,
    Sql.check_constraints. cbn.
  destruct du as [[d |] |], ca as [[a |] |]; try congruence;
    try (exfalso; destruct Hdated; congruence);
    eexists; (split; [reflexivity |]); (split; [reflexivity |]);
    intro r; cbn; rewrite ?andb_false_r; reflexivity.
Qed.

Lemma toDatabase_dateless (t : ITodo.t) (c u : Z) :
  ITodo.createdAt t = MkDate c ->
  ITodo.updatedAt t = MkDate u ->
  ITodo.dueDate t = None ->
  ITodo.completedAt t = None ->
  ITodo.completed t = false ->
  exists dbData : Row.t,
    Todo.toDatabase t = Ok dbData
    /\ Row.id dbData = ITodo.id t
    /\ forall (now : SqlText) (r : Row.t),
         TodoRepository.touch now (TodoRepository.set_columns dbData r)
         = rewritten t now r.
Proof.
  destruct t as [i ti de co pr du ta cr up ca]. cbn.
  intros -> -> -> -> ->.
  eexists. split; [reflexivity |]. split; reflexivity.
Qed.

(** X28.  [updateTodo] cannot store a date.  For a stored row whose completion
    columns agree, every accepted update whose result carries a due date or a
    completion date (it sets [dueDate], or [completed: true], or the row has
    a due date, or the row is completed and the update does not un-complete
    it) is refused by the storage with a CHECK error, and the table is left
    as it was. *)
Theorem updateTodo_cannot_store_a_date
    (id : jsstring) (dto : UpdateTodoDto.t) (row : Row.t) (w : World)
    (Hid : TodoService.blank id = false)
    (Hkeys : UpdateTodoDto.keys dto <> 0)
    (Hvalid : TodoService.validateUpdateTodoDto dto = None)
    (Hkey : distinct_ids (todos w))
    (Hrow : In row (todos w)) (Hrid : Row.id row = id)
    (Hok : stored_ok row)
    (Hdated : writes_a_date dto row) :
  exists w' : World,
    TodoService.updateTodo id dto w = (Fails (Raised (SqliteError CHECK)), w')
    /\ todos w' = todos w.
Proof.
  pose proof (find_distinct (todos w) row Hkey Hrow) as Hfind.
  rewrite Hrid in Hfind.
  destruct (repository_update_found id (UpdateTodoDto.to_partial dto) row w Hfind)
    as (todo & w3 & k & Hu & Hk & Hc & Ht & Hz & Hi & E);
    [rewrite Hrid; now apply blank_nil |].
  destruct (validateUpdateTodoDto_none dto Hvalid) as (_ & _ & Hdue).
  destruct Hu as (Huid & Hucr & _ & _ & _ & Hudu & _ & Huco & Huca).
  cbn [UpdateTodoDto.to_partial Partial.dueDate Partial.completed
       read_row ITodo.id ITodo.createdAt ITodo.dueDate ITodo.completed
       ITodo.completedAt] in Huid, Hucr, Hudu, Huco, Huca.
  destruct (toDatabase_dated todo) as (dbData & Ed & Hdb & Hchk).
  - rewrite Hucr. apply read_date_valid.
  - eauto.
  - rewrite Hudu. destruct (UpdateTodoDto.dueDate dto); [exact Hdue |].
    apply option_read_date_valid.
  - rewrite Huca.
    destruct (UpdateTodoDto.completed dto) as [[|] |];
      destruct (negb (Row.completed row =? 0));
      try apply option_read_date_valid; congruence.
  - rewrite Hudu, Huca.
    destruct Hdated as [Hd | [Hd | [Hd | [Hd Hd']]]].
    + left. destruct (UpdateTodoDto.dueDate dto); congruence.
    + left. destruct (UpdateTodoDto.dueDate dto); [congruence |].
      destruct (Row.due_date row); cbn; congruence.
    + right. rewrite Hd.
      destruct Hok as [[H0 H1] | [H0 H1]]; rewrite H0; cbn; [congruence |].
      destruct (Row.completed_at row); cbn; congruence.
    + right. destruct Hok as [[H0 H1] | [H0 H1]]; [congruence |].
      rewrite H0. cbn.
      destruct (UpdateTodoDto.completed dto) as [[|] |];
        destruct (Row.completed_at row); cbn; congruence.
  - rewrite Ed, Hdb, Huid, Hrid in E.
    destruct (update_where_cases (TodoRepository.has_id id)
                (fun _ => TodoRepository.set_columns dbData)
                Sql.check_constraints w3)
      as [[_ Hno] | [[Eu _] | (n & _ & _ & Hall)]].
    + exfalso. rewrite Ht in Hno. specialize (Hno row Hrow).
      unfold TodoRepository.has_id in Hno. rewrite Hrid, JsString_eqb_refl in Hno.
      discriminate.
    + rewrite Eu in E. exists w3. split; [| exact Ht].
      unfold TodoService.updateTodo. rewrite Hid.
      destruct (Z.eqb_spec (UpdateTodoDto.keys dto) 0); [contradiction |].
      rewrite Hvalid. unfold and_then. now rewrite E.
    + exfalso. rewrite Ht in Hall. specialize (Hall row Hrow).
      rewrite Hchk in Hall. 
      assert (H : false = true); [| discriminate].
      apply Hall. unfold TodoRepository.has_id.
      rewrite Hrid. apply JsString_eqb_refl.
Qed.

Lemma updateTodo_cannot_store_a_date_witness :
  exists w' : World,
    TodoService.updateTodo (js "task-3") (set_completed true) (tasks_world 2 5)
    = (Fails (Raised (SqliteError CHECK)), w')
    /\ todos w' = todos (tasks_world 2 5).
Proof.
  apply (updateTodo_cannot_store_a_date (js "task-3") (set_completed true)
           (stored_task false 3) (tasks_world 2 5)).
  - reflexivity.
  - discriminate.
  - reflexivity.
  - exact five_tasks_have_distinct_ids.
  - cbn. tauto.
  - reflexivity.
  - left. split; reflexivity.
  - right. right. left. reflexivity.
Defined.


Lemma check_constraints_rewritten (t : ITodo.t) (now : SqlText) (r : Row.t) :
  Sql.check_constraints (rewritten t now r)
  = ((3 <=? Sql.length (ITodo.title t)) && (Sql.length (ITodo.title t) <=? 100))
    && match ITodo.description t with
       | Some d => if JsString.truthy d then Sql.length d <=? 500 else true
       | None => true
       end.
Proof.
  unfold Sql.check_constraints, Sql.check_title, Sql.check_description,
    Sql.check_completed, Sql.check_datetime, rewritten. cbn.
  rewrite !andb_true_r.
  destruct (ITodo.description t) as [d |]; [| reflexivity].
  destruct (JsString.truthy d); reflexivity.
Qed.

Lemma check_constraints_set_columns (dbData r : Row.t) (now : SqlText) :
  Sql.check_constraints (TodoRepository.set_columns dbData r)
  = Sql.check_constraints
      (TodoRepository.touch now (TodoRepository.set_columns dbData r)).
Proof. reflexivity. Qed.

(** X29.  An accepted update that stores no date rewrites the row of its
    identifier and no other.  For a stored row that passes the CHECK clauses
    and whose completion columns agree, when neither the update nor the row
    has a due date, the update does not set [completed: true] and the row is
    not completed (or the update un-completes it), [updateTodo] returns the
    todo with the fields supplied, the others kept; the row then holds these
    fields with [completed] 0, and as [updated_at] the [datetime('now')] of
    the statement, not the [updatedAt] returned. *)
Theorem updateTodo_rewrites_the_row_of_the_identifier
    (id : jsstring) (dto : UpdateTodoDto.t) (row : Row.t) (w : World)
    (Hid : TodoService.blank id = false)
    (Hkeys : UpdateTodoDto.keys dto <> 0)
    (Hvalid : TodoService.validateUpdateTodoDto dto = None)
    (Hkey : distinct_ids (todos w))
    (Hrow : In row (todos w)) (Hrid : Row.id row = id)
    (Hok : stored_ok row)
    (Hchecks : Sql.check_constraints row = true)
    (Hdateless : ~ writes_a_date dto row) :
  exists (todo : ITodo.t) (w' : World) (k : nat),
    TodoService.updateTodo id dto w = (Done todo, w')
    /\ updated_by (UpdateTodoDto.to_partial dto) (clock w 0)
         (read_row (timezone w) row) todo
    /\ ITodo.completed todo = false
    /\ ITodo.updatedAt todo = MkDate (clock w k)
    /\ todos w'
       = map (fun r => if TodoRepository.has_id id r
                       then rewritten todo (DatetimeText (clock w (S k) / 1000)) r
                       else r) (todos w).
Proof.
  pose proof (find_distinct (todos w) row Hkey Hrow) as Hfind.
  rewrite Hrid in Hfind.
  destruct (repository_update_found id (UpdateTodoDto.to_partial dto) row w Hfind)
    as (todo & w3 & k & Hu & Hk & Hc & Ht & Hz & Hi & E);
    [rewrite Hrid; now apply blank_nil |].
  destruct (validateUpdateTodoDto_none dto Hvalid) as (Htitle & Hdesc & _).
  pose proof Hu as Hu0.
  destruct Hu as (Huid & Hucr & Huti & Hude & _ & Hudu & _ & Huco & Huca).
  cbn [UpdateTodoDto.to_partial Partial.dueDate Partial.completed
       Partial.title Partial.description
       read_row ITodo.id ITodo.createdAt ITodo.dueDate ITodo.completed
       ITodo.completedAt ITodo.title ITodo.description]
    in Huid, Hucr, Huti, Hude, Hudu, Huco, Huca.
  assert (Hdto_due : UpdateTodoDto.dueDate dto = None).
  { destruct (UpdateTodoDto.dueDate dto) eqn:Ed; [| reflexivity].
    exfalso. apply Hdateless. left. congruence. }
  assert (Hrow_due : Row.due_date row = None).
  { destruct (Row.due_date row) eqn:Ed; [| reflexivity].
    exfalso. apply Hdateless. right. left. congruence. }
  assert (Hnot_true : UpdateTodoDto.completed dto <> Some true).
  { intro Hc'. apply Hdateless. right. right. left. exact Hc'. }
  assert (Hrest : Row.completed_at row = None
                  \/ UpdateTodoDto.completed dto = Some false).
  { destruct (Row.completed_at row) eqn:Ea; [| now left].
    destruct (UpdateTodoDto.completed dto) as [[|] |] eqn:Ec;
      [congruence | now right |].
    exfalso. apply Hdateless. right. right. right. split; congruence. }
  assert (Hdue : ITodo.dueDate todo = None)
    by (rewrite Hudu, Hdto_due, Hrow_due; reflexivity).
  assert (Hdone : ITodo.completedAt todo = None /\ ITodo.completed todo = false).
  { rewrite Huca, Huco.
    destruct Hok as [[H0 H1] | [H0 H1]]; rewrite H0; cbn.
    - rewrite H1.
      destruct (UpdateTodoDto.completed dto) as [[|] |]; cbn;
        [congruence | |]; split; reflexivity.
    - destruct Hrest as [Hr | Hr]; [congruence |]. rewrite Hr. cbn.
      split; reflexivity. }
  destruct Hdone as [Hat Hco].
  destruct (read_date_valid (timezone w) (Row.created_at row)) as (c & Hcr).
  destruct (toDatabase_dateless todo c (clock w k)) as (dbData & Ed & Hdb & Hre);
    try assumption; [now rewrite Hucr |].
  assert (Hchk : forall (now : SqlText) (r : Row.t),
             Sql.check_constraints (TodoRepository.set_columns dbData r) = true).
  { intros now r.
    rewrite (check_constraints_set_columns dbData r now), Hre,
      check_constraints_rewritten.
    unfold Sql.check_constraints in Hchecks.
    apply andb_true_iff in Hchecks. destruct Hchecks as [Hchecks _].
    apply andb_true_iff in Hchecks. destruct Hchecks as [Hchecks _].
    apply andb_true_iff in Hchecks. destruct Hchecks as [Hchecks _].
    apply andb_true_iff in Hchecks. destruct Hchecks as [Hct Hcd].
    apply andb_true_iff. split.
    - rewrite Huti.
      destruct (UpdateTodoDto.title dto) as [title |] eqn:Et; cbn.
      + destruct (Htitle title eq_refl) as [Hlen Hunits].
        rewrite (Sql_length_title title Hunits).
        apply andb_true_iff. split; [apply Z.leb_le | apply Z.leb_le]; lia.
      + exact Hct.
    - rewrite Hude.
      destruct (UpdateTodoDto.description dto) as [d |] eqn:Ede.
      + destruct (JsString.truthy d); [| reflexivity].
        apply Z.leb_le. pose proof (Sql_length_le d).
        specialize (Hdesc d eq_refl). lia.
      + unfold Sql.check_description in Hcd.
        destruct (Row.description row) as [d |]; [| reflexivity].
        destruct (JsString.truthy d) eqn:Etr; [| reflexivity].
        rewrite Etr. exact Hcd. }
  rewrite Ed, Hdb, Huid, Hrid in E.
  destruct (update_where_cases (TodoRepository.has_id id)
              (fun _ => TodoRepository.set_columns dbData)
              Sql.check_constraints w3)
    as [[_ Hno] | [[_ (r & _ & _ & Hbad)] | (n & Hn & Eu & _)]].
  - exfalso. rewrite Ht in Hno. specialize (Hno row Hrow).
    unfold TodoRepository.has_id in Hno. rewrite Hrid, JsString_eqb_refl in Hno.
    discriminate.
  - exfalso. rewrite (Hchk (next_datetime w3) r) in Hbad. discriminate.
  - rewrite Eu in E.
    destruct (Z.eqb_spec n 0) as [E0 | _]; [lia |].
    eexists. eexists. exists k. split.
    + unfold TodoService.updateTodo. rewrite Hid.
      destruct (Z.eqb_spec (UpdateTodoDto.keys dto) 0); [contradiction |].
      rewrite Hvalid. unfold and_then. rewrite E. reflexivity.
    + assert (Hj : Todo.toJSON todo = todo) by (destruct todo; reflexivity).
      rewrite Hj.
      split; [exact Hu0 |]. split; [exact Hco |]. split; [exact Hk |].
      cbn [todos]. rewrite Ht. apply map_ext. intro r.
      destruct (TodoRepository.has_id id r); [| reflexivity].
      rewrite Hre. unfold next_datetime. now rewrite Hc, Nat.add_0_r.
Qed.

Lemma updateTodo_rewrites_the_row_of_the_identifier_witness :
  exists (todo : ITodo.t) (w' : World) (k : nat),
    TodoService.updateTodo (js "task-3") (retitle (js "Buy bread"))
      (tasks_world 2 5) = (Done todo, w')
    /\ updated_by (UpdateTodoDto.to_partial (retitle (js "Buy bread")))
         (clock (tasks_world 2 5) 0)
         (read_row (timezone (tasks_world 2 5)) (stored_task false 3)) todo
    /\ ITodo.completed todo = false
    /\ ITodo.updatedAt todo = MkDate (clock (tasks_world 2 5) k)
    /\ todos w'
       = map (fun r => if TodoRepository.has_id (js "task-3") r
                       then rewritten todo
                              (DatetimeText (clock (tasks_world 2 5) (S k) / 1000))
                              r
                       else r) (todos (tasks_world 2 5)).
Proof.
  apply (updateTodo_rewrites_the_row_of_the_identifier (js "task-3")
           (retitle (js "Buy bread")) (stored_task false 3) (tasks_world 2 5)).
  - reflexivity.
  - discriminate.
  - reflexivity.
  - exact five_tasks_have_distinct_ids.
  - cbn. tauto.
  - reflexivity.
  - left. split; reflexivity.
  - reflexivity.
  - intros [H | [H | [H | [H _]]]]; cbn in H; congruence.
Defined.

(* ================================================================= *)
(** ** What every write keeps *)

Lemma well_kept_filter (f : Row.t -> bool) (table : list Row.t) :
  well_kept table -> well_kept (List.filter f table).
Proof.
  intros [Hs Hd]. split; [| now apply distinct_ids_filter].
  apply Forall_forall. intros r Hr. apply filter_In in Hr.
  rewrite Forall_forall in Hs. now apply Hs.
Qed.

Lemma well_kept_map (hit : Row.t -> bool) (f : Row.t -> Row.t)
    (table : list Row.t) :
  (forall r, Row.id (f r) = Row.id r) ->
  (forall r, In r table -> hit r = true -> stored_ok (f r)) ->
  well_kept table ->
  well_kept (map (fun r => if hit r then f r else r) table).
Proof.
  intros Hid Hf [Hs Hd]. split.
  - apply Forall_forall. intros r' Hr'. apply in_map_iff in Hr'.
    destruct Hr' as (r & <- & Hr). rewrite Forall_forall in Hs.
    destruct (hit r) eqn:E; [now apply Hf | now apply Hs].
  - unfold distinct_ids in *. rewrite map_map.
    erewrite map_ext; [exact Hd |].
    intro r. cbn. destruct (hit r); [apply Hid | reflexivity].
Qed.

Lemma well_kept_app (table rows : list Row.t) :
  Forall stored_ok table -> Forall stored_ok rows ->
  distinct_ids (table ++ rows) -> well_kept (table ++ rows).
Proof.
  intros Ht Hr Hd. split; [| exact Hd]. apply Forall_app. now split.
Qed.

Lemma toDatabase_active (t : ITodo.t) (row : Row.t) :
  ITodo.completed t = false -> ITodo.completedAt t = None ->
  Todo.toDatabase t = Ok row -> stored_ok row.
Proof.
  intros Hc Ha. unfold Todo.toDatabase. rewrite Hc, Ha. cbn.
  destruct (Todo.optional_text (ITodo.dueDate t)),
    (toISOString (ITodo.createdAt t)), (toISOString (ITodo.updatedAt t));
    try discriminate.
  intro H. inversion H; subst row. left. split; reflexivity.
Qed.

Lemma bulkCreate_table (batch : list CreateTodoDto.t) (w : World) :
  well_kept (todos w) ->
  well_kept (todos (snd (TodoService.bulkCreate batch w))).
Proof.
  intros [Hs Hd].
  unfold TodoService.bulkCreate.
  destruct (Z.of_nat (List.length batch) =? 0); [now split |].
  destruct (100 <? Z.of_nat (List.length batch)); [now split |].
  unfold TodoService.check, bind.
  destruct (TodoService.validate_each 0 batch); [now split |].
  cbn [ret].
  destruct (mapM_create_runs batch w) as (created & w1 & E & Ht & Hf).
  rewrite E.
  unfold TodoRepository.bulkCreate, TodoRepository.transaction, bind.
  destruct (TodoRepository.insertMany created (todos w1)) as [table' | e] eqn:Hi;
    [| cbn; rewrite Ht; now split].
  cbn. destruct (insertMany_outcome _ _ _ Hi) as (rows & -> & Hrows & Hkeep).
  rewrite Ht in *.
  apply well_kept_app; [exact Hs | | now apply Hkeep].
  clear - Hf Hrows.
  revert rows Hrows.
  induction Hf as [| dto t batch created (_ & Hc & Ha) _ IH]; intros rows Hrows.
  - inversion Hrows. constructor.
  - inversion Hrows as [| ? row ? rows' Hrow Hrest]; subst.
    constructor; [exact (toDatabase_active t row Hc Ha Hrow) | now apply IH].
Qed.

Lemma updateTodo_table (id : jsstring) (dto : UpdateTodoDto.t) (w : World) :
  well_kept (todos w) ->
  well_kept (todos (snd (TodoService.updateTodo id dto w))).
Proof.
  intro Hw. unfold TodoService.updateTodo.
  destruct (TodoService.blank id) eqn:Eb; [exact Hw |].
  destruct (UpdateTodoDto.keys dto =? 0); [exact Hw |].
  destruct (TodoService.validateUpdateTodoDto dto); [exact Hw |].
  pose proof (repository_update_table id (UpdateTodoDto.to_partial dto) w
                (blank_nil id Eb)) as Hrepo.
  unfold and_then.
  destruct (TodoRepository.update id (UpdateTodoDto.to_partial dto) w)
    as [[[json |] | x0] w0]; cbn [snd fails done].
  - destruct Hrepo
      as (row & dbData & todo & now & k & Hfind & _ & Hu & _ & _ & Ed & Hchk & ->).
    apply find_some in Hfind. destruct Hfind as [Hrow _].
    apply well_kept_map; [reflexivity | | exact Hw].
    intros r _ _.
    destruct Hw as [Hs _]. rewrite Forall_forall in Hs.
    specialize (Hs row Hrow).
    destruct Hu as (_ & _ & _ & _ & _ & _ & _ & Huco & Huca).
    cbn [UpdateTodoDto.to_partial Partial.completed read_row ITodo.completed
         ITodo.completedAt] in Huco, Huca.
    unfold Sql.check_constraints in Hchk.
    apply andb_true_iff in Hchk. destruct Hchk as [_ Hat].
    cbn [TodoRepository.set_columns Row.completed_at] in Hat.
    unfold Todo.toDatabase in Ed.
    destruct (Todo.optional_text (ITodo.dueDate todo)),
      (toISOString (ITodo.createdAt todo)),
      (toISOString (ITodo.updatedAt todo)),
      (Todo.optional_text (ITodo.completedAt todo)) as [done |] eqn:Edone;
      try discriminate.
    inversion Ed; subst dbData; clear Ed.
    cbn [Row.completed_at] in Hat.
    assert (Hnone : ITodo.completedAt todo = None).
    { unfold Todo.optional_text, toISOString in Edone.
      destruct (ITodo.completedAt todo) as [[ms |] |]; try discriminate;
        [| reflexivity].
      inversion Edone; subst done. discriminate. }
    assert (Hfalse : ITodo.completed todo = false).
    { rewrite Huco. rewrite Hnone in Huca.
      destruct Hs as [[H0 H1] | [H0 H1]]; rewrite H0 in *; cbn in *.
      - destruct (UpdateTodoDto.completed dto) as [[|] |]; cbn;
          [discriminate | reflexivity | reflexivity].
      - destruct (UpdateTodoDto.completed dto) as [[|] |]; cbn;
          [| reflexivity |];
          destruct (Row.completed_at row); cbn in *; congruence. }
    left. cbn. rewrite Hfalse. split; [reflexivity |].
    rewrite Hnone in Edone. cbn in Edone. now inversion Edone.
  - destruct Hrepo as [-> _]. exact Hw.
  - now rewrite Hrepo.
Qed.

Lemma serve_keeps (q : Request) (w : World) :
  well_kept (todos w) -> well_kept (todos (serve q w)).
Proof.
  intro Hw. destruct q as [dto | batch | id dto | id | ids | | ids | ids];
    cbn [serve].
  - destruct (createTodo_outcome dto w)
      as [(e & w' & E & Ht)
         | (todo & row & w' & E & Ht & _ & (_ & _ & Hc & Ha) & _ & _ & Hnew & _)];
      rewrite E; cbn [snd]; rewrite Ht; [exact Hw |].
    destruct Hw as [Hs Hd].
    apply well_kept_app; [exact Hs | | now apply distinct_ids_app].
    constructor; [| constructor]. left. now split.
  - now apply bulkCreate_table.
  - now apply updateTodo_table.
  - unfold TodoService.deleteTodo.
    destruct (TodoService.blank id); [exact Hw |].
    unfold bind. rewrite delete_outcome.
    destruct (0 <? _); cbn; now apply well_kept_filter.
  - unfold TodoService.bulkDelete.
    destruct (Z.of_nat (List.length ids) =? 0); [exact Hw |].
    destruct (100 <? Z.of_nat (List.length ids)); [exact Hw |].
    destruct (TodoService.first_blank_id 0 ids) as [[i id] |]; [exact Hw |].
    unfold run_M, TodoRepository.bulkDelete.
    destruct ids as [| id0 ids0]; [exact Hw |].
    unfold bind, lift.
    destruct (Sql.prepare _ _); [| exact Hw].
    cbn. now apply well_kept_filter.
  - cbn. now apply well_kept_filter.
  - destruct (Z_le_gt_dec (Z.of_nat (List.length ids))
                Sql.SQLITE_MAX_VARIABLE_NUMBER) as [Hfew | Hmany].
    2:{ destruct (bulk_completion_many ids w ltac:(lia)) as [-> _]. exact Hw. }
    destruct ids as [| id0 ids0]; [exact Hw |].
    set (ids := id0 :: ids0) in *.
    rewrite (bulkComplete_few ids w ltac:(discriminate) Hfew).
    rewrite update_where_outcome.
    + cbn [snd]. rewrite update_where_table.
      apply well_kept_map; [reflexivity | | exact Hw].
      intros r _ _. right. split; [reflexivity | discriminate].
    + intros s r.
      unfold TodoRepository.check_completion, Sql.check_completed,
        Sql.check_datetime. cbn. apply Z.eqb_refl.
  - destruct (Z_le_gt_dec (Z.of_nat (List.length ids))
                Sql.SQLITE_MAX_VARIABLE_NUMBER) as [Hfew | Hmany].
    2:{ destruct (bulk_completion_many ids w ltac:(lia)) as [_ ->]. exact Hw. }
    destruct ids as [| id0 ids0]; [exact Hw |].
    set (ids := id0 :: ids0) in *.
    rewrite (bulkUncomplete_few ids w ltac:(discriminate) Hfew).
    rewrite update_where_outcome by reflexivity.
    cbn [snd]. rewrite update_where_table.
    apply well_kept_map; [reflexivity | | exact Hw].
    intros r _ _. left. split; reflexivity.
Qed.

(** X30.  No sequence of writes breaks the table: starting from a table in which
    [completed] is 1 exactly in the rows whose [completed_at] is set, and in
    which no two rows share an identifier, the same holds after any sequence
    of [createTodo], [bulkCreate], [updateTodo], [deleteTodo], [bulkDelete],
    [deleteCompleted], [bulkComplete] and [bulkUncomplete], whether each
    returns or throws. *)
Theorem writes_keep_the_table_well_kept (qs : list Request) (w : World)
    (H : well_kept (todos w)) :
  well_kept (todos (serve_all qs w)).
Proof.
  unfold serve_all. revert w H.
  induction qs as [| q qs IH]; intros w H; [exact H |].
  cbn [fold_left]. apply IH. now apply serve_keeps.
Qed.

Lemma writes_keep_the_table_well_kept_witness :
  well_kept
    (todos (serve_all
              [CreateTodo milk_dto; BulkComplete [js "id-0"];
               UpdateTodo (js "id-0") (set_completed false);
               DeleteCompleted]
              ticking_world)).
Proof.
  apply (writes_keep_the_table_well_kept
           [CreateTodo milk_dto; BulkComplete [js "id-0"];
            UpdateTodo (js "id-0") (set_completed false);
            DeleteCompleted]
           ticking_world).
  split; constructor.
Defined.

(* ================================================================= *)
(** ** The guards of [getAllTodos] *)

Lemma getAllTodos_cases (params : TodoQueryParams.t) (w : World) :
  (exists info : ValidationInfo,
      TodoService.getAllTodos params w = (Throw (ValidationError info), w)
      /\ (TodoRepository.page_of params < 0
          \/ TodoRepository.limit_of params < 0
          \/ 100 < TodoRepository.limit_of params))
  \/ (TodoService.getAllTodos params w = TodoRepository.findAll params w
      /\ 0 <= TodoRepository.page_of params
      /\ 0 <= TodoRepository.limit_of params <= 100).
Proof.
  unfold TodoService.getAllTodos, TodoService.check, bind,
    TodoRepository.page_of, TodoRepository.limit_of.
  destruct (TodoQueryParams.page params) as [page |];
    [destruct (Z.eqb_spec page 0), (Z.ltb_spec page 1) |];
    (destruct (TodoQueryParams.limit params) as [limit |];
     [destruct (Z.eqb_spec limit 0), (Z.ltb_spec limit 1),
        (Z.ltb_spec 100 limit) |]);
    cbn [negb andb ret throw];
    first [ right; split; [reflexivity | lia]
          | left; eexists; split; [reflexivity | lia]
          | exfalso; lia ].
Qed.

(** X19.  [getAllTodos] either refuses the query with a ValidationError, and
    then the page is negative, or the limit is negative or above 100; or it
    throws the error of SQLite, and then the query goes beyond the limits of
    SQLite; or it answers as [findAll] does, the page and the limit being at
    least 0 and the limit at most 100, with no more than 100 records, and no
    more than the limit.  The table is not changed. *)
Theorem getAllTodos_returns_at_most_100_records
    (params : TodoQueryParams.t) (w : World) :
  match fst (TodoService.getAllTodos params w) with
  | Ok response =>
      fst (TodoRepository.findAll params w) = Ok response
      /\ 0 <= TodoRepository.page_of params
      /\ 0 <= TodoRepository.limit_of params <= 100
      /\ Z.of_nat (List.length (PaginatedResponse.data response))
         <= TodoRepository.limit_of params
  | Throw e =>
      (exists info : ValidationInfo,
          e = ValidationError info
          /\ (TodoRepository.page_of params < 0
              \/ TodoRepository.limit_of params < 0
              \/ 100 < TodoRepository.limit_of params))
      \/ (exists c : SqliteCode,
             e = SqliteError c
             /\ within_limits params = false
             /\ 0 <= TodoRepository.page_of params
             /\ 0 <= TodoRepository.limit_of params <= 100)
  end
  /\ table_after (TodoService.getAllTodos params) w = todos w.
Proof.
  unfold table_after.
  destruct (getAllTodos_cases params w) as [(info & -> & H) | (-> & Hp & Hl)].
  - split; [| reflexivity]. left. exists info. split; [reflexivity | exact H].
  - destruct (findAll_cases params w)
      as [(response & w' & rows & E & Hf & Ht) | (c & E)].
    + rewrite E. cbn [fst snd]. split; [| exact Ht].
      split; [reflexivity |]. split; [exact Hp |]. split; [exact Hl |].
      rewrite <- (Forall2_length Hf).
      unfold Sql.window.
      replace (TodoRepository.limit_of params <? 0) with false
        by (symmetry; apply Z.ltb_ge; lia).
      rewrite length_firstn. lia.
    + rewrite E. cbn [fst snd]. split; [| reflexivity].
      right. exists c. split; [reflexivity |]. split; [| split; assumption].
      destruct (within_limits params) eqn:Ew; [| reflexivity].
      destruct (findAll_runs params w Ew) as (data & w' & E' & _).
      rewrite E' in E. discriminate.
Qed.
